(** * Verification of [run_schedule] (streamlit.py)

    A shallow embedding of the shift-scheduling procedure of
    [streamlit.py]: the construction of the CP-SAT model (decision
    variables, coverage, exclusivity and fairness constraints, the
    request-maximising objective), the call of the solving engine, and
    the extraction of the roster table from the solver's answer.

    Conventions.
    - Python integers that count workers, shifts and days are naturals:
      the caller obtains them from number inputs with [min_value=1], and
      [range] makes every loop index a natural.
    - A Python exception is an explicit [Raise] in the monad [Py].
    - The engine ([cp_model.CpSolver]) is an external collaborator.  It is
      a parameter [Solve] of [run_schedule]; what is relied upon is the
      contract [sound] below.  [brute_force_solve] is an executable
      reference engine that meets the contract.
    - [print] appends a structured line to the standard output of the
      result; floats ([ObjectiveValue], [WallTime]) are kept as exact
      numbers. *)

From Stdlib Require Import List Arith Lia Bool Ascii String.
From Stdlib Require Import DecimalString.
From Stdlib Require QArith DecimalNat.
Import ListNotations.
Local Open Scope string_scope.
Local Open Scope list_scope.
Local Open Scope nat_scope.

Set Implicit Arguments.

(* ================================================================== *)
(** ** Python glue: exceptions, ranges, loops, indexing *)

Inductive Exception : Type :=
| ZeroDivisionError
| IndexError
| KeyError
| TypeError.

Inductive Py (A : Type) : Type :=
| Return (a : A)
| Raise (e : Exception).

Arguments Return {A} a.
Arguments Raise {A} e.

Definition bind {A B : Type} (c : Py A) (k : A -> Py B) : Py B :=
  match c with
  | Return a => k a
  | Raise e => Raise e
  end.

Notation "x <- c ;; k" := (bind c (fun x => k))
  (at level 61, c at next level, right associativity).

(** [range(n)] *)
Definition range (n : nat) : list nat := seq 0 n.

(** [for x in l: body] over a state that the body updates. *)
Definition for_ {A S : Type} (l : list A) (body : A -> S -> S) (s : S) : S :=
  fold_left (fun acc x => body x acc) l s.

(** The same loop when the body may raise. *)
Fixpoint forM {A S : Type} (l : list A) (body : A -> S -> Py S) (s : S) : Py S :=
  match l with
  | [] => Return s
  | x :: l' => s' <- body x s ;; forM l' body s'
  end.

(** [l[i]] for a list and a natural index. *)
Definition getitem {A : Type} (l : list A) (i : nat) : Py A :=
  match nth_error l i with
  | Some x => Return x
  | None => Raise IndexError
  end.

(** [a // b] and [a % b] on naturals. *)
Definition floordiv (a b : nat) : Py nat :=
  if b =? 0 then Raise ZeroDivisionError else Return (a / b).

Definition pymod (a b : nat) : Py nat :=
  if b =? 0 then Raise ZeroDivisionError else Return (a mod b).

(** [str(n)] for a natural. *)
Definition str (n : nat) : string := NilZero.string_of_uint (Nat.to_uint n).

(** [b == 1] and [b * x] for a Python bool [b]. *)
Definition int_of_bool (b : bool) : nat := if b then 1 else 0.

(* ================================================================== *)
(** ** The part of [ortools.sat.python.cp_model] that the code uses *)

Module cp_model.

(** A Boolean variable.  [run_schedule] creates exactly one variable
    per key [(n, d, s)], named [shift_n{n}_d{d}_s{s}], and stores it in
    the dictionary [shifts] under that key; the variable is identified
    with its key. *)
Inductive BoolVar : Type :=
| shift_ (n d s : nat).

Definition BoolVar_eqb (x y : BoolVar) : bool :=
  match x, y with
  | shift_ n d s, shift_ n' d' s' => (n =? n') && (d =? d') && (s =? s')
  end.

(** A linear expression: a constant plus a sum of [coefficient * variable]. *)
Record LinearExpr : Type := mkExpr {
  offset : nat;
  terms : list (nat * BoolVar)
}.

(** The integer [k] used as an expression, [e + x] and [e + c * x]. *)
Definition const (k : nat) : LinearExpr := mkExpr k [].

Definition add_term (e : LinearExpr) (c : nat) (x : BoolVar) : LinearExpr :=
  mkExpr (offset e) (terms e ++ [(c, x)]).

Definition add_var (e : LinearExpr) (x : BoolVar) : LinearExpr :=
  add_term e 1 x.

Inductive Constraint : Type :=
| ExactlyOne (literals : list BoolVar)
| AtMostOne (literals : list BoolVar)
| LowerBound (lb : nat) (e : LinearExpr)     (* [lb <= e] *)
| UpperBound (e : LinearExpr) (ub : nat).    (* [e <= ub] *)

Record CpModel : Type := mkModel {
  variables : list BoolVar;
  constraints : list Constraint;
  objective : option LinearExpr              (* maximised *)
}.

(** [cp_model.CpModel()] *)
Definition new_model : CpModel := mkModel [] [] None.

Definition NewBoolVar (x : BoolVar) (m : CpModel) : CpModel :=
  mkModel (variables m ++ [x]) (constraints m) (objective m).

Definition Add (c : Constraint) (m : CpModel) : CpModel :=
  mkModel (variables m) (constraints m ++ [c]) (objective m).

Definition AddExactlyOne (literals : list BoolVar) : CpModel -> CpModel :=
  Add (ExactlyOne literals).

Definition AddAtMostOne (literals : list BoolVar) : CpModel -> CpModel :=
  Add (AtMostOne literals).

Definition Maximize (e : LinearExpr) (m : CpModel) : CpModel :=
  mkModel (variables m) (constraints m) (Some e).

(** *** Meaning of a model *)

(** A solution gives every Boolean variable the value 0 or 1. *)
Definition Assignment : Type := BoolVar -> bool.

Definition count_true (a : Assignment) (literals : list BoolVar) : nat :=
  list_sum (map (fun x => int_of_bool (a x)) literals).

Definition eval (a : Assignment) (e : LinearExpr) : nat :=
  offset e + list_sum (map (fun t => fst t * int_of_bool (a (snd t))) (terms e)).

Definition holds (a : Assignment) (c : Constraint) : bool :=
  match c with
  | ExactlyOne l => count_true a l =? 1
  | AtMostOne l => count_true a l <=? 1
  | LowerBound lb e => lb <=? eval a e
  | UpperBound e ub => eval a e <=? ub
  end.

Definition satisfies (a : Assignment) (m : CpModel) : bool :=
  forallb (holds a) (constraints m).

Definition objective_of (m : CpModel) (a : Assignment) : nat :=
  match objective m with
  | Some e => eval a e
  | None => 0
  end.

(** *** The solver *)

Inductive CpSolverStatus : Type :=
| UNKNOWN
| MODEL_INVALID
| FEASIBLE
| INFEASIBLE
| OPTIMAL.

Definition status_eqb (x y : CpSolverStatus) : bool :=
  match x, y with
  | UNKNOWN, UNKNOWN | MODEL_INVALID, MODEL_INVALID | FEASIBLE, FEASIBLE
  | INFEASIBLE, INFEASIBLE | OPTIMAL, OPTIMAL => true
  | _, _ => false
  end.

(** The state of a [CpSolver] after [Solve]: what its accessors return. *)
Record CpSolver : Type := mkSolver {
  status : CpSolverStatus;
  Value : BoolVar -> bool;
  ObjectiveValue : nat;
  NumConflicts : nat;
  NumBranches : nat;
  WallTime : QArith_base.Q
}.

(** The contract of the engine on a model [m]. *)
Record sound (m : CpModel) (r : CpSolver) : Prop := {
  optimal_feasible :
    status r = OPTIMAL -> satisfies (Value r) m = true;
  optimal_maximal :
    status r = OPTIMAL ->
    forall a, satisfies a m = true -> objective_of m a <= ObjectiveValue r;
  optimal_value :
    status r = OPTIMAL -> ObjectiveValue r = objective_of m (Value r);
  feasible_feasible :
    status r = FEASIBLE -> satisfies (Value r) m = true;
  feasible_value :
    status r = FEASIBLE -> ObjectiveValue r = objective_of m (Value r);
  infeasible_none :
    status r = INFEASIBLE -> forall a, satisfies a m = false
}.

(** An engine that runs to completion proves optimality or infeasibility. *)
Definition conclusive (r : CpSolver) : Prop :=
  status r = OPTIMAL \/ status r = INFEASIBLE.

End cp_model.
Import cp_model.

(* ================================================================== *)
(** ** Python dictionaries and the part of [pandas] that the code uses *)

(** A [dict] with natural keys: an association list in insertion order. *)
Definition dict (V : Type) : Type := list (nat * V).

Fixpoint dict_get {V : Type} (k : nat) (d : dict V) : option V :=
  match d with
  | [] => None
  | (k', v) :: d' => if k =? k' then Some v else dict_get k d'
  end.

(** [d[k] = v]: overwrite in place, or append a new key. *)
Fixpoint dict_set {V : Type} (k : nat) (v : V) (d : dict V) : dict V :=
  match d with
  | [] => [(k, v)]
  | (k', v') :: d' =>
      if k =? k' then (k, v) :: d' else (k', v') :: dict_set k v d'
  end.

Definition keys {V : Type} (d : dict V) : list nat := map fst d.

(** [df[d][s] = v]: the inner dictionary is reached through the outer one
    and updated in place; a missing [d] is a [KeyError]. *)
Definition dict_set2 {V : Type} (d s : nat) (v : V) (df : dict (dict V))
  : Py (dict (dict V)) :=
  match dict_get d df with
  | Some row => Return (dict_set d (dict_set s v row) df)
  | None => Raise KeyError
  end.

Module pd.

Inductive Label : Type :=
| LInt (n : nat)
| LStr (s : string).

Inductive Cell : Type :=
| NaN
| Int (n : nat)
| Str (s : string).

(** A frame: column labels, row labels, and one list of cells per row. *)
Record DataFrame : Type := mkFrame {
  columns : list Label;
  index : list nat;
  rows : list (list Cell)
}.

Definition mem (k : nat) (l : list nat) : bool := existsb (Nat.eqb k) l.

(** The distinct elements of [l], in order of first occurrence. *)
Definition distinct (l : list nat) : list nat :=
  fold_left (fun acc k => if mem k acc then acc else acc ++ [k]) l [].

(** [pd.DataFrame(df)] for a dictionary of dictionaries: one column per
    outer key, one row per inner key, [NaN] where a column has no entry. *)
Definition DataFrame_of (df : dict (dict string)) : DataFrame :=
  let idx := distinct (flat_map (fun c => keys (snd c)) df) in
  mkFrame (map (fun c => LInt (fst c)) df) idx
    (map (fun i => map (fun c => match dict_get i (snd c) with
                                 | Some v => Str v
                                 | None => NaN
                                 end) df) idx).

(** [.sort_index()]: the rows in ascending order of their labels.  The
    labels of a frame built by [DataFrame_of] are distinct naturals, so
    the sorted index lists the labels present among [0 .. max]. *)
Definition sort_index (t : DataFrame) : DataFrame :=
  let sorted := filter (fun i => mem i (index t)) (seq 0 (S (list_max (index t)))) in
  let labelled := combine (index t) (rows t) in
  mkFrame (columns t) sorted
    (map (fun i => match dict_get i labelled with
                   | Some r => r
                   | None => []
                   end) sorted).

(** [.reset_index()]: the old index becomes the first column, named
    ["index"]; the rows are renumbered from 0. *)
Definition reset_index (t : DataFrame) : DataFrame :=
  mkFrame (LStr "index" :: columns t) (seq 0 (List.length (index t)))
    (map (fun ir => Int (fst ir) :: snd ir) (combine (index t) (rows t))).

(** [.rename(columns=mapping)] *)
Definition rename (mapping : Label -> Label) (t : DataFrame) : DataFrame :=
  mkFrame (map mapping (columns t)) (index t) (rows t).

Definition Label_eqb (x y : Label) : bool :=
  match x, y with
  | LInt n, LInt m => n =? m
  | LStr s, LStr u => String.eqb s u
  | _, _ => false
  end.

(** [t[c] = t[c] + 1] on a column of integers. *)
Definition incr_column (c : Label) (t : DataFrame) : DataFrame :=
  mkFrame (columns t) (index t)
    (map (fun r =>
            map (fun lc => if Label_eqb (fst lc) c
                           then match snd lc with Int n => Int (n + 1) | x => x end
                           else snd lc)
                (combine (columns t) r)) (rows t)).

(** [t.at[i, c]]: the cell of the [i]-th row in column [c]. *)
Definition cell_at (t : DataFrame) (i : nat) (c : Label) : option Cell :=
  match nth_error (rows t) i with
  | Some r =>
      match find (fun lc => Label_eqb (fst lc) c) (combine (columns t) r) with
      | Some lc => Some (snd lc)
      | None => None
      end
  | None => None
  end.

End pd.

(* ================================================================== *)
(** ** [run_schedule] *)

(** One constructor per [print] call of [run_schedule]. *)
Inductive Line : Type :=
| Solution                                   (* Solution: *)
| Day (d : nat)                              (* Day d *)
| Works (n s : nat) (requested : bool)       (* worker n works shift s (requested). / (not requested). *)
| Blank
| RequestsMet (met out_of : nat)             (* Number of shift requests met = .. (out of ..) *)
| NoOptimal                                  (* No optimal solution found ! *)
| Statistics
| Conflicts (k : nat)
| Branches (k : nat)
| Wall (t : QArith_base.Q).

Record Output : Type := mkOutput {
  stdout : list Line;
  returned : pd.DataFrame
}.

Definition num_days : nat := 7.
Definition all_days : list nat := range num_days.

(** [shifts[(n, d, s)]] *)
Definition shifts (n d s : nat) : BoolVar := shift_ n d s.

(** [shift_requests[n][d][s]] *)
Definition request (shift_requests : list (list (list bool))) (n d s : nat) : Py bool :=
  by_worker <- getitem shift_requests n ;;
  by_day <- getitem by_worker d ;;
  getitem by_day s.

Section Model.

Variables num_workers num_shifts : nat.

Let all_workers : list nat := range num_workers.
Let all_shifts : list nat := range num_shifts.

(** Lines 73-76: the shift variables. *)
Definition create_variables : CpModel -> CpModel :=
  for_ all_workers (fun n =>
    for_ all_days (fun d =>
      for_ all_shifts (fun s => NewBoolVar (shift_ n d s)))).

(** Lines 79-81: each shift is assigned to exactly one worker. *)
Definition add_coverage : CpModel -> CpModel :=
  for_ all_days (fun d =>
    for_ all_shifts (fun s =>
      AddExactlyOne (map (fun n => shifts n d s) all_workers))).

(** Lines 84-86: each worker works at most one shift per day. *)
Definition add_exclusivity : CpModel -> CpModel :=
  for_ all_workers (fun n =>
    for_ all_days (fun d =>
      AddAtMostOne (map (fun s => shifts n d s) all_shifts))).

(** Lines 92-96: the fairness bounds. *)
Definition min_shifts_per_worker : Py nat :=
  floordiv (num_shifts * num_days) num_workers.

Definition max_shifts_per_worker : Py nat :=
  lo <- min_shifts_per_worker ;;
  r <- pymod (num_shifts * num_days) num_workers ;;
  Return (if r =? 0 then lo else lo + 1).

(** Lines 98-101: the number of shifts worked by [n], as an expression. *)
Definition num_shifts_worked (n : nat) : LinearExpr :=
  for_ all_days (fun d =>
    for_ all_shifts (fun s e => add_var e (shifts n d s))) (const 0).

(** Lines 97-103 *)
Definition add_fairness (lo hi : nat) : CpModel -> CpModel :=
  for_ all_workers (fun n m =>
    let worked := num_shifts_worked n in
    Add (UpperBound worked hi) (Add (LowerBound lo worked) m)).

(** Lines 106-113: the sum of [shift_requests[n][d][s] * shifts[(n, d, s)]]. *)
Definition requests_expr (shift_requests : list (list (list bool))) : Py LinearExpr :=
  forM all_workers (fun n =>
    forM all_days (fun d =>
      forM all_shifts (fun s e =>
        r <- request shift_requests n d s ;;
        Return (add_term e (int_of_bool r) (shifts n d s))))) (const 0).

(** Lines 68-113: the model handed to the solver. *)
Definition build_model (shift_requests : list (list (list bool))) : Py CpModel :=
  let model := new_model in
  let model := create_variables model in
  let model := add_coverage model in
  let model := add_exclusivity model in
  lo <- min_shifts_per_worker ;;
  hi <- max_shifts_per_worker ;;
  let model := add_fairness lo hi model in
  e <- requests_expr shift_requests ;;
  Return (Maximize e model).

(** Lines 121-133: the body of the loop over days. *)
Definition extract_day (solver : CpSolver) (shift_requests : list (list (list bool)))
    (d : nat) (st : dict (dict string) * list Line)
  : Py (dict (dict string) * list Line) :=
  let df := dict_set d [] (fst st) in
  let out := snd st ++ [Day d] in
  st' <- forM all_workers (fun n =>
           forM all_shifts (fun s st =>
             if Value solver (shifts n d s) then
               r <- request shift_requests n d s ;;
               df' <- dict_set2 d s ("Worker " ++ str (n + 1))%string (fst st) ;;
               Return (df', snd st ++ [Works n s r])
             else Return st)) (df, out) ;;
  Return (fst st', snd st' ++ [Blank]).

(** Lines 118-139: the table as a dictionary, and what is printed. *)
Definition extract (solver : CpSolver) (shift_requests : list (list (list bool)))
    (lo : nat) : Py (dict (dict string) * list Line) :=
  if status_eqb (status solver) OPTIMAL then
    st <- forM all_days (extract_day solver shift_requests) ([], [Solution]) ;;
    Return (fst st, snd st ++ [RequestsMet (ObjectiveValue solver) (num_workers * lo)])
  else
    Return ([], [NoOptimal]).

End Model.

(** Lines 148-149: the renaming of the columns. *)
Definition column_name (c : pd.Label) : pd.Label :=
  match c with
  | pd.LInt 0 => pd.LStr "Mon"
  | pd.LInt 1 => pd.LStr "Tue"
  | pd.LInt 2 => pd.LStr "Wed"
  | pd.LInt 3 => pd.LStr "Thu"
  | pd.LInt 4 => pd.LStr "Fri"
  | pd.LInt 5 => pd.LStr "Sat"
  | pd.LInt 6 => pd.LStr "Sun"
  | pd.LStr "index" => pd.LStr "Shift"
  | other => other
  end.

(** Lines 147-150 *)
Definition to_frame (df : dict (dict string)) : pd.DataFrame :=
  let xxx := pd.DataFrame_of df in
  let xxx := pd.rename column_name (pd.reset_index (pd.sort_index xxx)) in
  pd.incr_column (pd.LStr "Shift") xxx.

(** Lines 142-145: the diagnostics, printed after every solve. *)
Definition statistics (solver : CpSolver) : list Line :=
  [Statistics; Conflicts (NumConflicts solver); Branches (NumBranches solver);
   Wall (WallTime solver)].

(** Lines 51-150.  [Solve] is [cp_model.CpSolver().Solve]. *)
Definition run_schedule (Solve : CpModel -> CpSolver)
    (total_workers num_shifts : nat) (shift_requests : list (list (list bool)))
  : Py Output :=
  let num_workers := total_workers in
  model <- build_model num_workers num_shifts shift_requests ;;
  lo <- min_shifts_per_worker num_workers num_shifts ;;
  let solver := Solve model in
  st <- extract num_workers num_shifts solver shift_requests lo ;;
  let out := snd st ++ statistics solver in
  Return (mkOutput out (to_frame (fst st))).

(* ================================================================== *)
(** ** A reference engine: exhaustive search *)

Module reference.

(** All sub-lists of [l]: the candidate sets of variables set to 1. *)
Fixpoint subsets {A : Type} (l : list A) : list (list A) :=
  match l with
  | [] => [[]]
  | x :: l' => let r := subsets l' in r ++ map (cons x) r
  end.

Definition assignment_of (trues : list BoolVar) : Assignment :=
  fun x => existsb (BoolVar_eqb x) trues.

Definition declared (m : CpModel) (x : BoolVar) : bool :=
  existsb (BoolVar_eqb x) (variables m).

Definition vars_of_expr (e : LinearExpr) : list BoolVar := map snd (terms e).

Definition vars_of (c : Constraint) : list BoolVar :=
  match c with
  | ExactlyOne l | AtMostOne l => l
  | LowerBound _ e | UpperBound e _ => vars_of_expr e
  end.

(** Every variable used by the model was created in it. *)
Definition closed (m : CpModel) : bool :=
  forallb (fun c => forallb (declared m) (vars_of c)) (constraints m)
  && match objective m with
     | Some e => forallb (declared m) (vars_of_expr e)
     | None => true
     end.

(** The best of a list of candidates, the first one on ties. *)
Fixpoint best (m : CpModel) (cur : list BoolVar) (l : list (list BoolVar)) : list BoolVar :=
  match l with
  | [] => cur
  | t :: l' =>
      if objective_of m (assignment_of cur) <? objective_of m (assignment_of t)
      then best m t l' else best m cur l'
  end.

Definition brute_force_solve (m : CpModel) : CpSolver :=
  let candidates := subsets (variables m) in
  let answer st a :=
    mkSolver st a (objective_of m a) 0 (List.length candidates) (QArith_base.Qmake BinNums.Z0 BinNums.xH) in
  if closed m then
    match filter (fun t => satisfies (assignment_of t) m) candidates with
    | [] => answer INFEASIBLE (fun _ => false)
    | t :: l => answer OPTIMAL (assignment_of (best m t l))
    end
  else answer MODEL_INVALID (fun _ => false).

End reference.

(* ================================================================== *)
(** ** The model in closed form *)

Section ClosedFormDefs.

Variables N S : nat.

Definition coverage_constraints : list Constraint :=
  flat_map (fun d =>
    flat_map (fun s => [ExactlyOne (map (fun n => shift_ n d s) (range N))])
             (range S)) all_days.

Definition exclusivity_constraints : list Constraint :=
  flat_map (fun n =>
    flat_map (fun d => [AtMostOne (map (fun s => shift_ n d s) (range S))])
             all_days) (range N).

Definition worked_terms (n : nat) : list (nat * BoolVar) :=
  flat_map (fun d => flat_map (fun s => [(1, shift_ n d s)]) (range S)) all_days.

Definition fairness_constraints (lo hi : nat) : list Constraint :=
  flat_map (fun n => [LowerBound lo (mkExpr 0 (worked_terms n));
                      UpperBound (mkExpr 0 (worked_terms n)) hi]) (range N).

Definition all_variables : list BoolVar :=
  flat_map (fun n => flat_map (fun d => flat_map (fun s => [shift_ n d s]) (range S))
                              all_days) (range N).

End ClosedFormDefs.

(* ================================================================== *)
(** ** Rosters and requests, in the specification's words *)

Section Roster.

Variables N S : nat.
Variable a : Assignment.

(** The workers assigned to shift [s] of day [d]. *)
Definition workers_on (d s : nat) : list nat :=
  filter (fun n => a (shift_ n d s)) (range N).

(** The shifts that worker [n] works on day [d]. *)
Definition shifts_on (n d : nat) : list nat :=
  filter (fun s => a (shift_ n d s)) (range S).

(** The [(day, shift)] slots of the week. *)
Definition slots : list (nat * nat) := list_prod all_days (range S).

(** The number of shifts assigned to worker [n] across the week. *)
Definition weekly_total (n : nat) : nat :=
  List.length (filter (fun ds => a (shift_ n (fst ds) (snd ds))) slots).

Definition coverage : Prop :=
  forall d s, d < num_days -> s < S -> List.length (workers_on d s) = 1.

Definition exclusivity : Prop :=
  forall n d, n < N -> d < num_days -> List.length (shifts_on n d) <= 1.

Definition fairness (lo hi : nat) : Prop :=
  forall n, n < N -> lo <= weekly_total n <= hi.

Definition feasible (lo hi : nat) : Prop :=
  coverage /\ exclusivity /\ fairness lo hi.

End Roster.

(** The fairness bounds of the specification (4.2). *)
Definition totalSlots (numShiftsPerDay : nat) : nat := numShiftsPerDay * 7.

Definition minShiftsPerWorker (numWorkers numShiftsPerDay : nat) : nat :=
  totalSlots numShiftsPerDay / numWorkers.

Definition maxShiftsPerWorker (numWorkers numShiftsPerDay : nat) : nat :=
  if totalSlots numShiftsPerDay mod numWorkers =? 0
  then minShiftsPerWorker numWorkers numShiftsPerDay
  else minShiftsPerWorker numWorkers numShiftsPerDay + 1.

(** A preference matrix of shape [numWorkers x 7 x numShiftsPerDay]. *)
Definition shaped (N S : nat) (prefs : list (list (list bool))) : bool :=
  (List.length prefs =? N)
  && forallb (fun by_day =>
                (List.length by_day =? num_days)
                && forallb (fun by_shift => List.length by_shift =? S) by_day) prefs.

(** The preference cell [(n, d, s)]; a cell outside the matrix is no request. *)
Definition requested (prefs : list (list (list bool))) (n d s : nat) : bool :=
  nth s (nth d (nth n prefs []) []) false.

(** The [(worker, day, shift)] triples. *)
Definition triples (N S : nat) : list (nat * nat * nat) :=
  flat_map (fun n => flat_map (fun d => flat_map (fun s => [(n, d, s)]) (range S))
                              all_days) (range N).

(** The number of assigned triples whose preference cell is true. *)
Definition requests_met (prefs : list (list (list bool))) (N S : nat) (a : Assignment) : nat :=
  List.length (filter (fun t => match t with
                                | (n, d, s) => a (shift_ n d s) && requested prefs n d s
                                end) (triples N S)).

(** The best objective value a model admits. *)
Definition is_optimum (m : CpModel) (v : nat) : Prop :=
  (exists a, satisfies a m = true /\ objective_of m a = v)
  /\ (forall a, satisfies a m = true -> objective_of m a <= v).

(** The list [l] with [f] applied to its [i]-th element. *)
Fixpoint update {A : Type} (i : nat) (f : A -> A) (l : list A) {struct l} : list A :=
  match l, i with
  | [], _ => []
  | x :: l', 0 => f x :: l'
  | x :: l', S i' => x :: update i' f l'
  end.

(** The matrix with the cell [(n, d, s)] turned into a request. *)
Definition add_request (prefs : list (list (list bool))) (n d s : nat)
  : list (list (list bool)) :=
  update n (update d (update s (fun _ => true))) prefs.

(** The terms of the objective: one per triple, with the request as coefficient. *)
Definition request_terms (prefs : list (list (list bool))) (N S : nat)
  : list (nat * BoolVar) :=
  flat_map (fun n => flat_map (fun d => flat_map (fun s =>
    [(int_of_bool (requested prefs n d s), shift_ n d s)]) (range S)) all_days) (range N).

(** The model of a well-shaped input, in closed form. *)
Definition schedule_model (prefs : list (list (list bool))) (N S : nat) : CpModel :=
  mkModel (all_variables N S)
          (coverage_constraints N S ++ exclusivity_constraints N S
           ++ fairness_constraints N S (minShiftsPerWorker N S) (maxShiftsPerWorker N S))
          (Some (mkExpr 0 (request_terms prefs N S))).

(* ================================================================== *)
(** ** The extracted roster, in closed form *)

Section RosterTable.

Variable a : Assignment.
Variables N S : nat.

Definition worker_label (n : nat) : string := ("Worker " ++ str (n + 1))%string.

(** The [(worker, shift)] pairs at work on day [d], in the order of the loops. *)
Definition working (d : nat) : list (nat * nat) :=
  filter (fun ns => a (shift_ (fst ns) d (snd ns))) (list_prod (range N) (range S)).

(** [df[d]] after the loop over the workers and shifts of day [d]. *)
Definition day_row (d : nat) : dict string :=
  for_ (working d) (fun ns => dict_set (snd ns) (worker_label (fst ns))) [].

(** What the loop prints for day [d]. *)
Definition day_lines (prefs : list (list (list bool))) (d : nat) : list Line :=
  Day d :: map (fun ns => Works (fst ns) (snd ns) (requested prefs (fst ns) d (snd ns)))
               (working d) ++ [Blank].

Definition roster_dict : dict (dict string) :=
  map (fun d => (d, day_row d)) all_days.

(** The cell of a slot that exactly one worker covers. *)
Definition roster_cell (d s : nat) : pd.Cell :=
  match workers_on N a d s with
  | [n] => pd.Str (worker_label n)
  | _ => pd.NaN
  end.

Definition daily : list string := ["Mon"; "Tue"; "Wed"; "Thu"; "Fri"; "Sat"; "Sun"].

(** The table of a roster that covers every slot: one row per shift,
    numbered from 1, one column per day. *)
Definition roster_frame : pd.DataFrame :=
  pd.mkFrame (pd.LStr "Shift" :: map pd.LStr daily) (range S)
    (map (fun s => pd.Int (s + 1) :: map (fun d => roster_cell d s) all_days) (range S)).

End RosterTable.

(** The table returned when no optimal solution was found. *)
Definition empty_frame : pd.DataFrame := pd.mkFrame [pd.LStr "Shift"] [] [].

(** The name of the column of day [d]. *)
Definition day_label (d : nat) : pd.Label := pd.LStr (nth d daily "").

(** A roster that deals the slots of the week to the workers in turn:
    slot number [d * S + s] goes to worker [(d * S + s) mod N]. *)
Definition round_robin (N S : nat) : Assignment :=
  fun x => match x with
           | shift_ n d s => (d * S + s) mod N =? n
           end.

(* ================================================================== *)
(** ** Sample inputs *)

(** A matrix with no request at all. *)
Definition no_requests (N S : nat) : list (list (list bool)) :=
  repeat (repeat (repeat false S) num_days) N.

(** Two workers, one shift per day: the first asks for Monday, Wednesday
    and Sunday, the second for Monday and Tuesday. *)
Definition two_workers : list (list (list bool)) :=
  [ [[true]; [false]; [true]; [false]; [false]; [false]; [true]];
    [[true]; [true]; [false]; [false]; [false]; [false]; [false]] ].

Definition two_workers_model : CpModel := schedule_model two_workers 2 1.

(** Answers of an engine, with no diagnostics to speak of. *)
Definition answer (st : CpSolverStatus) (a : Assignment) (objective_value : nat) : CpSolver :=
  mkSolver st a objective_value 0 0 (QArith_base.Qmake BinNums.Z0 BinNums.xH).

(** A roster found without a proof that it is the best. *)
Definition feasible_answer : CpSolver := answer FEASIBLE (fun _ => true) 0.

Definition infeasible_answer : CpSolver := answer INFEASIBLE (fun _ => false) 0.

Definition unknown_answer : CpSolver := answer UNKNOWN (fun _ => false) 0.

(** A roster for two workers and one shift per day: the second worker
    takes Monday, Wednesday, Friday and Sunday, the first the other days. *)
Definition alternate_days : Assignment :=
  fun x => match x with
           | shift_ n d s => if Nat.even d then n =? 1 else n =? 0
           end.

(** An engine that stops at [alternate_days], which fulfils one request
    of [two_workers], without looking further. *)
Definition hasty_answer : CpSolver := answer FEASIBLE alternate_days 1.

(** A roster for the same input that fulfils four requests: the second
    worker takes Monday, Tuesday and Thursday, the first the other days. *)
Definition requested_days : Assignment :=
  fun x => match x with
           | shift_ n d s => if (d <? 2) || (d =? 3) then n =? 1 else n =? 0
           end.

(** An engine that stops at the roster dealt in turn. *)
Definition round_robin_answer (N S : nat) : CpSolver :=
  answer FEASIBLE (round_robin N S) 0.

(** Seven workers, one shift per day; worker [n] asks for day [n] only. *)
Definition distinct_days : list (list (list bool)) :=
  map (fun n => map (fun d => [n =? d]) (range num_days)) (range 7).

(** The roster that gives every worker of [distinct_days] the day asked for. *)
Definition own_day : Assignment :=
  fun x => match x with
           | shift_ n d s => n =? d
           end.

(** A computation that returns, or else raises [e] and nothing else. *)
Definition only_raises {A : Type} (e : Exception) (c : Py A) : Prop :=
  c = Raise e \/ exists v, c = Return v.

(* ================================================================== *)
(** ** Measures of an input and of an output *)

(** The number of requests in the matrix. *)
Definition number_of_requests (prefs : list (list (list bool))) (N S : nat) : nat :=
  List.length (filter (fun t => match t with
                                | (n, d, s) => requested prefs n d s
                                end) (triples N S)).

(** The number of assignments of a roster. *)
Definition number_assigned (N S : nat) (a : Assignment) : nat :=
  List.length (filter (fun t => match t with
                                | (n, d, s) => a (shift_ n d s)
                                end) (triples N S)).

(** A printed line that reports an assignment, and one that reports a
    requested assignment. *)
Definition is_works (l : Line) : bool :=
  match l with
  | Works _ _ _ => true
  | _ => false
  end.

Definition is_requested (l : Line) : bool :=
  match l with
  | Works _ _ r => r
  | _ => false
  end.

(** A matrix in which everybody asks for everything. *)
Definition every_request (N S : nat) : list (list (list bool)) :=
  repeat (repeat (repeat true S) num_days) N.

(** The requests of [two_workers] inside a larger, ragged matrix. *)
Definition two_workers_padded : list (list (list bool)) :=
  [ [[true; true]; [false; true]; [true; true]; [false; true]; [false; true];
     [false; true]; [true; true]; [true]];
    [[true; false]; [true; false]; [false]; [false]; [false]; [false]; [false]];
    [[true]] ].

(* ================================================================== *)
(** ** [main]: the page that collects the requests *)

(** The part of [streamlit] that [main] uses.  A [Session] holds what the
    user has done: the numbers entered (by label), the checkboxes ticked
    (by key) and the buttons clicked (by label).  The page is the sequence
    of elements that the calls put on it. *)
Module st.

Record Session : Type := mkSession {
  entered : string -> nat;
  ticked : string -> bool;
  clicked : string -> bool
}.

Inductive Element : Type :=
| Title (text : string)
| Markdown (text : string)
| NumberInput (label : string) (min_value value : nat)   (* in the sidebar *)
| Expander (label : string)
| Columns (n : nat)
| Column (i : nat)                                       (* [with shift_columns[i]] *)
| Write (text : string)
| Checkbox (label key : string)
| Button (label : string)
| WriteFrame (df : pd.DataFrame).

(** [number_input(label, min_value=.., value=..)] returns the number in
    the box.  The box starts with [value] and takes no number below
    [min_value]: after such an entry it still holds [value]. *)
Definition number_input (s : Session) (label : string) (min_value value : nat) : nat :=
  if min_value <=? entered s label then entered s label else value.

(** [write(df, index=False)].  The releases of the library differ on a
    keyword that [write] does not know, and the repository pins none.
    Where [write] takes arbitrary keyword arguments, the keyword is
    ignored and the table is shown; where [unsafe_allow_html] is the only
    keyword of its signature, the call is a [TypeError] and nothing is
    shown. *)
Inductive Release : Type :=
| write_ignores_keywords
| write_rejects_keywords.

Definition write (release : Release) (df : pd.DataFrame) (keywords : list string)
  : Py (list Element) :=
  match keywords, release with
  | _ :: _, write_rejects_keywords => Raise TypeError
  | _, _ => Return [WriteFrame df]
  end.

End st.

(** What a run of [main] leaves: the page, and what [run_schedule] printed. *)
Record Run : Type := mkRun {
  page : list st.Element;
  console : list Line
}.

(** Lines 7-23: the text under the title. *)
Definition introduction : string :=
"
    This app helps in scheduling shifts for employees across different days of the week. The objective
    is to efficiently allocate shifts to workers while meeting constraints and maximizing specific criteria.

    **Maximize:**
    - Optimal utilization of available workforce.
    - Fair distribution of shifts among employees.
    - Adjust the result using shift request

    **Constraints:**
    - Each employee can only work a certain maximum number of shifts per week and day.
    - No double shift per day.
    - One shift one worker

    ### Shift Requests
                
    ".

(** Line 28: a matrix of zeros, each list built afresh.  The zeros are
    the cells [false]: [0 * x] is [0] and [0 == 1] is false. *)
Definition blank_requests (total_workers num_shifts : nat) : list (list (list bool)) :=
  map (fun _ => map (fun _ => repeat false num_shifts) (range 7)) (range total_workers).

(** [shift_requests[i][day][k] = v] *)
Definition setitem3 (shift_requests : list (list (list bool))) (i day k : nat) (v : bool)
  : Py (list (list (list bool))) :=
  by_day <- getitem shift_requests i ;;
  by_shift <- getitem by_day day ;;
  if k <? List.length by_shift
  then Return (update i (update day (update k (fun _ => v))) shift_requests)
  else Raise IndexError.

(** The key of the checkbox of worker [i], day [day] and shift [shift]:
    [f'{i+1}_{day}_{shift}']. *)
Definition checkbox_key (i day shift : nat) : string :=
  (str (i + 1) ++ "_" ++ str day ++ "_" ++ str shift)%string.

(** Lines 38-39: the checkboxes of one day of one worker. *)
Definition render_day (s : st.Session) (num_shifts i day : nat)
    (state : list (list (list bool)) * list st.Element)
  : Py (list (list (list bool)) * list st.Element) :=
  forM (seq 1 num_shifts) (fun shift state =>
    let v := st.ticked s (checkbox_key i day shift) in
    let page := snd state ++ [st.Checkbox ("Shift " ++ str shift)%string
                                          (checkbox_key i day shift)] in
    shift_requests <- setitem3 (fst state) i day (shift - 1) v ;;
    Return (shift_requests, page)) state.

(** Lines 33-39: the expander of one worker. *)
Definition render_worker (s : st.Session) (num_shifts i : nat)
    (state : list (list (list bool)) * list st.Element)
  : Py (list (list (list bool)) * list st.Element) :=
  let page := snd state ++ [st.Expander ("Worker " ++ str (i + 1))%string; st.Columns 7] in
  forM (range 7) (fun day state =>
    _ <- getitem (range 7) day ;;
    name <- getitem daily day ;;
    let page := snd state ++ [st.Column day; st.Write name] in
    render_day s num_shifts i day (fst state, page)) (fst state, page).

(** Lines 5-45.  [Solve] is the engine that [run_schedule] calls and
    [release] the release of the library that shows the page. *)
Definition main (release : st.Release) (Solve : CpModel -> CpSolver) (s : st.Session)
  : Py Run :=
  let page := [st.Title "Employee Shift Scheduling App"; st.Markdown introduction] in
  let total_workers := st.number_input s "Total Workers" 1 1 in
  let page := page ++ [st.NumberInput "Total Workers" 1 1] in
  let num_shifts := st.number_input s "Number of Shifts" 1 1 in
  let page := page ++ [st.NumberInput "Number of Shifts" 1 1] in
  let shift_requests := blank_requests total_workers num_shifts in
  state <- forM (range total_workers) (render_worker s num_shifts) (shift_requests, page) ;;
  let shift_requests := fst state in
  let page := snd state ++ [st.Button "Run Module"] in
  if st.clicked s "Run Module" then
    df <- run_schedule Solve total_workers num_shifts shift_requests ;;
    let page := page ++ [st.Write "Module executed successfully!"] in
    table <- st.write release (returned df) ["index"] ;;
    Return (mkRun (page ++ table) (stdout df))
  else Return (mkRun page []).

(** The numbers that the two boxes of the sidebar deliver. *)
Definition workers_entered (s : st.Session) : nat :=
  st.number_input s "Total Workers" 1 1.

Definition shifts_entered (s : st.Session) : nat :=
  st.number_input s "Number of Shifts" 1 1.

(** Strings made of decimal digits, as [str] prints them. *)
Definition is_digit (c : Ascii.ascii) : bool :=
  let k := Ascii.nat_of_ascii c in (48 <=? k) && (k <=? 57).

Fixpoint all_digits (s : string) : bool :=
  match s with
  | EmptyString => true
  | String c s' => is_digit c && all_digits s'
  end.

(** Lines 32-39 in closed form: the write of one checkbox into the
    matrix, the elements that the loops put on the page, and the matrix
    with every cell read from its checkbox. *)
Definition tick_cell (s : st.Session) (i day shift : nat)
    (shift_requests : list (list (list bool))) : list (list (list bool)) :=
  update i (update day (update (shift - 1)
                               (fun _ => st.ticked s (checkbox_key i day shift))))
         shift_requests.

Definition checkbox_element (i day shift : nat) : st.Element :=
  st.Checkbox ("Shift " ++ str shift)%string (checkbox_key i day shift).

Definition day_elements (num_shifts i day : nat) : list st.Element :=
  [st.Column day; st.Write (nth day daily "")]
  ++ map (checkbox_element i day) (seq 1 num_shifts).

Definition worker_elements (num_shifts i : nat) : list st.Element :=
  [st.Expander ("Worker " ++ str (i + 1))%string; st.Columns 7]
  ++ flat_map (day_elements num_shifts i) (range 7).

Definition page_elements (total_workers num_shifts : nat) : list st.Element :=
  [st.Title "Employee Shift Scheduling App"; st.Markdown introduction;
   st.NumberInput "Total Workers" 1 1; st.NumberInput "Number of Shifts" 1 1]
  ++ flat_map (worker_elements num_shifts) (range total_workers)
  ++ [st.Button "Run Module"].

Definition ticked_requests (s : st.Session) (total_workers num_shifts : nat)
  : list (list (list bool)) :=
  map (fun i => map (fun day => map (fun k => st.ticked s (checkbox_key i day (k + 1)))
                                    (range num_shifts)) (range 7)) (range total_workers).

Definition is_checkbox (e : st.Element) : bool :=
  match e with
  | st.Checkbox _ _ => true
  | _ => false
  end.

(** The keys of the checkboxes of a page, in order. *)
Definition checkbox_keys (elements : list st.Element) : list string :=
  flat_map (fun e => match e with
                     | st.Checkbox _ key => [key]
                     | _ => []
                     end) elements.

(** The number of assigned shifts whose checkbox is ticked. *)
Definition ticked_and_assigned (s : st.Session) (N S : nat) (a : Assignment) : nat :=
  List.length (filter (fun t => match t with
                                | (i, day, k) =>
                                    a (shift_ i day k)
                                    && st.ticked s (checkbox_key i day (k + 1))
                                end) (triples N S)).

(** A session: two workers, one shift per day; the first worker ticks
    Monday, the second Thursday; the button is clicked. *)
Definition sample_session : st.Session :=
  st.mkSession (fun label => if String.eqb label "Total Workers" then 2 else 1)
               (fun key => String.eqb key "1_0_1" || String.eqb key "2_3_1")
               (fun _ => true).

(* ================================================================== *)
(** * Properties *)

Unset Implicit Arguments.

(* ================================================================== *)
(** ** Loops *)

Section Loops.

Context {A S : Type}.

Lemma for_app (l1 l2 : list A) (body : A -> S -> S) (s : S) :
  for_ (l1 ++ l2) body s = for_ l2 body (for_ l1 body s).
Proof. unfold for_. apply fold_left_app. Qed.

(** A loop whose body only appends to a component appends the
    concatenation of what each iteration appends. *)
Lemma for_appends {B : Type} (proj : S -> list B) (g : A -> list B)
      (body : A -> S -> S) (l : list A) :
  (forall x s, proj (body x s) = proj s ++ g x) ->
  forall s, proj (for_ l body s) = proj s ++ flat_map g l.
Proof.
  intros Hbody. induction l as [|x l IH]; intros s; simpl.
  - now rewrite app_nil_r.
  - unfold for_ in *. simpl. rewrite IH, Hbody. now rewrite app_assoc.
Qed.

(** A loop whose body leaves a component alone leaves it alone. *)
Lemma for_preserves {B : Type} (proj : S -> B) (body : A -> S -> S) (l : list A) :
  (forall x s, proj (body x s) = proj s) ->
  forall s, proj (for_ l body s) = proj s.
Proof.
  intros Hbody. induction l as [|x l IH]; intros s; simpl; [reflexivity|].
  unfold for_ in *. simpl. now rewrite IH, Hbody.
Qed.

(** A loop whose body never raises is a pure loop. *)
Lemma forM_pure (body : A -> S -> Py S) (f : A -> S -> S) (l : list A) :
  (forall x s, In x l -> body x s = Return (f x s)) ->
  forall s, forM l body s = Return (for_ l f s).
Proof.
  induction l as [|x l IH]; intros Hbody s; simpl; [reflexivity|].
  rewrite Hbody by now left. simpl.
  rewrite IH by (intros; apply Hbody; now right). reflexivity.
Qed.

End Loops.

Lemma in_range (i n : nat) : In i (range n) <-> i < n.
Proof. unfold range. rewrite in_seq. lia. Qed.

(* ================================================================== *)
(** ** The model built by the loops, in closed form *)

Section ClosedForm.

Variables N S : nat.

Lemma create_variables_spec (m : CpModel) :
  create_variables N S m
  = mkModel (variables m ++ all_variables N S) (constraints m) (objective m).
Proof.
  unfold create_variables.
  assert (Hv : variables (for_ (range N) (fun n => for_ all_days (fun d =>
                 for_ (range S) (fun s => NewBoolVar (shift_ n d s)))) m)
               = variables m ++ all_variables N S).
  { apply (for_appends variables). intros n m1.
    apply (for_appends variables). intros d m2.
    apply (for_appends variables). reflexivity. }
  assert (Hc : constraints (for_ (range N) (fun n => for_ all_days (fun d =>
                 for_ (range S) (fun s => NewBoolVar (shift_ n d s)))) m)
               = constraints m).
  { repeat (apply (for_preserves constraints); intros). reflexivity. }
  assert (Ho : objective (for_ (range N) (fun n => for_ all_days (fun d =>
                 for_ (range S) (fun s => NewBoolVar (shift_ n d s)))) m)
               = objective m).
  { repeat (apply (for_preserves objective); intros). reflexivity. }
  destruct (for_ _ _ m) as [v c o]. simpl in *. now subst.
Qed.

Lemma add_coverage_spec (m : CpModel) :
  add_coverage N S m
  = mkModel (variables m) (constraints m ++ coverage_constraints N S) (objective m).
Proof.
  unfold add_coverage.
  set (loop := for_ all_days _ m).
  assert (Hc : constraints loop = constraints m ++ coverage_constraints N S).
  { apply (for_appends constraints). intros d m1.
    apply (for_appends constraints). reflexivity. }
  assert (Hv : variables loop = variables m).
  { repeat (apply (for_preserves variables); intros). reflexivity. }
  assert (Ho : objective loop = objective m).
  { repeat (apply (for_preserves objective); intros). reflexivity. }
  destruct loop as [v c o]. simpl in *. now subst.
Qed.

Lemma add_exclusivity_spec (m : CpModel) :
  add_exclusivity N S m
  = mkModel (variables m) (constraints m ++ exclusivity_constraints N S) (objective m).
Proof.
  unfold add_exclusivity.
  set (loop := for_ (range N) _ m).
  assert (Hc : constraints loop = constraints m ++ exclusivity_constraints N S).
  { apply (for_appends constraints). intros d m1.
    apply (for_appends constraints). reflexivity. }
  assert (Hv : variables loop = variables m).
  { repeat (apply (for_preserves variables); intros). reflexivity. }
  assert (Ho : objective loop = objective m).
  { repeat (apply (for_preserves objective); intros). reflexivity. }
  destruct loop as [v c o]. simpl in *. now subst.
Qed.

Lemma num_shifts_worked_spec (n : nat) :
  num_shifts_worked S n = mkExpr 0 (worked_terms S n).
Proof.
  unfold num_shifts_worked.
  set (loop := for_ all_days _ (const 0)).
  assert (Ht : terms loop = terms (const 0) ++ worked_terms S n).
  { apply (for_appends terms). intros d e.
    apply (for_appends terms). reflexivity. }
  assert (Ho : offset loop = offset (const 0)).
  { repeat (apply (for_preserves offset); intros). reflexivity. }
  destruct loop as [o t]. simpl in *. now subst.
Qed.

Lemma add_fairness_spec (lo hi : nat) (m : CpModel) :
  add_fairness N S lo hi m
  = mkModel (variables m) (constraints m ++ fairness_constraints N S lo hi) (objective m).
Proof.
  unfold add_fairness.
  set (loop := for_ (range N) _ m).
  assert (Hc : constraints loop = constraints m ++ fairness_constraints N S lo hi).
  { apply (for_appends constraints). intros n m1. simpl.
    rewrite num_shifts_worked_spec. now rewrite <- app_assoc. }
  assert (Hv : variables loop = variables m).
  { repeat (apply (for_preserves variables); intros). reflexivity. }
  assert (Ho : objective loop = objective m).
  { repeat (apply (for_preserves objective); intros). reflexivity. }
  destruct loop as [v c o]. simpl in *. now subst.
Qed.

End ClosedForm.

(* ================================================================== *)
(** ** Counting *)

Lemma list_sum_indicator {A : Type} (p : A -> bool) (l : list A) :
  list_sum (map (fun x => int_of_bool (p x)) l) = List.length (filter p l).
Proof.
  induction l as [|x l IH]; simpl; [reflexivity|].
  rewrite IH. now destruct (p x).
Qed.

Lemma count_true_map {A : Type} (a : Assignment) (f : A -> BoolVar) (l : list A) :
  count_true a (map f l) = List.length (filter (fun x => a (f x)) l).
Proof.
  unfold count_true. rewrite map_map. apply list_sum_indicator.
Qed.

Lemma flat_map_single {A B : Type} (g : A -> B) (l : list A) :
  flat_map (fun x => [g x]) l = map g l.
Proof. induction l; simpl; congruence. Qed.

(** Two nested loops enumerate the product of their ranges. *)
Lemma flat_map_pairs {A B C : Type} (g : A -> B -> C) (l1 : list A) (l2 : list B) :
  flat_map (fun x => flat_map (fun y => [g x y]) l2) l1
  = map (fun xy => g (fst xy) (snd xy)) (list_prod l1 l2).
Proof.
  induction l1 as [|x l1 IH]; simpl; [reflexivity|].
  rewrite IH, map_app, map_map, flat_map_single. reflexivity.
Qed.

Lemma worked_terms_slots (S n : nat) :
  worked_terms S n = map (fun ds => (1, shift_ n (fst ds) (snd ds))) (slots S).
Proof.
  unfold worked_terms, slots.
  apply (flat_map_pairs (fun d s => (1, shift_ n d s))).
Qed.

Lemma eval_worked (a : Assignment) (S n : nat) :
  eval a (mkExpr 0 (worked_terms S n)) = weekly_total S a n.
Proof.
  unfold eval, weekly_total. simpl. rewrite worked_terms_slots, map_map. simpl.
  rewrite <- list_sum_indicator. f_equal. apply map_ext. intros ds. lia.
Qed.

(* ================================================================== *)
(** ** What the constraints of the model mean *)

Section Meaning.

Variables N S : nat.
Variable a : Assignment.

Lemma coverage_constraints_hold :
  forallb (holds a) (coverage_constraints N S) = true <-> coverage N S a.
Proof.
  rewrite forallb_forall. unfold coverage_constraints, coverage. split.
  - intros H d s Hd Hs.
    specialize (H (ExactlyOne (map (fun n => shift_ n d s) (range N)))).
    cbn [holds] in H. rewrite count_true_map in H. apply Nat.eqb_eq. apply H.
    apply in_flat_map. exists d. split; [now apply in_range|].
    apply in_flat_map. exists s. split; [now apply in_range|]. now left.
  - intros H c Hc.
    apply in_flat_map in Hc. destruct Hc as (d & Hd & Hc).
    apply in_flat_map in Hc. destruct Hc as (s & Hs & [<-|[]]).
    cbn [holds]. rewrite count_true_map. apply Nat.eqb_eq.
    apply H; now apply in_range.
Qed.

Lemma exclusivity_constraints_hold :
  forallb (holds a) (exclusivity_constraints N S) = true <-> exclusivity N S a.
Proof.
  rewrite forallb_forall. unfold exclusivity_constraints, exclusivity. split.
  - intros H n d Hn Hd.
    specialize (H (AtMostOne (map (fun s => shift_ n d s) (range S)))).
    cbn [holds] in H. rewrite count_true_map in H. apply Nat.leb_le. apply H.
    apply in_flat_map. exists n. split; [now apply in_range|].
    apply in_flat_map. exists d. split; [now apply in_range|]. now left.
  - intros H c Hc.
    apply in_flat_map in Hc. destruct Hc as (n & Hn & Hc).
    apply in_flat_map in Hc. destruct Hc as (d & Hd & [<-|[]]).
    cbn [holds]. rewrite count_true_map. apply Nat.leb_le.
    apply H; now apply in_range.
Qed.

Lemma fairness_constraints_hold (lo hi : nat) :
  forallb (holds a) (fairness_constraints N S lo hi) = true <-> fairness N S a lo hi.
Proof.
  rewrite forallb_forall. unfold fairness_constraints, fairness. split.
  - intros H n Hn. split.
    + specialize (H (LowerBound lo (mkExpr 0 (worked_terms S n)))).
      cbn [holds] in H. rewrite eval_worked in H. apply Nat.leb_le. apply H.
      apply in_flat_map. exists n. split; [now apply in_range|]. now left.
    + specialize (H (UpperBound (mkExpr 0 (worked_terms S n)) hi)).
      cbn [holds] in H. rewrite eval_worked in H. apply Nat.leb_le. apply H.
      apply in_flat_map. exists n. split; [now apply in_range|]. right. now left.
  - intros H c Hc.
    apply in_flat_map in Hc. destruct Hc as (n & Hn & Hc).
    apply in_range in Hn. specialize (H n Hn).
    destruct Hc as [<-|[<-|[]]]; cbn [holds]; rewrite eval_worked; apply Nat.leb_le; lia.
Qed.

End Meaning.

(* ================================================================== *)
(** ** The preference matrix and the objective *)

Lemma getitem_nth {A : Type} (l : list A) (i : nat) (dflt : A) :
  i < List.length l -> getitem l i = Return (nth i l dflt).
Proof.
  intros Hi. unfold getitem.
  now rewrite (nth_error_nth' l dflt Hi).
Qed.

Lemma request_shaped (prefs : list (list (list bool))) (N S n d s : nat) :
  shaped N S prefs = true -> n < N -> d < num_days -> s < S ->
  request prefs n d s = Return (requested prefs n d s).
Proof.
  unfold shaped. intros Hshape Hn Hd Hs.
  apply andb_prop in Hshape. destruct Hshape as [HN Hrows].
  apply Nat.eqb_eq in HN. rewrite forallb_forall in Hrows.
  assert (Hin : In (nth n prefs []) prefs) by (apply nth_In; lia).
  apply Hrows in Hin. apply andb_prop in Hin. destruct Hin as [H7 Hcells].
  apply Nat.eqb_eq in H7. rewrite forallb_forall in Hcells.
  assert (Hin : In (nth d (nth n prefs []) []) (nth n prefs [])) by (apply nth_In; lia).
  apply Hcells in Hin. apply Nat.eqb_eq in Hin.
  unfold request, requested.
  rewrite (getitem_nth prefs n []) by lia. cbn [bind].
  rewrite (getitem_nth _ d []) by lia. cbn [bind].
  apply getitem_nth. lia.
Qed.

Lemma requests_expr_spec (prefs : list (list (list bool))) (N S : nat) :
  shaped N S prefs = true ->
  requests_expr N S prefs = Return (mkExpr 0 (request_terms prefs N S)).
Proof.
  intros Hshape. unfold requests_expr.
  set (pure_s := fun n d s e =>
         add_term e (int_of_bool (requested prefs n d s)) (shifts n d s)).
  set (pure_d := fun n d => for_ (range S) (pure_s n d)).
  set (pure_n := fun n => for_ all_days (pure_d n)).
  rewrite (forM_pure _ pure_n).
  - f_equal.
    set (loop := for_ (range N) pure_n (const 0)).
    assert (Ht : terms loop = terms (const 0) ++ request_terms prefs N S).
    { apply (for_appends terms). intros n e.
      apply (for_appends terms). intros d e'.
      apply (for_appends terms). reflexivity. }
    assert (Ho : offset loop = offset (const 0)).
    { repeat (apply (for_preserves offset); intros). reflexivity. }
    destruct loop as [o t]. simpl in *. now subst.
  - intros n e Hn. apply in_range in Hn.
    apply forM_pure. intros d e' Hd. apply in_range in Hd.
    apply forM_pure. intros s e'' Hs. apply in_range in Hs.
    now rewrite (request_shaped prefs N S n d s Hshape Hn Hd Hs).
Qed.

Lemma fairness_bounds_spec (N S : nat) :
  N <> 0 ->
  min_shifts_per_worker N S = Return (minShiftsPerWorker N S)
  /\ max_shifts_per_worker N S = Return (maxShiftsPerWorker N S).
Proof.
  intros HN. apply Nat.eqb_neq in HN.
  unfold max_shifts_per_worker, min_shifts_per_worker, floordiv, pymod.
  rewrite HN. cbn [bind].
  unfold maxShiftsPerWorker, minShiftsPerWorker, totalSlots, num_days. auto.
Qed.

Lemma build_model_spec (prefs : list (list (list bool))) (N S : nat) :
  N <> 0 -> shaped N S prefs = true ->
  build_model N S prefs = Return (schedule_model prefs N S).
Proof.
  intros HN Hshape. unfold build_model.
  destruct (fairness_bounds_spec N S HN) as [-> ->]. cbn [bind].
  rewrite (requests_expr_spec prefs N S Hshape). cbn [bind].
  rewrite add_fairness_spec, add_exclusivity_spec, add_coverage_spec,
    create_variables_spec.
  unfold Maximize, schedule_model. cbn [variables constraints objective new_model].
  now rewrite app_assoc.
Qed.

(** The constraints do not depend on the requests. *)
Lemma build_model_constraints (prefs : list (list (list bool))) (N S : nat) (model : CpModel) :
  N <> 0 -> build_model N S prefs = Return model ->
  constraints model
  = coverage_constraints N S ++ exclusivity_constraints N S
    ++ fairness_constraints N S (minShiftsPerWorker N S) (maxShiftsPerWorker N S).
Proof.
  intros HN. unfold build_model.
  destruct (fairness_bounds_spec N S HN) as [-> ->]. cbn [bind].
  destruct (requests_expr N S prefs) as [e|]; cbn [bind]; [|discriminate].
  intros [= <-].
  rewrite add_fairness_spec, add_exclusivity_spec, add_coverage_spec,
    create_variables_spec.
  cbn [Maximize variables constraints objective new_model].
  now rewrite app_assoc.
Qed.

Lemma map_flat_map {A B C : Type} (f : B -> C) (g : A -> list B) (l : list A) :
  map f (flat_map g l) = flat_map (fun x => map f (g x)) l.
Proof.
  induction l as [|x l IH]; simpl; [reflexivity|].
  now rewrite map_app, IH.
Qed.

Lemma request_terms_triples (prefs : list (list (list bool))) (N S : nat) :
  request_terms prefs N S
  = map (fun t => match t with
                  | (n, d, s) => (int_of_bool (requested prefs n d s), shift_ n d s)
                  end) (triples N S).
Proof.
  unfold request_terms, triples.
  rewrite map_flat_map. apply flat_map_ext. intros n.
  rewrite map_flat_map. apply flat_map_ext. intros d.
  rewrite map_flat_map. apply flat_map_ext. intros s. reflexivity.
Qed.

(** The objective counts the assigned triples that were requested. *)
Lemma eval_requests (prefs : list (list (list bool))) (N S : nat) (a : Assignment) :
  eval a (mkExpr 0 (request_terms prefs N S)) = requests_met prefs N S a.
Proof.
  unfold eval, requests_met. cbn [offset terms].
  rewrite request_terms_triples, map_map, <- list_sum_indicator. cbn [plus].
  f_equal. apply map_ext. intros [[n d] s]. cbn [fst snd].
  now destruct (a (shift_ n d s)), (requested prefs n d s).
Qed.

Lemma objective_schedule_model (prefs : list (list (list bool))) (N S : nat) (a : Assignment) :
  objective_of (schedule_model prefs N S) a = requests_met prefs N S a.
Proof. unfold objective_of. cbn [schedule_model objective]. apply eval_requests. Qed.

(** The model is satisfied exactly by the feasible rosters. *)
Lemma satisfies_feasible (prefs : list (list (list bool))) (N S : nat) (a : Assignment) :
  satisfies a (schedule_model prefs N S) = true
  <-> feasible N S a (minShiftsPerWorker N S) (maxShiftsPerWorker N S).
Proof.
  unfold satisfies, feasible. cbn [schedule_model constraints].
  rewrite !forallb_app, !andb_true_iff.
  rewrite coverage_constraints_hold, exclusivity_constraints_hold,
    fairness_constraints_hold.
  reflexivity.
Qed.

(* ================================================================== *)
(** ** Dictionaries *)

Section Dict.

Context {V : Type}.

Lemma dict_get_set_same (k : nat) (v : V) (d : dict V) :
  dict_get k (dict_set k v d) = Some v.
Proof.
  induction d as [|[k' v'] d IH]; simpl.
  - now rewrite Nat.eqb_refl.
  - destruct (k =? k') eqn:E; simpl; rewrite ?E, ?Nat.eqb_refl; auto.
Qed.

Lemma dict_get_set_other (k k' : nat) (v : V) (d : dict V) :
  k <> k' -> dict_get k (dict_set k' v d) = dict_get k d.
Proof.
  intros Hne. induction d as [|[k0 v0] d IH]; simpl.
  - apply Nat.eqb_neq in Hne. now rewrite Hne.
  - destruct (k' =? k0) eqn:E; simpl.
    + apply Nat.eqb_eq in E. subst k0.
      apply Nat.eqb_neq in Hne. now rewrite Hne.
    + now rewrite IH.
Qed.

Lemma dict_set_set (k : nat) (v1 v2 : V) (d : dict V) :
  dict_set k v2 (dict_set k v1 d) = dict_set k v2 d.
Proof.
  induction d as [|[k' v'] d IH]; simpl.
  - now rewrite Nat.eqb_refl.
  - destruct (k =? k') eqn:E; simpl; rewrite ?E, ?Nat.eqb_refl; congruence.
Qed.

Lemma keys_dict_set (k k' : nat) (v : V) (d : dict V) :
  In k (keys (dict_set k' v d)) <-> k = k' \/ In k (keys d).
Proof.
  unfold keys. induction d as [|[k0 v0] d IH]; simpl.
  - intuition.
  - destruct (k' =? k0) eqn:E; simpl.
    + apply Nat.eqb_eq in E. subst. intuition.
    + rewrite IH. intuition.
Qed.

Lemma dict_set_get_same (k : nat) (v : V) (d : dict V) :
  dict_get k d = Some v -> dict_set k v d = d.
Proof.
  induction d as [|[k' v'] d IH]; simpl; [discriminate|].
  destruct (k =? k') eqn:E.
  - apply Nat.eqb_eq in E. congruence.
  - intros H. now rewrite IH.
Qed.

Lemma dict_get_combine_map (f : nat -> V) (i : nat) (l : list nat) :
  In i l -> dict_get i (combine l (map f l)) = Some (f i).
Proof.
  induction l as [|k l IH]; simpl; [intros []|].
  intros Hin. destruct (i =? k) eqn:E.
  - apply Nat.eqb_eq in E. now subst.
  - apply Nat.eqb_neq in E. apply IH. destruct Hin; congruence.
Qed.

End Dict.

(* ================================================================== *)
(** ** The extraction loops *)

Lemma forM_app {A S : Type} (l1 l2 : list A) (body : A -> S -> Py S) (s : S) :
  forM (l1 ++ l2) body s = (s' <- forM l1 body s ;; forM l2 body s').
Proof.
  revert s. induction l1 as [|x l1 IH]; intros s; simpl; [reflexivity|].
  destruct (body x s); simpl; auto.
Qed.

Lemma forM_map {A B S : Type} (f : A -> B) (l : list A) (body : B -> S -> Py S) (s : S) :
  forM (map f l) body s = forM l (fun x => body (f x)) s.
Proof.
  revert s. induction l as [|x l IH]; intros s; simpl; [reflexivity|].
  destruct (body (f x) s); simpl; auto.
Qed.

(** Two nested loops run over the product of their ranges. *)
Lemma forM_prod {A B S : Type} (l1 : list A) (l2 : list B)
      (body : A -> B -> S -> Py S) (s : S) :
  forM l1 (fun x => forM l2 (body x)) s
  = forM (list_prod l1 l2) (fun xy => body (fst xy) (snd xy)) s.
Proof.
  revert s. induction l1 as [|x l1 IH]; intros s; simpl; [reflexivity|].
  rewrite forM_app, forM_map. cbn [fst snd].
  replace (forM l2 (fun x0 => body x x0) s) with (forM l2 (body x) s) by reflexivity.
  destruct (forM l2 (body x) s); simpl; auto.
Qed.

Section Extraction.

Variable solver : CpSolver.
Variables N S : nat.
Variable prefs : list (list (list bool)).
Hypothesis Hshape : shaped N S prefs = true.

Let a : Assignment := Value solver.

(** The loop over the workers and shifts of a day, on any sub-list of
    the pairs: the row of the day grows by the pairs at work. *)
Lemma extract_pairs (d : nat) (pairs : list (nat * nat)) :
  d < num_days ->
  (forall p, In p pairs -> fst p < N /\ snd p < S) ->
  forall (df : dict (dict string)) (row : dict string) (out : list Line),
    dict_get d df = Some row ->
    forM pairs (fun ns st =>
        if Value solver (shifts (fst ns) d (snd ns)) then
          r <- request prefs (fst ns) d (snd ns) ;;
          df' <- dict_set2 d (snd ns) ("Worker " ++ str (fst ns + 1))%string (fst st) ;;
          Return (df', snd st ++ [Works (fst ns) (snd ns) r])
        else Return st) (df, out)
    = Return
        (dict_set d
           (for_ (filter (fun ns => a (shift_ (fst ns) d (snd ns))) pairs)
                 (fun ns => dict_set (snd ns) (worker_label (fst ns))) row) df,
         out ++ map (fun ns => Works (fst ns) (snd ns) (requested prefs (fst ns) d (snd ns)))
                    (filter (fun ns => a (shift_ (fst ns) d (snd ns))) pairs)).
Proof.
  intros Hd. induction pairs as [|[n s] pairs IH]; intros Hin df row out Hrow.
  - cbn [forM filter for_ fold_left map].
    now rewrite app_nil_r, dict_set_get_same.
  - cbn [forM filter fst snd]. unfold a, shifts.
    destruct (Value solver (shift_ n d s)) eqn:Hv.
    + destruct (Hin (n, s) (or_introl eq_refl)) as [Hn Hs]. cbn [fst snd] in Hn, Hs.
      rewrite (request_shaped prefs N S n d s Hshape Hn Hd Hs). cbn [bind].
      unfold dict_set2. rewrite Hrow. cbn [bind fst snd].
      rewrite (IH (fun p Hp => Hin p (or_intror Hp)) _
                  (dict_set s (worker_label n) row)).
      * cbn [map for_ fold_left]. rewrite dict_set_set, <- app_assoc. reflexivity.
      * apply dict_get_set_same.
    + cbn [bind]. now apply IH; [intros p Hp; apply Hin; right|].
Qed.

Lemma extract_day_spec (d : nat) (df : dict (dict string)) (out : list Line) :
  d < num_days ->
  extract_day N S solver prefs d (df, out)
  = Return (dict_set d (day_row a N S d) df, out ++ day_lines a N S prefs d).
Proof.
  intros Hd. unfold extract_day. cbn [fst snd].
  rewrite forM_prod.
  rewrite (extract_pairs d (list_prod (range N) (range S)) Hd) with (row := []).
  - cbn [bind fst snd]. rewrite dict_set_set.
    unfold day_lines, day_row, working. rewrite <- !app_assoc. reflexivity.
  - intros [n s] Hp. apply in_prod_iff in Hp. now rewrite !in_range in Hp.
  - apply dict_get_set_same.
Qed.

Lemma extract_optimal (lo : nat) :
  status solver = OPTIMAL ->
  extract N S solver prefs lo
  = Return (roster_dict a N S,
            Solution :: flat_map (day_lines a N S prefs) all_days
            ++ [RequestsMet (ObjectiveValue solver) (N * lo)]).
Proof.
  intros Hst. unfold extract. rewrite Hst. cbn [status_eqb].
  unfold all_days, range, num_days. cbn [seq forM].
  repeat (rewrite extract_day_spec by (unfold num_days; lia); cbn [bind]).
  cbn [fst snd]. f_equal. f_equal.
  cbn [flat_map]. rewrite <- !app_assoc. reflexivity.
Qed.

Lemma extract_not_optimal (lo : nat) :
  status solver <> OPTIMAL ->
  extract N S solver prefs lo = Return ([], [NoOptimal]).
Proof.
  intros Hst. unfold extract. destruct (status solver); try reflexivity.
  now elim Hst.
Qed.

End Extraction.

(* ================================================================== *)
(** ** From the dictionary to the table *)

Lemma mem_In (k : nat) (l : list nat) : pd.mem k l = true <-> In k l.
Proof.
  unfold pd.mem. rewrite existsb_exists. split.
  - intros (x & Hx & E). apply Nat.eqb_eq in E. now subst.
  - intros H. exists k. split; [assumption | apply Nat.eqb_refl].
Qed.

Lemma distinct_In (k : nat) (l : list nat) : In k (pd.distinct l) <-> In k l.
Proof.
  unfold pd.distinct.
  enough (H : forall acc,
             In k (fold_left (fun acc k => if pd.mem k acc then acc else acc ++ [k]) l acc)
             <-> In k acc \/ In k l).
  { rewrite H. simpl. intuition. }
  induction l as [|x l IH]; intros acc; simpl; [intuition|].
  rewrite IH. destruct (pd.mem x acc) eqn:E.
  - apply mem_In in E. intuition. subst. auto.
  - rewrite in_app_iff. simpl. intuition.
Qed.

Lemma filter_seq_below (p : nat -> bool) (bound len : nat) :
  (forall i, p i = true <-> i < bound) ->
  filter p (seq 0 len) = seq 0 (Nat.min bound len).
Proof.
  intros Hp. induction len as [|len IH]; [now rewrite Nat.min_0_r|].
  rewrite seq_S, filter_app, IH. cbn [filter plus].
  destruct (p len) eqn:E.
  - apply Hp in E.
    replace (Nat.min bound len) with len by lia.
    replace (Nat.min bound (S len)) with (S len) by lia.
    now rewrite seq_S.
  - assert (Hlen : ~ len < bound) by (rewrite <- Hp; congruence).
    rewrite app_nil_r. f_equal. apply Nat.nlt_ge in Hlen. lia.
Qed.

Lemma In_le_list_max (k : nat) (l : list nat) : In k l -> k <= list_max l.
Proof.
  intros Hin. assert (H : list_max l <= list_max l) by lia.
  apply list_max_le in H. rewrite Forall_forall in H. now apply H.
Qed.

Lemma combine_map_r {A B : Type} (f : A -> B) (l : list A) :
  combine l (map f l) = map (fun x => (x, f x)) l.
Proof. induction l; simpl; congruence. Qed.

Section Table.

Variable a : Assignment.
Variables N S : nat.
Hypothesis Hcov : coverage N S a.

Lemma keys_for_dict_set (pairs : list (nat * nat)) (row : dict string) (s : nat) :
  In s (keys (for_ pairs (fun ns => dict_set (snd ns) (worker_label (fst ns))) row))
  <-> In s (keys row) \/ In s (map snd pairs).
Proof.
  revert row. induction pairs as [|p pairs IH]; intros row; cbn [for_ fold_left map In].
  - intuition.
  - fold (for_ pairs (fun ns => dict_set (snd ns) (worker_label (fst ns)))
               (dict_set (snd p) (worker_label (fst p)) row)).
    rewrite IH, keys_dict_set. intuition.
Qed.

Lemma covered_worker (d s : nat) :
  d < num_days -> s < S ->
  exists n, workers_on N a d s = [n] /\ n < N /\ a (shift_ n d s) = true.
Proof.
  intros Hd Hs. pose proof (Hcov d s Hd Hs) as Hone.
  destruct (workers_on N a d s) as [|n [|n' l]] eqn:E; try discriminate.
  exists n. split; [reflexivity|].
  assert (Hin : In n (workers_on N a d s)) by (rewrite E; now left).
  unfold workers_on in Hin. apply filter_In in Hin.
  now rewrite in_range in Hin.
Qed.

Lemma In_working (d n s : nat) :
  In (n, s) (working a N S d) <-> n < N /\ s < S /\ a (shift_ n d s) = true.
Proof.
  unfold working. rewrite filter_In, in_prod_iff, !in_range. cbn [fst snd]. tauto.
Qed.

Lemma keys_day_row (d s : nat) :
  d < num_days -> (In s (keys (day_row a N S d)) <-> s < S).
Proof.
  intros Hd. unfold day_row. rewrite keys_for_dict_set. cbn [keys map In].
  rewrite in_map_iff. split.
  - intros [[]|([n s'] & <- & Hin)]. apply In_working in Hin. tauto.
  - intros Hs. right. destruct (covered_worker d s Hd Hs) as (n & _ & Hn & Ha).
    exists (n, s). split; [reflexivity|]. now apply In_working.
Qed.

Lemma dict_get_untouched (pairs : list (nat * nat)) (row : dict string) (s : nat) :
  (forall p, In p pairs -> snd p <> s) ->
  dict_get s (for_ pairs (fun ns => dict_set (snd ns) (worker_label (fst ns))) row)
  = dict_get s row.
Proof.
  revert row. induction pairs as [|p pairs IH]; intros row Hne; [reflexivity|].
  cbn [for_ fold_left].
  fold (for_ pairs (fun ns => dict_set (snd ns) (worker_label (fst ns)))
             (dict_set (snd p) (worker_label (fst p)) row)).
  rewrite IH by (intros; apply Hne; now right).
  apply dict_get_set_other. intros E. apply (Hne p); [now left | auto].
Qed.

Lemma dict_get_written (pairs : list (nat * nat)) (row : dict string) (n s : nat) :
  (forall p, In p pairs -> snd p = s -> fst p = n) ->
  In (n, s) pairs ->
  dict_get s (for_ pairs (fun ns => dict_set (snd ns) (worker_label (fst ns))) row)
  = Some (worker_label n).
Proof.
  revert row. induction pairs as [|p pairs IH]; intros row Huniq Hin; [destruct Hin|].
  cbn [for_ fold_left].
  fold (for_ pairs (fun ns => dict_set (snd ns) (worker_label (fst ns)))
             (dict_set (snd p) (worker_label (fst p)) row)).
  assert (Hdec : forall x y : nat * nat, {x = y} + {x <> y}) by (repeat decide equality).
  destruct (in_dec Hdec (n, s) pairs) as [Hrest|Hrest].
  - apply IH; [intros; apply Huniq; auto; now right | assumption].
  - destruct Hin as [->|Hin]; [|contradiction]. cbn [fst snd].
    rewrite dict_get_untouched; [apply dict_get_set_same|].
    intros [n' s'] Hp E. cbn [snd] in E. subst s'.
    assert (n' = n) by (apply (Huniq (n', s)); [now right | reflexivity]).
    subst. contradiction.
Qed.

Lemma roster_cell_spec (d s : nat) :
  d < num_days -> s < S ->
  match dict_get s (day_row a N S d) with
  | Some v => pd.Str v
  | None => pd.NaN
  end = roster_cell a N d s.
Proof.
  intros Hd Hs. destruct (covered_worker d s Hd Hs) as (n & E & Hn & Ha).
  unfold roster_cell. rewrite E. unfold day_row.
  rewrite (dict_get_written _ _ n s); [reflexivity| |now apply In_working].
  intros [n' s'] Hp Es. cbn [fst snd] in *. subst s'.
  apply In_working in Hp. destruct Hp as (Hn' & _ & Ha').
  assert (Hin : In n' (workers_on N a d s)).
  { unfold workers_on. apply filter_In. now rewrite in_range. }
  rewrite E in Hin. destruct Hin as [<-|[]]. reflexivity.
Qed.

Lemma roster_index (i : nat) :
  In i (pd.index (pd.DataFrame_of (roster_dict a N S))) <-> i < S.
Proof.
  cbn [pd.DataFrame_of pd.index]. rewrite distinct_In, in_flat_map. split.
  - intros ([d row] & Hc & Hi). unfold roster_dict in Hc.
    apply in_map_iff in Hc. destruct Hc as (d' & E & Hd). inversion E; subst.
    apply in_range in Hd. cbn [snd] in Hi. now apply keys_day_row in Hi.
  - intros Hi. exists (0, day_row a N S 0). split.
    + unfold roster_dict. apply in_map_iff. exists 0. split; [reflexivity|].
      apply in_range. unfold num_days. lia.
    + cbn [snd]. apply keys_day_row; [unfold num_days; lia | assumption].
Qed.

Lemma roster_sorted_index :
  filter (fun i => pd.mem i (pd.index (pd.DataFrame_of (roster_dict a N S))))
         (seq 0 (Datatypes.S (list_max (pd.index (pd.DataFrame_of (roster_dict a N S))))))
  = range S.
Proof.
  set (idx := pd.index (pd.DataFrame_of (roster_dict a N S))).
  rewrite (filter_seq_below _ S).
  - unfold range. f_equal.
    destruct (Nat.eq_dec S 0) as [E|E]; [lia|].
    assert (S - 1 <= list_max idx); [|lia].
    apply In_le_list_max. apply roster_index. lia.
  - intros i. rewrite mem_In. apply roster_index.
Qed.

Lemma sort_index_roster :
  pd.sort_index (pd.DataFrame_of (roster_dict a N S))
  = pd.mkFrame (map (fun c => pd.LInt (fst c)) (roster_dict a N S)) (range S)
      (map (fun s => map (fun c => match dict_get s (snd c) with
                                   | Some v => pd.Str v
                                   | None => pd.NaN
                                   end) (roster_dict a N S)) (range S)).
Proof.
  unfold pd.sort_index. rewrite roster_sorted_index. f_equal.
  apply map_ext_in. intros s Hs. apply in_range in Hs.
  cbn [pd.DataFrame_of pd.index pd.rows].
  rewrite dict_get_combine_map; [reflexivity|].
  exact (proj2 (roster_index s) Hs).
Qed.

(** The table of a roster that covers every slot. *)
Lemma to_frame_roster : to_frame (roster_dict a N S) = roster_frame a N S.
Proof.
  unfold to_frame. rewrite sort_index_roster.
  unfold pd.reset_index, pd.rename, pd.incr_column, roster_frame.
  cbn [pd.columns pd.index pd.rows]. f_equal.
  - unfold range. now rewrite length_seq.
  - rewrite combine_map_r, !map_map. cbn [fst snd].
    apply map_ext_in. intros s Hs. apply in_range in Hs.
    unfold roster_dict, all_days, range, num_days. cbn [seq map fst snd].
    cbn [column_name combine map pd.Label_eqb String.eqb Ascii.eqb Bool.eqb fst snd].
    rewrite !roster_cell_spec by (unfold num_days; lia).
    reflexivity.
Qed.

End Table.

Lemma to_frame_empty : to_frame [] = empty_frame.
Proof. reflexivity. Qed.

(* ================================================================== *)
(** ** [run_schedule] on a well-shaped input *)

Section Run.

Variable Solve : CpModel -> CpSolver.
Variables N S : nat.
Variable prefs : list (list (list bool)).
Hypothesis HN : 1 <= N.
Hypothesis Hshape : shaped N S prefs = true.

Let solver : CpSolver := Solve (schedule_model prefs N S).

Lemma built_model (model : CpModel) :
  build_model N S prefs = Return model -> model = schedule_model prefs N S.
Proof.
  rewrite build_model_spec by (assumption || lia). congruence.
Qed.

Lemma run_schedule_optimal :
  status solver = OPTIMAL ->
  coverage N S (Value solver) ->
  run_schedule Solve N S prefs
  = Return (mkOutput
              (Solution :: flat_map (day_lines (Value solver) N S prefs) all_days
               ++ RequestsMet (ObjectiveValue solver) (N * minShiftsPerWorker N S)
               :: statistics solver)
              (roster_frame (Value solver) N S)).
Proof.
  intros Hst Hcov. unfold run_schedule.
  rewrite build_model_spec by (assumption || lia). cbn [bind].
  destruct (fairness_bounds_spec N S) as [-> _]; [lia|]. cbn [bind].
  fold solver. rewrite (extract_optimal solver N S prefs Hshape _ Hst). cbn [bind fst snd].
  rewrite (to_frame_roster _ _ _ Hcov). f_equal. f_equal.
  cbn [app]. now rewrite <- app_assoc.
Qed.

Lemma run_schedule_not_optimal :
  status solver <> OPTIMAL ->
  run_schedule Solve N S prefs
  = Return (mkOutput (NoOptimal :: statistics solver) empty_frame).
Proof.
  intros Hst. unfold run_schedule.
  rewrite build_model_spec by (assumption || lia). cbn [bind].
  destruct (fairness_bounds_spec N S) as [-> _]; [lia|]. cbn [bind].
  fold solver. rewrite (extract_not_optimal solver N S prefs _ Hst).
  reflexivity.
Qed.

End Run.

Lemma cell_at_roster_frame (a : Assignment) (N S d s : nat) :
  d < num_days -> s < S ->
  pd.cell_at (roster_frame a N S) s (day_label d) = Some (roster_cell a N d s).
Proof.
  intros Hd Hs. unfold pd.cell_at, roster_frame. cbn [pd.rows pd.columns].
  rewrite nth_error_map. unfold range.
  rewrite (nth_error_nth' _ 0) by (rewrite length_seq; lia).
  rewrite seq_nth by lia. cbn [option_map plus].
  unfold num_days in Hd.
  do 7 (destruct d as [|d]; [reflexivity|]). lia.
Qed.

Lemma filter_at_most_one {A : Type} (p : A -> bool) (l : list A) (x y : A) :
  List.length (filter p l) <= 1 ->
  In x l -> In y l -> p x = true -> p y = true -> x = y.
Proof.
  intros Hlen Hx Hy Px Py.
  assert (Hfx : In x (filter p l)) by now apply filter_In.
  assert (Hfy : In y (filter p l)) by now apply filter_In.
  destruct (filter p l) as [|z [|z' l']]; simpl in *; try lia.
  intuition congruence.
Qed.

(** A successful answer of a sound engine is a feasible roster. *)
Lemma successful_feasible (prefs : list (list (list bool))) (N S : nat) (r : CpSolver) :
  sound (schedule_model prefs N S) r ->
  status r = OPTIMAL \/ status r = FEASIBLE ->
  feasible N S (Value r) (minShiftsPerWorker N S) (maxShiftsPerWorker N S).
Proof.
  intros Hsound Hst. apply (satisfies_feasible prefs).
  destruct Hst; [now apply optimal_feasible | now apply feasible_feasible].
Qed.

(* ================================================================== *)
(** * Properties of the specification *)

(** C1, as the code has it.  When the solve ends with an optimal answer,
    the objective value that [run_schedule] reports is the number of
    assigned (worker, day, shift) triples whose preference cell is true,
    and no roster that meets the coverage, exclusivity and fairness
    constraints fulfils strictly more requests.  When the answer is only
    feasible, the objective value of the engine is still the count of its
    roster, but [run_schedule] reports none: it prints that no optimal
    solution was found and returns the empty table. *)
Theorem objective_value_counts_requests_when_optimal
    (Solve : CpModel -> CpSolver) (N S : nat) (prefs : list (list (list bool)))
    (model : CpModel) :
  1 <= N -> shaped N S prefs = true ->
  build_model N S prefs = Return model ->
  sound model (Solve model) ->
  (status (Solve model) = OPTIMAL ->
   ObjectiveValue (Solve model) = requests_met prefs N S (Value (Solve model))
   /\ (exists out, run_schedule Solve N S prefs = Return out
                   /\ In (RequestsMet (requests_met prefs N S (Value (Solve model)))
                                      (N * minShiftsPerWorker N S)) (stdout out))
   /\ (forall a, feasible N S a (minShiftsPerWorker N S) (maxShiftsPerWorker N S) ->
                 requests_met prefs N S a <= ObjectiveValue (Solve model)))
  /\ (status (Solve model) = FEASIBLE ->
      ObjectiveValue (Solve model) = requests_met prefs N S (Value (Solve model))
      /\ run_schedule Solve N S prefs
         = Return (mkOutput (NoOptimal :: statistics (Solve model)) empty_frame)).
Proof.
  intros HN Hshape Hbuild Hsound.
  apply (built_model N S prefs HN Hshape) in Hbuild. subst model.
  set (r := Solve (schedule_model prefs N S)) in *.
  split.
  - intros Hopt.
    assert (Hval : ObjectiveValue r = requests_met prefs N S (Value r)).
    { rewrite (optimal_value Hsound Hopt). apply objective_schedule_model. }
    split; [exact Hval|]. split.
    + destruct (successful_feasible _ _ _ _ Hsound (or_introl Hopt)) as (Hcov & _).
      eexists. split; [apply (run_schedule_optimal Solve N S prefs HN Hshape Hopt Hcov)|].
      cbn [stdout]. right. apply in_or_app. right. left. fold r. now rewrite Hval.
    + intros a Ha. rewrite <- (objective_schedule_model prefs).
      apply (optimal_maximal Hsound Hopt). now apply satisfies_feasible.
  - intros Hfeas. split.
    + rewrite (feasible_value Hsound Hfeas). apply objective_schedule_model.
    + apply (run_schedule_not_optimal Solve N S prefs HN Hshape).
      fold r. rewrite Hfeas. discriminate.
Qed.

(** C2 (coverage).  In an optimal result every (day, shift) slot has
    exactly one worker: the model contains the exactly-one constraint over
    the workers' variables of the slot, exactly one of them is true, and
    the cell of the slot in the extracted roster names that worker. *)
Theorem coverage_exactly_one_worker
    (Solve : CpModel -> CpSolver) (N S : nat) (prefs : list (list (list bool)))
    (model : CpModel) (d s : nat) :
  1 <= N -> shaped N S prefs = true ->
  build_model N S prefs = Return model ->
  sound model (Solve model) ->
  status (Solve model) = OPTIMAL ->
  d < num_days -> s < S ->
  In (ExactlyOne (map (fun n => shifts n d s) (range N))) (constraints model)
  /\ exists n,
       n < N
       /\ Value (Solve model) (shifts n d s) = true
       /\ (forall n', n' < N -> Value (Solve model) (shifts n' d s) = true -> n' = n)
       /\ exists out,
            run_schedule Solve N S prefs = Return out
            /\ pd.cell_at (returned out) s (day_label d) = Some (pd.Str (worker_label n)).
Proof.
  intros HN Hshape Hbuild Hsound Hopt Hd Hs.
  apply (built_model N S prefs HN Hshape) in Hbuild. subst model.
  set (r := Solve (schedule_model prefs N S)) in *.
  split.
  - cbn [schedule_model constraints]. apply in_or_app. left.
    unfold coverage_constraints. apply in_flat_map. exists d.
    split; [now apply in_range|]. apply in_flat_map. exists s.
    split; [now apply in_range | now left].
  - destruct (successful_feasible _ _ _ _ Hsound (or_introl Hopt)) as (Hcov & _).
    destruct (covered_worker _ _ _ Hcov d s Hd Hs) as (n & Hone & Hn & Ha).
    exists n. repeat split; try assumption.
    + intros n' Hn' Ha'.
      assert (Hin : In n' (workers_on N (Value r) d s)).
      { unfold workers_on. apply filter_In. now rewrite in_range. }
      rewrite Hone in Hin. destruct Hin as [<-|[]]. reflexivity.
    + eexists. split; [apply (run_schedule_optimal Solve N S prefs HN Hshape Hopt Hcov)|].
      cbn [returned]. rewrite cell_at_roster_frame by assumption.
      unfold roster_cell. fold r. now rewrite Hone.
Qed.

(** C3 (exclusivity).  In a successful result no worker works two shifts
    on the same day: at most one of the worker's variables of the day is
    true. *)
Theorem exclusivity_at_most_one_shift
    (Solve : CpModel -> CpSolver) (N S : nat) (prefs : list (list (list bool)))
    (model : CpModel) (n d : nat) :
  1 <= N -> shaped N S prefs = true ->
  build_model N S prefs = Return model ->
  sound model (Solve model) ->
  status (Solve model) = OPTIMAL \/ status (Solve model) = FEASIBLE ->
  n < N -> d < num_days ->
  In (AtMostOne (map (fun s => shifts n d s) (range S))) (constraints model)
  /\ List.length (shifts_on S (Value (Solve model)) n d) <= 1
  /\ (forall s s', s < S -> s' < S ->
        Value (Solve model) (shifts n d s) = true ->
        Value (Solve model) (shifts n d s') = true -> s = s').
Proof.
  intros HN Hshape Hbuild Hsound Hst Hn Hd.
  apply (built_model N S prefs HN Hshape) in Hbuild. subst model.
  set (r := Solve (schedule_model prefs N S)) in *.
  destruct (successful_feasible _ _ _ _ Hsound Hst) as (_ & Hexcl & _).
  specialize (Hexcl n d Hn Hd).
  split; [|split; [exact Hexcl|]].
  - cbn [schedule_model constraints]. apply in_or_app. right. apply in_or_app. left.
    unfold exclusivity_constraints. apply in_flat_map. exists n.
    split; [now apply in_range|]. apply in_flat_map. exists d.
    split; [now apply in_range | now left].
  - intros s s' Hs Hs' Ha Ha'.
    apply (filter_at_most_one (fun s => Value r (shift_ n d s)) (range S));
      try assumption; now apply in_range.
Qed.

(** C4 (fairness).  In a successful result the number of shifts assigned
    to a worker over the week lies between the minimum and the maximum
    number of shifts per worker of section 4.2, both included. *)
Theorem fairness_weekly_total_in_band
    (Solve : CpModel -> CpSolver) (N S : nat) (prefs : list (list (list bool)))
    (model : CpModel) (n : nat) :
  1 <= N -> shaped N S prefs = true ->
  build_model N S prefs = Return model ->
  sound model (Solve model) ->
  status (Solve model) = OPTIMAL \/ status (Solve model) = FEASIBLE ->
  n < N ->
  minShiftsPerWorker N S <= weekly_total S (Value (Solve model)) n
                         <= maxShiftsPerWorker N S.
Proof.
  intros HN Hshape Hbuild Hsound Hst Hn.
  apply (built_model N S prefs HN Hshape) in Hbuild. subst model.
  destruct (successful_feasible _ _ _ _ Hsound Hst) as (_ & _ & Hfair).
  now apply Hfair.
Qed.

(** C5 (fairness bounds).  For at least one worker, the minimum number of
    shifts per worker is the floor of [numShiftsPerDay * 7 / numWorkers],
    the maximum is the same number when the division is exact and one
    more otherwise, and these are the bounds that the model puts on every
    worker's weekly total; for two workers and one shift per day they are
    3 and 4. *)
Theorem fairness_bounds_floor_and_ceiling (N S : nat) :
  1 <= N ->
  min_shifts_per_worker N S = Return ((S * 7) / N)
  /\ max_shifts_per_worker N S
     = Return (if (S * 7) mod N =? 0 then (S * 7) / N else (S * 7) / N + 1)
  /\ (forall prefs model n,
        build_model N S prefs = Return model -> n < N ->
        In (LowerBound ((S * 7) / N) (num_shifts_worked S n)) (constraints model)
        /\ In (UpperBound (num_shifts_worked S n)
                          (if (S * 7) mod N =? 0 then (S * 7) / N else (S * 7) / N + 1))
              (constraints model))
  /\ min_shifts_per_worker 2 1 = Return 3
  /\ max_shifts_per_worker 2 1 = Return 4.
Proof.
  intros HN. assert (HN' : N <> 0) by lia.
  destruct (fairness_bounds_spec N S HN') as [Hmin Hmax].
  split; [exact Hmin|]. split; [exact Hmax|]. split; [|split; reflexivity].
  intros prefs model n Hbuild Hn.
  rewrite (build_model_constraints prefs N S model HN' Hbuild).
  rewrite num_shifts_worked_spec.
  assert (Hin : In n (range N)) by now apply in_range.
  split; apply in_or_app; right; apply in_or_app; right;
    unfold fairness_constraints; apply in_flat_map; exists n; (split; [exact Hin|]).
  - now left.
  - right. now left.
Qed.

(* ================================================================== *)
(** ** When the model has a solution *)

(** Counting the pairs of a product by rows and by columns. *)
Lemma list_sum_cons (x : nat) (l : list nat) : list_sum (x :: l) = x + list_sum l.
Proof. reflexivity. Qed.

Lemma count_by_rows {A B : Type} (p : A -> B -> bool) (l1 : list A) (l2 : list B) :
  List.length (filter (fun xy => p (fst xy) (snd xy)) (list_prod l1 l2))
  = list_sum (map (fun x => List.length (filter (p x) l2)) l1).
Proof.
  induction l1 as [|x l1 IH]; [reflexivity|].
  cbn [list_prod map]. rewrite list_sum_cons, filter_app, length_app, IH. f_equal.
  clear IH. induction l2 as [|y l2 IH2]; [reflexivity|].
  cbn [map filter fst snd]. destruct (p x y); cbn [List.length]; now rewrite IH2.
Qed.

Lemma count_by_columns {A B : Type} (p : A -> B -> bool) (l1 : list A) (l2 : list B) :
  List.length (filter (fun xy => p (fst xy) (snd xy)) (list_prod l1 l2))
  = list_sum (map (fun y => List.length (filter (fun x => p x y) l1)) l2).
Proof.
  rewrite count_by_rows.
  induction l1 as [|x l1 IH]; cbn [map filter].
  - induction l2 as [|y l2 IH2]; [reflexivity|].
    cbn [map]. rewrite list_sum_cons, <- IH2. reflexivity.
  - rewrite list_sum_cons, IH. clear IH.
    induction l2 as [|y l2 IH2]; [reflexivity|].
    cbn [map filter]. rewrite !list_sum_cons, <- IH2.
    destruct (p x y); cbn [List.length]; lia.
Qed.

Lemma list_sum_all_one {A : Type} (f : A -> nat) (l : list A) :
  (forall x, In x l -> f x = 1) -> list_sum (map f l) = List.length l.
Proof.
  induction l as [|x l IH]; intros H; [reflexivity|].
  cbn [map List.length]. rewrite list_sum_cons, H by now left.
  rewrite IH by (intros; apply H; now right). reflexivity.
Qed.

Lemma list_sum_at_most_one {A : Type} (f : A -> nat) (l : list A) :
  (forall x, In x l -> f x <= 1) -> list_sum (map f l) <= List.length l.
Proof.
  induction l as [|x l IH]; intros H; [reflexivity|].
  cbn [map List.length]. rewrite list_sum_cons.
  assert (f x <= 1) by (apply H; now left).
  assert (list_sum (map f l) <= List.length l) by (apply IH; intros; apply H; now right).
  lia.
Qed.

(** On one day every shift takes a worker of its own. *)
Lemma feasible_needs_workers (N S : nat) (a : Assignment) :
  coverage N S a -> exclusivity N S a -> S <= N.
Proof.
  intros Hcov Hexcl.
  assert (H0 : 0 < num_days) by (unfold num_days; lia).
  pose (p := fun n s => a (shift_ n 0 s)).
  assert (Hcols : List.length (filter (fun ns => p (fst ns) (snd ns))
                                      (list_prod (range N) (range S))) = S).
  { rewrite count_by_columns, list_sum_all_one.
    - unfold range. apply length_seq.
    - intros s Hs. apply in_range in Hs. apply (Hcov 0 s H0 Hs). }
  assert (Hrows : List.length (filter (fun ns => p (fst ns) (snd ns))
                                      (list_prod (range N) (range S))) <= N).
  { rewrite count_by_rows.
    replace N with (List.length (range N)) at 2 by (unfold range; apply length_seq).
    apply list_sum_at_most_one.
    intros n Hn. apply in_range in Hn. apply (Hexcl n 0 Hn H0). }
  lia.
Qed.

(** *** Dealing the slots in turn *)

Lemma count_eq_in_seq (w len : nat) :
  List.length (filter (Nat.eqb w) (seq 0 len)) = if w <? len then 1 else 0.
Proof.
  induction len as [|len IH]; [reflexivity|].
  rewrite seq_S, filter_app, length_app, IH. cbn [filter plus].
  destruct (w =? len) eqn:E.
  - apply Nat.eqb_eq in E. subst.
    rewrite Nat.ltb_irrefl. replace (len <? S len) with true; [reflexivity|].
    symmetry. apply Nat.ltb_lt. lia.
  - apply Nat.eqb_neq in E. cbn [List.length].
    destruct (w <? len) eqn:L.
    + replace (w <? S len) with true; [reflexivity|].
      symmetry. apply Nat.ltb_lt. apply Nat.ltb_lt in L. lia.
    + replace (w <? S len) with false; [reflexivity|].
      symmetry. apply Nat.ltb_ge. apply Nat.ltb_ge in L. lia.
Qed.

Lemma succ_div_mod (t N : nat) :
  N <> 0 ->
  (S t mod N = 0 /\ S t / N = t / N + 1 /\ t mod N = N - 1)
  \/ (S t mod N = t mod N + 1 /\ S t / N = t / N).
Proof.
  intros HN.
  pose proof (Nat.div_mod_eq t N) as Ht.
  pose proof (Nat.mod_upper_bound t N HN) as Hr.
  destruct (Nat.eq_dec (t mod N) (N - 1)) as [E|E].
  - left.
    assert (Hq : S t = N * (t / N + 1) + 0) by nia.
    repeat split; [|  | exact E].
    + symmetry. apply (Nat.mod_unique _ _ (t / N + 1) 0); lia.
    + symmetry. apply (Nat.div_unique _ _ (t / N + 1) 0); lia.
  - right.
    assert (Hq : S t = N * (t / N) + (t mod N + 1)) by lia.
    split.
    + symmetry. apply (Nat.mod_unique _ _ (t / N) (t mod N + 1)); lia.
    + symmetry. apply (Nat.div_unique _ _ (t / N) (t mod N + 1)); lia.
Qed.

(** Among the first [t] naturals, the number of those congruent to [n]. *)
Lemma count_congruent (N n t : nat) :
  n < N ->
  List.length (filter (fun k => k mod N =? n) (seq 0 t))
  = t / N + (if n <? t mod N then 1 else 0).
Proof.
  intros Hn. assert (HN : N <> 0) by lia.
  induction t as [|t IH].
  - rewrite Nat.Div0.div_0_l, Nat.Div0.mod_0_l. reflexivity.
  - rewrite seq_S, filter_app, length_app, IH. cbn [filter plus].
    pose proof (Nat.mod_upper_bound t N HN) as Hr.
    destruct (succ_div_mod t N HN) as [(Hm & Hd & Hlast)|(Hm & Hd)];
      rewrite Hm, Hd.
    + replace (n <? 0) with false by (symmetry; apply Nat.ltb_ge; lia).
      destruct (t mod N =? n) eqn:E.
      * apply Nat.eqb_eq in E.
        replace (n <? t mod N) with false by (symmetry; apply Nat.ltb_ge; lia).
        cbn [List.length]. lia.
      * apply Nat.eqb_neq in E.
        replace (n <? t mod N) with true by (symmetry; apply Nat.ltb_lt; lia).
        cbn [List.length]. lia.
    + destruct (t mod N =? n) eqn:E.
      * apply Nat.eqb_eq in E.
        replace (n <? t mod N) with false by (symmetry; apply Nat.ltb_ge; lia).
        replace (n <? t mod N + 1) with true by (symmetry; apply Nat.ltb_lt; lia).
        cbn [List.length]. lia.
      * apply Nat.eqb_neq in E. cbn [List.length].
        destruct (n <? t mod N) eqn:L.
        -- apply Nat.ltb_lt in L.
           replace (n <? t mod N + 1) with true by (symmetry; apply Nat.ltb_lt; lia).
           lia.
        -- apply Nat.ltb_ge in L.
           replace (n <? t mod N + 1) with false by (symmetry; apply Nat.ltb_ge; lia).
           lia.
Qed.

Lemma list_prod_app_l {A B : Type} (l1 l1' : list A) (l2 : list B) :
  list_prod (l1 ++ l1') l2 = list_prod l1 l2 ++ list_prod l1' l2.
Proof.
  induction l1 as [|x l1 IH]; [reflexivity|].
  cbn [list_prod app]. now rewrite IH, app_assoc.
Qed.

Lemma map_add_seq (c len : nat) : map (fun s => c + s) (seq 0 len) = seq c len.
Proof.
  induction len as [|len IH]; [reflexivity|].
  rewrite !seq_S, map_app, IH. reflexivity.
Qed.

(** The slots of [D] days, numbered day by day, are the numbers below [D * S]. *)
Lemma slot_numbers (D S : nat) :
  map (fun ds => fst ds * S + snd ds) (list_prod (seq 0 D) (seq 0 S)) = seq 0 (D * S).
Proof.
  induction D as [|D IH]; [reflexivity|].
  rewrite seq_S, list_prod_app_l, map_app, IH. cbn [list_prod plus].
  rewrite app_nil_r, map_map. cbn [fst snd].
  rewrite (map_add_seq (D * S) S).
  replace (Datatypes.S D * S) with (D * S + S) by lia.
  now rewrite seq_app.
Qed.

Lemma length_filter_map {A B : Type} (f : A -> B) (p : B -> bool) (l : list A) :
  List.length (filter (fun x => p (f x)) l) = List.length (filter p (map f l)).
Proof.
  induction l as [|x l IH]; [reflexivity|].
  cbn [map filter]. destruct (p (f x)); cbn [List.length]; now rewrite IH.
Qed.

Lemma round_robin_weekly_total (N S n : nat) :
  n < N ->
  weekly_total S (round_robin N S) n
  = (S * 7) / N + (if n <? (S * 7) mod N then 1 else 0).
Proof.
  intros Hn. unfold weekly_total, slots, all_days, range, num_days.
  cbn [round_robin].
  rewrite (length_filter_map (fun ds => fst ds * S + snd ds) (fun k => k mod N =? n)).
  rewrite slot_numbers, count_congruent by assumption.
  now rewrite (Nat.mul_comm 7 S).
Qed.

Lemma round_robin_feasible (N S : nat) :
  1 <= N -> S <= N ->
  feasible N S (round_robin N S) (minShiftsPerWorker N S) (maxShiftsPerWorker N S).
Proof.
  intros HN HS. assert (HN' : N <> 0) by lia. repeat split.
  - intros d s Hd Hs. unfold workers_on, range. cbn [round_robin].
    rewrite (filter_ext _ (Nat.eqb ((d * S + s) mod N))) by reflexivity.
    rewrite count_eq_in_seq.
    replace ((d * S + s) mod N <? N) with true; [reflexivity|].
    symmetry. apply Nat.ltb_lt. now apply Nat.mod_upper_bound.
  - intros n d Hn Hd. unfold shifts_on. cbn [round_robin].
    destruct (filter (fun s => (d * S + s) mod N =? n) (range S))
      as [|s [|s' l]] eqn:E; cbn [List.length]; try lia.
    exfalso.
    assert (Hnd : NoDup (s :: s' :: l)).
    { rewrite <- E. apply NoDup_filter. unfold range. apply seq_NoDup. }
    assert (Hin : forall x, In x (s :: s' :: l) -> x < S /\ (d * S + x) mod N = n).
    { intros x Hx. rewrite <- E in Hx. apply filter_In in Hx.
      rewrite in_range, Nat.eqb_eq in Hx. exact Hx. }
    destruct (Hin s (or_introl eq_refl)) as [Hs Hm].
    destruct (Hin s' (or_intror (or_introl eq_refl))) as [Hs' Hm'].
    assert (Hne : s <> s').
    { inversion Hnd as [|? ? Hnotin _]. intros ->. apply Hnotin. now left. }
    pose proof (Nat.div_mod_eq (d * S + s) N) as H1.
    pose proof (Nat.div_mod_eq (d * S + s') N) as H2.
    rewrite Hm in H1. rewrite Hm' in H2.
    set (q := (d * S + s) / N) in *. set (q' := (d * S + s') / N) in *.
    destruct (Nat.lt_trichotomy q q') as [Hq|[Hq|Hq]].
    + pose proof (Nat.mul_le_mono_l (q + 1) q' N ltac:(lia)). lia.
    + subst q'. rewrite Hq in H1. lia.
    + pose proof (Nat.mul_le_mono_l (q' + 1) q N ltac:(lia)). lia.
  - rewrite round_robin_weekly_total by assumption.
    unfold minShiftsPerWorker, totalSlots. lia.
  - rewrite round_robin_weekly_total by assumption.
    unfold maxShiftsPerWorker, minShiftsPerWorker, totalSlots.
    destruct ((S * 7) mod N =? 0) eqn:E.
    + apply Nat.eqb_eq in E. rewrite E.
      replace (n <? 0) with false by (symmetry; apply Nat.ltb_ge; lia). lia.
    + destruct (n <? (S * 7) mod N); lia.
Qed.

(** The rosters that satisfy the model built from any requests. *)
Lemma built_model_feasible (prefs : list (list (list bool))) (N S : nat)
      (model : CpModel) (a : Assignment) :
  1 <= N -> build_model N S prefs = Return model ->
  (satisfies a model = true
   <-> feasible N S a (minShiftsPerWorker N S) (maxShiftsPerWorker N S)).
Proof.
  intros HN Hbuild. rewrite <- (satisfies_feasible prefs).
  unfold satisfies.
  rewrite (build_model_constraints prefs N S model) by (assumption || lia).
  reflexivity.
Qed.

(** C10 (satisfiability).  The model built by [run_schedule] (coverage,
    exclusivity and the weekly fairness band) has a satisfying assignment
    exactly when there are at least as many workers as shifts per day. *)
Theorem model_satisfiable_iff_enough_workers
    (N S : nat) (prefs : list (list (list bool))) (model : CpModel) :
  1 <= N -> 1 <= S ->
  build_model N S prefs = Return model ->
  ((exists a, satisfies a model = true) <-> S <= N).
Proof.
  intros HN HS Hbuild. split.
  - intros [a Ha]. apply (built_model_feasible prefs N S model a HN Hbuild) in Ha.
    destruct Ha as (Hcov & Hexcl & _).
    exact (feasible_needs_workers N S a Hcov Hexcl).
  - intros Hle. exists (round_robin N S).
    apply (built_model_feasible prefs N S model _ HN Hbuild).
    now apply round_robin_feasible.
Qed.

(* ================================================================== *)
(** ** The reference engine meets the contract *)

Section Reference.

Import reference.

Lemma BoolVar_eqb_eq (x y : BoolVar) : BoolVar_eqb x y = true <-> x = y.
Proof.
  destruct x as [n d s], y as [n' d' s']. cbn [BoolVar_eqb].
  rewrite !andb_true_iff, !Nat.eqb_eq. split.
  - intros [[-> ->] ->]. reflexivity.
  - intros [= -> -> ->]. auto.
Qed.

Lemma subsets_filter {A : Type} (p : A -> bool) (l : list A) :
  In (filter p l) (subsets l).
Proof.
  induction l as [|x l IH]; cbn [filter subsets]; [now left|].
  apply in_or_app. destruct (p x); [right | now left].
  now apply in_map.
Qed.

Lemma assignment_of_filter (a : Assignment) (vars : list BoolVar) (x : BoolVar) :
  In x vars -> assignment_of (filter a vars) x = a x.
Proof.
  intros Hin. unfold assignment_of. destruct (a x) eqn:Hx.
  - apply existsb_exists. exists x. split; [now apply filter_In|].
    now apply BoolVar_eqb_eq.
  - apply not_true_is_false. intros H. apply existsb_exists in H.
    destruct H as (y & Hy & E). apply BoolVar_eqb_eq in E. subst y.
    apply filter_In in Hy. destruct Hy. congruence.
Qed.

Lemma declared_In (m : CpModel) (x : BoolVar) :
  declared m x = true <-> In x (variables m).
Proof.
  unfold declared. rewrite existsb_exists. split.
  - intros (y & Hy & E). apply BoolVar_eqb_eq in E. now subst.
  - intros H. exists x. split; [assumption | now apply BoolVar_eqb_eq].
Qed.

Section Agree.

Variables a a' : Assignment.
Variable m : CpModel.
Hypothesis Hagree : forall x, In x (variables m) -> a x = a' x.

Lemma count_true_agree (l : list BoolVar) :
  forallb (declared m) l = true -> count_true a l = count_true a' l.
Proof.
  intros Hl. rewrite forallb_forall in Hl. unfold count_true. f_equal.
  apply map_ext_in. intros x Hx. f_equal. apply Hagree, declared_In, Hl, Hx.
Qed.

Lemma eval_agree (e : LinearExpr) :
  forallb (declared m) (vars_of_expr e) = true -> eval a e = eval a' e.
Proof.
  intros He. rewrite forallb_forall in He. unfold eval. f_equal. f_equal.
  apply map_ext_in. intros t Ht. f_equal. f_equal.
  apply Hagree, declared_In, He. unfold vars_of_expr. now apply in_map.
Qed.

Lemma holds_agree (c : Constraint) :
  forallb (declared m) (vars_of c) = true -> holds a c = holds a' c.
Proof.
  destruct c; cbn [vars_of holds]; intros H;
    rewrite ?(count_true_agree _ H), ?(eval_agree _ H); reflexivity.
Qed.

Lemma satisfies_agree : closed m = true -> satisfies a m = satisfies a' m.
Proof.
  unfold closed, satisfies. intros H. apply andb_prop in H. destruct H as [Hc _].
  rewrite forallb_forall in Hc.
  induction (constraints m) as [|c l IH]; [reflexivity|].
  cbn [forallb]. rewrite holds_agree by (apply Hc; now left).
  rewrite IH by (intros; apply Hc; now right). reflexivity.
Qed.

Lemma objective_agree : closed m = true -> objective_of m a = objective_of m a'.
Proof.
  unfold closed, objective_of. intros H. apply andb_prop in H. destruct H as [_ Ho].
  destruct (objective m); [now apply eval_agree | reflexivity].
Qed.

End Agree.

Lemma best_In (m : CpModel) (l : list (list BoolVar)) :
  forall cur, In (best m cur l) (cur :: l).
Proof.
  induction l as [|t l IH]; intros cur; cbn [best]; [now left|].
  destruct (_ <? _); [right; apply IH|].
  destruct (IH cur) as [<-|H]; [now left | right; now right].
Qed.

Lemma best_maximal (m : CpModel) (l : list (list BoolVar)) :
  forall cur t, In t (cur :: l) ->
    objective_of m (assignment_of t)
    <= objective_of m (assignment_of (best m cur l)).
Proof.
  induction l as [|t0 l IH]; intros cur t Hin; cbn [best].
  - destruct Hin as [<-|[]]. lia.
  - destruct (objective_of m (assignment_of cur)
              <? objective_of m (assignment_of t0)) eqn:E.
    + apply Nat.ltb_lt in E.
      destruct Hin as [<-|[<-|Hin]].
      * pose proof (IH t0 t0 (or_introl eq_refl)). lia.
      * apply IH. now left.
      * apply IH. now right.
    + apply Nat.ltb_ge in E.
      destruct Hin as [<-|[<-|Hin]].
      * apply IH. now left.
      * pose proof (IH cur cur (or_introl eq_refl)). lia.
      * apply IH. now right.
Qed.

(** Every assignment is represented among the candidates. *)
Lemma candidate_of (m : CpModel) (a : Assignment) :
  closed m = true -> satisfies a m = true ->
  In (filter a (variables m))
     (filter (fun t => satisfies (assignment_of t) m) (subsets (variables m)))
  /\ objective_of m (assignment_of (filter a (variables m))) = objective_of m a.
Proof.
  intros Hc Ha.
  assert (Hagree : forall x, In x (variables m) ->
                     assignment_of (filter a (variables m)) x = a x)
    by (intros; now apply assignment_of_filter).
  split.
  - apply filter_In. split; [apply subsets_filter|].
    now rewrite (satisfies_agree _ a m Hagree Hc).
  - now apply objective_agree.
Qed.

Lemma brute_force_sound (m : CpModel) : sound m (brute_force_solve m).
Proof.
  unfold brute_force_solve.
  destruct (closed m) eqn:Hc;
    [|constructor; cbn [status]; discriminate].
  destruct (filter (fun t => satisfies (assignment_of t) m) (subsets (variables m)))
    as [|t l] eqn:E.
  - constructor; cbn [status]; try discriminate.
    intros _ a. apply not_true_is_false. intros Ha.
    destruct (candidate_of m a Hc Ha) as [Hin _]. rewrite E in Hin. destruct Hin.
  - assert (Hall : forall t', In t' (t :: l) -> satisfies (assignment_of t') m = true).
    { intros t' Hin. rewrite <- E in Hin. now apply filter_In in Hin. }
    constructor; cbn [status Value ObjectiveValue]; try discriminate.
    + intros _. apply Hall, best_In.
    + intros _ a Ha. destruct (candidate_of m a Hc Ha) as [Hin Hobj].
      rewrite E in Hin. rewrite <- Hobj. now apply best_maximal.
    + reflexivity.
Qed.

End Reference.

(* ================================================================== *)
(** ** A sample input: two workers, one shift per day *)

Lemma two_workers_built : build_model 2 1 two_workers = Return two_workers_model.
Proof. now apply build_model_spec. Qed.

Lemma two_workers_sound :
  sound two_workers_model (reference.brute_force_solve two_workers_model).
Proof. apply brute_force_sound. Qed.

Lemma two_workers_optimal :
  status (reference.brute_force_solve two_workers_model) = OPTIMAL.
Proof. vm_compute. reflexivity. Qed.

Lemma objective_value_counts_requests_when_optimal_witness :
  (status (reference.brute_force_solve two_workers_model) = OPTIMAL ->
   ObjectiveValue (reference.brute_force_solve two_workers_model)
   = requests_met two_workers 2 1 (Value (reference.brute_force_solve two_workers_model))
   /\ (exists out, run_schedule reference.brute_force_solve 2 1 two_workers = Return out
                   /\ In (RequestsMet
                            (requests_met two_workers 2 1
                               (Value (reference.brute_force_solve two_workers_model)))
                            (2 * minShiftsPerWorker 2 1)) (stdout out))
   /\ (forall a, feasible 2 1 a (minShiftsPerWorker 2 1) (maxShiftsPerWorker 2 1) ->
                 requests_met two_workers 2 1 a
                 <= ObjectiveValue (reference.brute_force_solve two_workers_model)))
  /\ (status (reference.brute_force_solve two_workers_model) = FEASIBLE ->
      ObjectiveValue (reference.brute_force_solve two_workers_model)
      = requests_met two_workers 2 1
          (Value (reference.brute_force_solve two_workers_model))
      /\ run_schedule reference.brute_force_solve 2 1 two_workers
         = Return (mkOutput
                     (NoOptimal
                      :: statistics (reference.brute_force_solve two_workers_model))
                     empty_frame)).
Proof.
  apply (objective_value_counts_requests_when_optimal reference.brute_force_solve 2 1
           two_workers two_workers_model).
  - lia.
  - reflexivity.
  - exact two_workers_built.
  - exact two_workers_sound.
Defined.

Lemma coverage_exactly_one_worker_witness :
  In (ExactlyOne (map (fun n => shifts n 3 0) (range 2))) (constraints two_workers_model)
  /\ exists n,
       n < 2
       /\ Value (reference.brute_force_solve two_workers_model) (shifts n 3 0) = true
       /\ (forall n', n' < 2 ->
             Value (reference.brute_force_solve two_workers_model) (shifts n' 3 0) = true ->
             n' = n)
       /\ exists out,
            run_schedule reference.brute_force_solve 2 1 two_workers = Return out
            /\ pd.cell_at (returned out) 0 (day_label 3) = Some (pd.Str (worker_label n)).
Proof.
  apply (coverage_exactly_one_worker reference.brute_force_solve 2 1 two_workers
           two_workers_model 3 0).
  - lia.
  - reflexivity.
  - exact two_workers_built.
  - exact two_workers_sound.
  - exact two_workers_optimal.
  - unfold num_days. lia.
  - lia.
Defined.

(** Three workers and two shifts per day: the shifts dealt in turn. *)
Lemma round_robin_answer_sound :
  sound (schedule_model (no_requests 3 2) 3 2) (round_robin_answer 3 2).
Proof.
  constructor; cbn [status round_robin_answer answer]; try discriminate.
  - intros _. vm_compute. reflexivity.
  - intros _. vm_compute. reflexivity.
Qed.

Lemma exclusivity_at_most_one_shift_witness :
  In (AtMostOne (map (fun s => shifts 1 3 s) (range 2)))
     (constraints (schedule_model (no_requests 3 2) 3 2))
  /\ List.length (shifts_on 2 (Value (round_robin_answer 3 2)) 1 3) <= 1
  /\ (forall s s', s < 2 -> s' < 2 ->
        Value (round_robin_answer 3 2) (shifts 1 3 s) = true ->
        Value (round_robin_answer 3 2) (shifts 1 3 s') = true ->
        s = s').
Proof.
  apply (exclusivity_at_most_one_shift (fun _ => round_robin_answer 3 2) 3 2
           (no_requests 3 2) (schedule_model (no_requests 3 2) 3 2) 1 3).
  - lia.
  - reflexivity.
  - now apply build_model_spec.
  - exact round_robin_answer_sound.
  - right. reflexivity.
  - lia.
  - unfold num_days. lia.
Defined.

Lemma fairness_weekly_total_in_band_witness :
  minShiftsPerWorker 2 1
  <= weekly_total 1 (Value (reference.brute_force_solve two_workers_model)) 0
  <= maxShiftsPerWorker 2 1.
Proof.
  apply (fairness_weekly_total_in_band reference.brute_force_solve 2 1 two_workers
           two_workers_model 0).
  - lia.
  - reflexivity.
  - exact two_workers_built.
  - exact two_workers_sound.
  - left. exact two_workers_optimal.
  - lia.
Defined.

Lemma fairness_bounds_floor_and_ceiling_witness :
  min_shifts_per_worker 3 2 = Return ((2 * 7) / 3)
  /\ max_shifts_per_worker 3 2
     = Return (if (2 * 7) mod 3 =? 0 then (2 * 7) / 3 else (2 * 7) / 3 + 1)
  /\ (forall prefs model n,
        build_model 3 2 prefs = Return model -> n < 3 ->
        In (LowerBound ((2 * 7) / 3) (num_shifts_worked 2 n)) (constraints model)
        /\ In (UpperBound (num_shifts_worked 2 n)
                          (if (2 * 7) mod 3 =? 0 then (2 * 7) / 3 else (2 * 7) / 3 + 1))
              (constraints model))
  /\ min_shifts_per_worker 2 1 = Return 3
  /\ max_shifts_per_worker 2 1 = Return 4.
Proof.
  apply (fairness_bounds_floor_and_ceiling 3 2). lia.
Defined.

Lemma model_satisfiable_iff_enough_workers_witness :
  (exists a, satisfies a two_workers_model = true) <-> 1 <= 2.
Proof.
  apply (model_satisfiable_iff_enough_workers 2 1 two_workers two_workers_model).
  - lia.
  - lia.
  - exact two_workers_built.
Defined.

(* ================================================================== *)
(** ** Adding a request *)

Lemma length_update {A : Type} (f : A -> A) (l : list A) :
  forall i, List.length (update i f l) = List.length l.
Proof.
  induction l as [|x l IH]; intros [|i]; cbn [update List.length]; auto.
Qed.

Lemma nth_update {A : Type} (f : A -> A) (dflt : A) (l : list A) :
  forall i j,
    nth j (update i f l) dflt
    = if (j =? i) && (i <? List.length l) then f (nth j l dflt) else nth j l dflt.
Proof.
  induction l as [|x l IH]; intros i j.
  - cbn [update List.length]. replace (i <? 0) with false; [|now destruct i].
    now rewrite andb_false_r.
  - destruct i as [|i], j as [|j]; cbn [update nth List.length]; try reflexivity.
    rewrite IH. reflexivity.
Qed.

Lemma forallb_update {A : Type} (P : A -> bool) (f : A -> A) (l : list A) :
  (forall x, P x = true -> P (f x) = true) ->
  forallb P l = true -> forall i, forallb P (update i f l) = true.
Proof.
  intros Hf. induction l as [|x l IH]; intros Hl [|i]; cbn [update forallb] in *;
    try reflexivity; apply andb_prop in Hl; destruct Hl as [Hx Hl];
    apply andb_true_intro; auto.
Qed.

Section AddRequest.

Variable prefs : list (list (list bool)).
Variables n d s : nat.

Lemma add_request_shaped (N S : nat) :
  shaped N S prefs = true -> shaped N S (add_request prefs n d s) = true.
Proof.
  unfold shaped, add_request. intros H. apply andb_prop in H. destruct H as [HN Hrows].
  apply andb_true_intro. split; [now rewrite length_update|].
  apply forallb_update; [|assumption].
  intros by_day H. apply andb_prop in H. destruct H as [H7 Hcells].
  apply andb_true_intro. split; [now rewrite length_update|].
  apply forallb_update; [|assumption].
  intros by_shift H. now rewrite length_update.
Qed.

(** Every request stays a request. *)
Lemma add_request_keeps (n' d' s' : nat) :
  requested prefs n' d' s' = true -> requested (add_request prefs n d s) n' d' s' = true.
Proof.
  unfold requested, add_request. intros H.
  rewrite nth_update. destruct (_ && _); [|assumption].
  rewrite nth_update. destruct (_ && _); [|assumption].
  rewrite nth_update. destruct (_ && _); [reflexivity | assumption].
Qed.

(** The cell is a request afterwards, and no other cell changes. *)
Lemma add_request_flips (N S : nat) :
  shaped N S prefs = true -> n < N -> d < num_days -> s < S ->
  requested (add_request prefs n d s) n d s = true
  /\ (forall n' d' s', (n', d', s') <> (n, d, s) ->
        requested (add_request prefs n d s) n' d' s' = requested prefs n' d' s').
Proof.
  intros Hshape Hn Hd Hs.
  pose proof (request_shaped prefs N S n d s Hshape Hn Hd Hs) as Hreq.
  unfold shaped in Hshape. apply andb_prop in Hshape. destruct Hshape as [HN Hrows].
  apply Nat.eqb_eq in HN. rewrite forallb_forall in Hrows.
  assert (Hin : In (nth n prefs []) prefs) by (apply nth_In; lia).
  apply Hrows in Hin. apply andb_prop in Hin. destruct Hin as [H7 Hcells].
  apply Nat.eqb_eq in H7. rewrite forallb_forall in Hcells.
  assert (Hin : In (nth d (nth n prefs []) []) (nth n prefs [])) by (apply nth_In; lia).
  apply Hcells in Hin. apply Nat.eqb_eq in Hin.
  unfold requested, add_request. split.
  - rewrite nth_update, Nat.eqb_refl.
    replace (n <? List.length prefs) with true by (symmetry; apply Nat.ltb_lt; lia).
    cbn [andb]. rewrite nth_update, Nat.eqb_refl.
    replace (d <? List.length (nth n prefs [])) with true
      by (symmetry; apply Nat.ltb_lt; lia).
    cbn [andb]. rewrite nth_update, Nat.eqb_refl.
    replace (s <? List.length (nth d (nth n prefs []) [])) with true
      by (symmetry; apply Nat.ltb_lt; lia).
    reflexivity.
  - intros n' d' s' Hne.
    rewrite nth_update. destruct (n' =? n) eqn:En; [|reflexivity].
    destruct (n <? List.length prefs); [|reflexivity]. cbn [andb].
    rewrite nth_update. destruct (d' =? d) eqn:Ed; [|reflexivity].
    destruct (d <? List.length (nth n' prefs [])); [|reflexivity]. cbn [andb].
    rewrite nth_update. destruct (s' =? s) eqn:Es; [|reflexivity].
    apply Nat.eqb_eq in En, Ed, Es. subst. now elim Hne.
Qed.

End AddRequest.

Lemma length_filter_le {A : Type} (p q : A -> bool) (l : list A) :
  (forall x, p x = true -> q x = true) ->
  List.length (filter p l) <= List.length (filter q l).
Proof.
  intros Hpq. induction l as [|x l IH]; [reflexivity|].
  cbn [filter]. destruct (p x) eqn:Px.
  - rewrite (Hpq x Px). cbn [List.length]. lia.
  - destruct (q x); cbn [List.length]; lia.
Qed.

Lemma requests_met_add_request (prefs : list (list (list bool))) (N S n d s : nat)
      (a : Assignment) :
  requests_met prefs N S a <= requests_met (add_request prefs n d s) N S a.
Proof.
  unfold requests_met. apply length_filter_le. intros [[n' d'] s'] H.
  apply andb_prop in H. destruct H as [Ha Hr].
  rewrite Ha. cbn [andb]. now apply add_request_keeps.
Qed.

(** An optimal answer of a sound engine carries the optimum of the model. *)
Lemma sound_optimum (m : CpModel) (r : CpSolver) :
  sound m r -> status r = OPTIMAL -> is_optimum m (ObjectiveValue r).
Proof.
  intros Hsound Hopt. split.
  - exists (Value r). split;
      [now apply optimal_feasible | symmetry; now apply optimal_value].
  - now apply optimal_maximal.
Qed.

Lemma optimum_add_request (prefs : list (list (list bool))) (N S n d s v v' : nat) :
  is_optimum (schedule_model prefs N S) v ->
  is_optimum (schedule_model (add_request prefs n d s) N S) v' ->
  v <= v'.
Proof.
  intros [(a & Ha & Hv) _] [_ Hmax].
  rewrite <- Hv, objective_schedule_model.
  etransitivity; [apply (requests_met_add_request prefs N S n d s)|].
  rewrite <- objective_schedule_model. apply Hmax.
  apply satisfies_feasible. now apply (satisfies_feasible prefs).
Qed.

(** C8 (monotonicity).  Turning one preference cell from false to true,
    all else unchanged, never lowers the optimal objective value of the
    model: neither the optimum as such nor the value an optimal answer of
    a sound engine reports. *)
Theorem adding_request_never_lowers_optimum
    (N S : nat) (prefs : list (list (list bool))) (n d s : nat)
    (model model' : CpModel) (v v' : nat) :
  1 <= N -> shaped N S prefs = true ->
  n < N -> d < num_days -> s < S ->
  requested prefs n d s = false ->
  build_model N S prefs = Return model ->
  build_model N S (add_request prefs n d s) = Return model' ->
  is_optimum model v -> is_optimum model' v' ->
  v <= v'
  /\ requested (add_request prefs n d s) n d s = true
  /\ (forall n' d' s', (n', d', s') <> (n, d, s) ->
        requested (add_request prefs n d s) n' d' s' = requested prefs n' d' s')
  /\ (forall Solve : CpModel -> CpSolver,
        sound model (Solve model) -> sound model' (Solve model') ->
        status (Solve model) = OPTIMAL -> status (Solve model') = OPTIMAL ->
        ObjectiveValue (Solve model) <= ObjectiveValue (Solve model')).
Proof.
  intros HN Hshape Hn Hd Hs _ Hbuild Hbuild' Hv Hv'.
  apply (built_model N S prefs HN Hshape) in Hbuild.
  apply (built_model N S _ HN (add_request_shaped prefs n d s N S Hshape)) in Hbuild'.
  subst model model'.
  destruct (add_request_flips prefs n d s N S Hshape Hn Hd Hs) as [Hset Hother].
  repeat split; try assumption.
  - exact (optimum_add_request prefs N S n d s v v' Hv Hv').
  - intros Solve Hsound Hsound' Hopt Hopt'.
    apply (optimum_add_request prefs N S n d s); now apply sound_optimum.
Qed.

(* ================================================================== *)
(** ** Answers other than optimal, and inputs without requests *)

Lemma too_few_workers (prefs : list (list (list bool))) (N S : nat) (a : Assignment) :
  N < S -> satisfies a (schedule_model prefs N S) = false.
Proof.
  intros Hlt. apply not_true_is_false. intros Ha.
  apply satisfies_feasible in Ha. destruct Ha as (Hcov & Hexcl & _).
  pose proof (feasible_needs_workers N S a Hcov Hexcl). lia.
Qed.

(** With fewer workers than shifts per day a sound engine finds nothing. *)
Lemma too_few_workers_status (prefs : list (list (list bool))) (N S : nat) (r : CpSolver) :
  N < S -> sound (schedule_model prefs N S) r ->
  status r <> OPTIMAL /\ status r <> FEASIBLE /\ (conclusive r -> status r = INFEASIBLE).
Proof.
  intros Hlt Hsound.
  assert (Hopt : status r <> OPTIMAL).
  { intros H. apply (optimal_feasible Hsound) in H.
    rewrite too_few_workers in H by assumption. discriminate. }
  repeat split; [assumption| |].
  - intros H. apply (feasible_feasible Hsound) in H.
    rewrite too_few_workers in H by assumption. discriminate.
  - intros [H|H]; [contradiction | assumption].
Qed.

Lemma In_triples (N S n d s : nat) :
  In (n, d, s) (triples N S) <-> n < N /\ d < num_days /\ s < S.
Proof.
  unfold triples. rewrite in_flat_map. split.
  - intros (n' & Hn & H). apply in_flat_map in H. destruct H as (d' & Hd & H).
    apply in_flat_map in H. destruct H as (s' & Hs & [E|[]]).
    injection E as -> -> ->.
    apply in_range in Hn, Hd, Hs. auto.
  - intros (Hn & Hd & Hs). exists n. split; [now apply in_range|].
    apply in_flat_map. exists d. split; [now apply in_range|].
    apply in_flat_map. exists s. split; [now apply in_range | now left].
Qed.

Lemma requests_met_none (prefs : list (list (list bool))) (N S : nat) (a : Assignment) :
  (forall n d s, n < N -> d < num_days -> s < S -> requested prefs n d s = false) ->
  requests_met prefs N S a = 0.
Proof.
  intros Hnone. unfold requests_met.
  rewrite (filter_ext_in _ (fun _ => false)).
  - now induction (triples N S).
  - intros [[n d] s] Hin. apply In_triples in Hin. destruct Hin as (Hn & Hd & Hs).
    rewrite (Hnone n d s Hn Hd Hs). apply andb_false_r.
Qed.

(** The lines printed for a day name exactly the pairs at work, each with
    its request. *)
Lemma In_day_lines (a : Assignment) (N S : nat) (prefs : list (list (list bool)))
      (d n s : nat) (r : bool) :
  In (Works n s r) (day_lines a N S prefs d)
  <-> (n < N /\ s < S /\ a (shift_ n d s) = true) /\ r = requested prefs n d s.
Proof.
  unfold day_lines. cbn [In]. rewrite in_app_iff, in_map_iff. cbn [In]. split.
  - intros [H|[([n' s'] & E & Hin)|[H|[]]]]; try discriminate.
    cbn [fst snd] in E. injection E as -> -> <-.
    apply In_working in Hin. tauto.
  - intros [Hin ->]. right. left. exists (n, s). split; [reflexivity|].
    now apply In_working.
Qed.

(** C6, as the code has it.  For an optimal answer the roster table is
    filled: every (day, shift) cell holds the 1-based label of the one
    worker whose variable is true (label ["Worker 3"] for worker 2), and
    the line printed for the slot says whether that worker had requested
    it, as the preference matrix has it.  For an answer that is only
    feasible nothing is filled: the table is the empty one, as for every
    status other than optimal. *)
Theorem roster_filled_when_optimal
    (Solve : CpModel -> CpSolver) (N S : nat) (prefs : list (list (list bool)))
    (model : CpModel) :
  1 <= N -> shaped N S prefs = true ->
  build_model N S prefs = Return model ->
  sound model (Solve model) ->
  (status (Solve model) = OPTIMAL ->
   exists out,
     run_schedule Solve N S prefs = Return out
     /\ stdout out
        = Solution :: flat_map (day_lines (Value (Solve model)) N S prefs) all_days
          ++ RequestsMet (ObjectiveValue (Solve model)) (N * minShiftsPerWorker N S)
          :: statistics (Solve model)
     /\ forall d s, d < num_days -> s < S ->
        exists n,
          n < N
          /\ Value (Solve model) (shifts n d s) = true
          /\ (forall n', n' < N -> Value (Solve model) (shifts n' d s) = true -> n' = n)
          /\ pd.cell_at (returned out) s (day_label d) = Some (pd.Str (worker_label n))
          /\ pd.cell_at (returned out) s (pd.LStr "Shift") = Some (pd.Int (s + 1))
          /\ (forall n' r, In (Works n' s r) (day_lines (Value (Solve model)) N S prefs d)
                           <-> n' = n /\ r = requested prefs n d s))
  /\ (status (Solve model) = FEASIBLE ->
      run_schedule Solve N S prefs
      = Return (mkOutput (NoOptimal :: statistics (Solve model)) empty_frame))
  /\ worker_label 2 = "Worker 3".
Proof.
  intros HN Hshape Hbuild Hsound.
  apply (built_model N S prefs HN Hshape) in Hbuild. subst model.
  set (r := Solve (schedule_model prefs N S)) in *.
  split; [|split; [|reflexivity]].
  - intros Hopt.
    destruct (successful_feasible _ _ _ _ Hsound (or_introl Hopt)) as (Hcov & _).
    eexists. split; [apply (run_schedule_optimal Solve N S prefs HN Hshape Hopt Hcov)|].
    cbn [stdout returned]. fold r. split; [reflexivity|].
    intros d s Hd Hs.
    destruct (covered_worker _ _ _ Hcov d s Hd Hs) as (n & Hone & Hn & Ha).
    assert (Honly : forall n', n' < N -> Value r (shifts n' d s) = true -> n' = n).
    { intros n' Hn' Ha'.
      assert (Hin : In n' (workers_on N (Value r) d s)).
      { unfold workers_on. apply filter_In. now rewrite in_range. }
      rewrite Hone in Hin. destruct Hin as [<-|[]]. reflexivity. }
    exists n. repeat split; try assumption.
    + rewrite cell_at_roster_frame by assumption.
      unfold roster_cell. now rewrite Hone.
    + unfold pd.cell_at, roster_frame. cbn [pd.rows pd.columns].
      rewrite nth_error_map. unfold range.
      rewrite (nth_error_nth' _ 0) by (rewrite length_seq; lia).
      rewrite seq_nth by lia. reflexivity.
    + apply In_day_lines in H. destruct H as [(Hn' & _ & Ha') _]. now apply Honly.
    + apply In_day_lines in H. destruct H as [(Hn' & _ & Ha') ->].
      now rewrite (Honly n' Hn' Ha').
    + intros [-> ->]. apply In_day_lines. auto.
  - intros Hfeas. apply (run_schedule_not_optimal Solve N S prefs HN Hshape).
    fold r. rewrite Hfeas. discriminate.
Qed.

(** C7, as the code has it.  Whenever the status is not optimal
    (infeasible, inconclusive, or only feasible), [run_schedule] raises
    nothing and returns the empty table, never a partly filled one, after
    printing that no optimal solution was found and the diagnostics; which
    status it was is not part of the result.  With fewer workers than
    shifts per day, as for 2 workers and 10 shifts (a minimum of 35 shifts
    per worker in a week of 7 days), a sound engine cannot answer optimal
    or feasible, and answers infeasible when it is conclusive. *)
Theorem empty_table_without_optimal
    (Solve : CpModel -> CpSolver) (N S : nat) (prefs : list (list (list bool)))
    (model : CpModel) :
  1 <= N -> shaped N S prefs = true ->
  build_model N S prefs = Return model ->
  (status (Solve model) <> OPTIMAL ->
   run_schedule Solve N S prefs
   = Return (mkOutput (NoOptimal :: statistics (Solve model)) empty_frame))
  /\ (N < S -> sound model (Solve model) ->
      status (Solve model) <> OPTIMAL
      /\ status (Solve model) <> FEASIBLE
      /\ (conclusive (Solve model) -> status (Solve model) = INFEASIBLE)
      /\ run_schedule Solve N S prefs
         = Return (mkOutput (NoOptimal :: statistics (Solve model)) empty_frame))
  /\ minShiftsPerWorker 2 10 = 35.
Proof.
  intros HN Hshape Hbuild.
  apply (built_model N S prefs HN Hshape) in Hbuild. subst model.
  split; [|split; [|reflexivity]].
  - apply (run_schedule_not_optimal Solve N S prefs HN Hshape).
  - intros Hlt Hsound.
    destruct (too_few_workers_status prefs N S _ Hlt Hsound) as (Hopt & Hfeas & Hconc).
    repeat split; try assumption.
    now apply (run_schedule_not_optimal Solve N S prefs HN Hshape).
Qed.

(** C9, as the code has it.  With at least as many workers as shifts per
    day and a preference matrix without any request, a sound engine that
    runs to completion answers optimal with objective value 0, and every
    (day, shift) slot of the roster names a worker. *)
Theorem no_requests_optimal_zero_covered
    (Solve : CpModel -> CpSolver) (N S : nat) (prefs : list (list (list bool)))
    (model : CpModel) :
  1 <= N -> 1 <= S -> S <= N ->
  shaped N S prefs = true ->
  (forall n d s, n < N -> d < num_days -> s < S -> requested prefs n d s = false) ->
  build_model N S prefs = Return model ->
  sound model (Solve model) ->
  conclusive (Solve model) ->
  status (Solve model) = OPTIMAL
  /\ ObjectiveValue (Solve model) = 0
  /\ exists out,
       run_schedule Solve N S prefs = Return out
       /\ In (RequestsMet 0 (N * minShiftsPerWorker N S)) (stdout out)
       /\ forall d s, d < num_days -> s < S ->
          exists n, n < N
                    /\ Value (Solve model) (shifts n d s) = true
                    /\ pd.cell_at (returned out) s (day_label d)
                       = Some (pd.Str (worker_label n)).
Proof.
  intros HN HS Hle Hshape Hnone Hbuild Hsound Hconc.
  apply (built_model N S prefs HN Hshape) in Hbuild. subst model.
  set (r := Solve (schedule_model prefs N S)) in *.
  assert (Hopt : status r = OPTIMAL).
  { destruct Hconc as [H|H]; [assumption|].
    pose proof (infeasible_none Hsound H (round_robin N S)) as Hnot.
    rewrite (proj2 (satisfies_feasible prefs N S _) (round_robin_feasible N S HN Hle))
      in Hnot. discriminate. }
  assert (Hval : ObjectiveValue r = 0).
  { rewrite (optimal_value Hsound Hopt), objective_schedule_model.
    now apply requests_met_none. }
  split; [assumption|]. split; [assumption|].
  destruct (successful_feasible _ _ _ _ Hsound (or_introl Hopt)) as (Hcov & _).
  eexists. split; [apply (run_schedule_optimal Solve N S prefs HN Hshape Hopt Hcov)|].
  cbn [stdout returned]. fold r. split.
  - right. apply in_or_app. right. left. now rewrite Hval.
  - intros d s Hd Hs.
    destruct (covered_worker _ _ _ Hcov d s Hd Hs) as (n & Hone & Hn & Ha).
    exists n. repeat split; try assumption.
    rewrite cell_at_roster_frame by assumption.
    unfold roster_cell. now rewrite Hone.
Qed.

(* ================================================================== *)
(** ** Where the specification and the code part *)

(** C1 fails for a feasible answer: two workers, one shift per day, the
    requests of [two_workers].  The engine answers FEASIBLE with the
    roster [alternate_days], which satisfies the model and fulfils one
    request.  [run_schedule] reports no objective value, it prints that
    no optimal solution was found; and the roster [requested_days]
    satisfies the constraints as well and fulfils four requests. *)
Lemma feasible_answer_is_not_the_best :
  shaped 2 1 two_workers = true
  /\ build_model 2 1 two_workers = Return two_workers_model
  /\ sound two_workers_model hasty_answer
  /\ status hasty_answer = FEASIBLE
  /\ feasible 2 1 (Value hasty_answer) (minShiftsPerWorker 2 1) (maxShiftsPerWorker 2 1)
  /\ requests_met two_workers 2 1 (Value hasty_answer) = 1
  /\ ObjectiveValue hasty_answer = 1
  /\ run_schedule (fun _ => hasty_answer) 2 1 two_workers
     = Return (mkOutput (NoOptimal :: statistics hasty_answer) empty_frame)
  /\ (forall met out_of,
        ~ In (RequestsMet met out_of) (NoOptimal :: statistics hasty_answer))
  /\ feasible 2 1 requested_days (minShiftsPerWorker 2 1) (maxShiftsPerWorker 2 1)
  /\ requests_met two_workers 2 1 requested_days = 4.
Proof.
  split; [reflexivity|].
  split; [exact two_workers_built|].
  split.
  { constructor; cbn [status hasty_answer answer]; try discriminate.
    - intros _. vm_compute. reflexivity.
    - intros _. vm_compute. reflexivity. }
  split; [reflexivity|].
  split.
  { apply (satisfies_feasible two_workers). vm_compute. reflexivity. }
  split; [vm_compute; reflexivity|].
  split; [reflexivity|].
  split.
  { apply run_schedule_not_optimal; [lia | reflexivity|].
    cbn [status hasty_answer answer]. discriminate. }
  split.
  { intros met out_of Hin. cbn [statistics In] in Hin.
    repeat (destruct Hin as [Hin|Hin]; [discriminate Hin|]). exact Hin. }
  split.
  { apply (satisfies_feasible two_workers). vm_compute. reflexivity. }
  vm_compute. reflexivity.
Qed.

(** C6 fails for a feasible answer: one worker, one shift per day, no
    requests; the engine answers FEASIBLE with the roster in which the
    worker takes every shift, which satisfies the model.  [run_schedule]
    prints that no optimal solution was found and returns the empty
    table. *)
Lemma feasible_answer_leaves_table_empty :
  build_model 1 1 (no_requests 1 1) = Return (schedule_model (no_requests 1 1) 1 1)
  /\ sound (schedule_model (no_requests 1 1) 1 1) feasible_answer
  /\ status feasible_answer = FEASIBLE
  /\ satisfies (Value feasible_answer) (schedule_model (no_requests 1 1) 1 1) = true
  /\ run_schedule (fun _ => feasible_answer) 1 1 (no_requests 1 1)
     = Return (mkOutput (NoOptimal :: statistics feasible_answer) empty_frame)
  /\ pd.cell_at empty_frame 0 (day_label 0) = None.
Proof.
  split; [now apply build_model_spec|].
  split; [|repeat split].
  constructor; cbn [status feasible_answer answer]; try discriminate.
  - intros _. vm_compute. reflexivity.
  - intros _. reflexivity.
Qed.

(** C7 fails where it has the result carry the solve status: two workers
    and ten shifts per day, no requests.  An engine that answers
    INFEASIBLE and one that answers UNKNOWN, both within the contract,
    lead to the same output, printed lines included. *)
Lemma status_is_not_in_the_result :
  build_model 2 10 (no_requests 2 10) = Return (schedule_model (no_requests 2 10) 2 10)
  /\ sound (schedule_model (no_requests 2 10) 2 10) infeasible_answer
  /\ sound (schedule_model (no_requests 2 10) 2 10) unknown_answer
  /\ status infeasible_answer = INFEASIBLE
  /\ status unknown_answer = UNKNOWN
  /\ run_schedule (fun _ => infeasible_answer) 2 10 (no_requests 2 10)
     = run_schedule (fun _ => unknown_answer) 2 10 (no_requests 2 10)
  /\ run_schedule (fun _ => unknown_answer) 2 10 (no_requests 2 10)
     = Return (mkOutput [NoOptimal; Statistics; Conflicts 0; Branches 0;
                         Wall (QArith_base.Qmake BinNums.Z0 BinNums.xH)]
                        empty_frame).
Proof.
  split; [now apply build_model_spec|].
  split; [|split; [|repeat split]].
  - constructor; cbn [status infeasible_answer answer]; try discriminate.
    intros _ a. apply too_few_workers. lia.
  - constructor; cbn [status unknown_answer answer]; discriminate.
Qed.

(** C9 fails with fewer workers than shifts per day: one worker, two
    shifts per day, no requests.  No roster satisfies the model, so no
    sound engine answers OPTIMAL; with the reference engine
    [run_schedule] returns the empty table. *)
Lemma no_requests_one_worker_two_shifts :
  no_requests 1 2
  = [[[false; false]; [false; false]; [false; false]; [false; false];
      [false; false]; [false; false]; [false; false]]]
  /\ shaped 1 2 (no_requests 1 2) = true
  /\ build_model 1 2 (no_requests 1 2) = Return (schedule_model (no_requests 1 2) 1 2)
  /\ (forall r, sound (schedule_model (no_requests 1 2) 1 2) r -> status r <> OPTIMAL)
  /\ status (reference.brute_force_solve (schedule_model (no_requests 1 2) 1 2))
     = INFEASIBLE
  /\ run_schedule reference.brute_force_solve 1 2 (no_requests 1 2)
     = Return (mkOutput
                 (NoOptimal
                  :: statistics (reference.brute_force_solve
                                   (schedule_model (no_requests 1 2) 1 2)))
                 empty_frame).
Proof.
  split; [reflexivity|]. split; [reflexivity|].
  split; [now apply build_model_spec|].
  split; [|split].
  - intros r Hsound.
    apply (too_few_workers_status (no_requests 1 2) 1 2 r); [lia | assumption].
  - vm_compute. reflexivity.
  - apply run_schedule_not_optimal; [lia | reflexivity|].
    apply (too_few_workers_status (no_requests 1 2) 1 2); [lia | apply brute_force_sound].
Qed.

(* ================================================================== *)
(** ** Sample inputs for the properties as the code has them *)

Lemma roster_filled_when_optimal_witness :
  (status (reference.brute_force_solve two_workers_model) = OPTIMAL ->
   exists out,
     run_schedule reference.brute_force_solve 2 1 two_workers = Return out
     /\ stdout out
        = Solution
          :: flat_map (day_lines (Value (reference.brute_force_solve two_workers_model))
                                 2 1 two_workers) all_days
          ++ RequestsMet (ObjectiveValue (reference.brute_force_solve two_workers_model))
                         (2 * minShiftsPerWorker 2 1)
          :: statistics (reference.brute_force_solve two_workers_model)
     /\ forall d s, d < num_days -> s < 1 ->
        exists n,
          n < 2
          /\ Value (reference.brute_force_solve two_workers_model) (shifts n d s) = true
          /\ (forall n', n' < 2 ->
                Value (reference.brute_force_solve two_workers_model) (shifts n' d s) = true ->
                n' = n)
          /\ pd.cell_at (returned out) s (day_label d) = Some (pd.Str (worker_label n))
          /\ pd.cell_at (returned out) s (pd.LStr "Shift") = Some (pd.Int (s + 1))
          /\ (forall n' r,
                In (Works n' s r)
                   (day_lines (Value (reference.brute_force_solve two_workers_model))
                              2 1 two_workers d)
                <-> n' = n /\ r = requested two_workers n d s))
  /\ (status (reference.brute_force_solve two_workers_model) = FEASIBLE ->
      run_schedule reference.brute_force_solve 2 1 two_workers
      = Return (mkOutput
                  (NoOptimal :: statistics (reference.brute_force_solve two_workers_model))
                  empty_frame))
  /\ worker_label 2 = "Worker 3".
Proof.
  apply (roster_filled_when_optimal reference.brute_force_solve 2 1 two_workers
           two_workers_model).
  - lia.
  - reflexivity.
  - exact two_workers_built.
  - exact two_workers_sound.
Defined.

Lemma empty_table_without_optimal_witness :
  (status infeasible_answer <> OPTIMAL ->
   run_schedule (fun _ => infeasible_answer) 2 10 (no_requests 2 10)
   = Return (mkOutput (NoOptimal :: statistics infeasible_answer) empty_frame))
  /\ (2 < 10 -> sound (schedule_model (no_requests 2 10) 2 10) infeasible_answer ->
      status infeasible_answer <> OPTIMAL
      /\ status infeasible_answer <> FEASIBLE
      /\ (conclusive infeasible_answer -> status infeasible_answer = INFEASIBLE)
      /\ run_schedule (fun _ => infeasible_answer) 2 10 (no_requests 2 10)
         = Return (mkOutput (NoOptimal :: statistics infeasible_answer) empty_frame))
  /\ minShiftsPerWorker 2 10 = 35.
Proof.
  apply (empty_table_without_optimal (fun _ => infeasible_answer) 2 10 (no_requests 2 10)
           (schedule_model (no_requests 2 10) 2 10)).
  - lia.
  - reflexivity.
  - now apply build_model_spec.
Defined.

Lemma two_workers_more_built :
  build_model 2 1 (add_request two_workers 0 1 0)
  = Return (schedule_model (add_request two_workers 0 1 0) 2 1).
Proof. now apply build_model_spec. Qed.

Lemma two_workers_more_optimal :
  status (reference.brute_force_solve (schedule_model (add_request two_workers 0 1 0) 2 1))
  = OPTIMAL.
Proof. vm_compute. reflexivity. Qed.

Lemma adding_request_never_lowers_optimum_witness :
  ObjectiveValue (reference.brute_force_solve two_workers_model)
  <= ObjectiveValue (reference.brute_force_solve
                       (schedule_model (add_request two_workers 0 1 0) 2 1))
  /\ requested (add_request two_workers 0 1 0) 0 1 0 = true
  /\ (forall n' d' s', (n', d', s') <> (0, 1, 0) ->
        requested (add_request two_workers 0 1 0) n' d' s' = requested two_workers n' d' s')
  /\ (forall Solve : CpModel -> CpSolver,
        sound two_workers_model (Solve two_workers_model) ->
        sound (schedule_model (add_request two_workers 0 1 0) 2 1)
              (Solve (schedule_model (add_request two_workers 0 1 0) 2 1)) ->
        status (Solve two_workers_model) = OPTIMAL ->
        status (Solve (schedule_model (add_request two_workers 0 1 0) 2 1)) = OPTIMAL ->
        ObjectiveValue (Solve two_workers_model)
        <= ObjectiveValue (Solve (schedule_model (add_request two_workers 0 1 0) 2 1))).
Proof.
  apply (adding_request_never_lowers_optimum 2 1 two_workers 0 1 0
           two_workers_model (schedule_model (add_request two_workers 0 1 0) 2 1)).
  - lia.
  - reflexivity.
  - lia.
  - unfold num_days. lia.
  - lia.
  - reflexivity.
  - exact two_workers_built.
  - exact two_workers_more_built.
  - apply sound_optimum; [exact two_workers_sound | exact two_workers_optimal].
  - apply sound_optimum; [apply brute_force_sound | exact two_workers_more_optimal].
Defined.

Lemma no_requests_two_workers_optimal :
  status (reference.brute_force_solve (schedule_model (no_requests 2 1) 2 1)) = OPTIMAL.
Proof. vm_compute. reflexivity. Qed.

Lemma no_requests_optimal_zero_covered_witness :
  status (reference.brute_force_solve (schedule_model (no_requests 2 1) 2 1)) = OPTIMAL
  /\ ObjectiveValue (reference.brute_force_solve (schedule_model (no_requests 2 1) 2 1)) = 0
  /\ exists out,
       run_schedule reference.brute_force_solve 2 1 (no_requests 2 1) = Return out
       /\ In (RequestsMet 0 (2 * minShiftsPerWorker 2 1)) (stdout out)
       /\ forall d s, d < num_days -> s < 1 ->
          exists n, n < 2
                    /\ Value (reference.brute_force_solve
                                (schedule_model (no_requests 2 1) 2 1)) (shifts n d s) = true
                    /\ pd.cell_at (returned out) s (day_label d)
                       = Some (pd.Str (worker_label n)).
Proof.
  apply (no_requests_optimal_zero_covered reference.brute_force_solve 2 1 (no_requests 2 1)
           (schedule_model (no_requests 2 1) 2 1)).
  - lia.
  - lia.
  - lia.
  - reflexivity.
  - intros n d s Hn Hd Hs. unfold num_days in Hd.
    destruct n as [|[|n]]; [| |lia];
      (do 7 (destruct d as [|d]; [destruct s; [reflexivity|lia]|])); lia.
  - now apply build_model_spec.
  - apply brute_force_sound.
  - left. exact no_requests_two_workers_optimal.
Defined.

(* ================================================================== *)
(** * Further properties of [run_schedule] *)

(** Line 92: without workers the division fails, whatever the engine. *)
Theorem no_workers_division_by_zero
    (Solve : CpModel -> CpSolver) (S : nat) (prefs : list (list (list bool))) :
  run_schedule Solve 0 S prefs = Raise ZeroDivisionError.
Proof. reflexivity. Qed.

(** Lines 73-76: the model has one variable per (worker, day, shift). *)
Theorem one_variable_per_triple
    (N S : nat) (prefs : list (list (list bool))) (model : CpModel) :
  build_model N S prefs = Return model ->
  List.length (variables model) = N * 7 * S
  /\ forall n d s, n < N -> d < num_days -> s < S -> In (shifts n d s) (variables model).
Proof.
  unfold build_model. intros Hbuild.
  destruct (min_shifts_per_worker N S) as [lo|]; cbn [bind] in Hbuild; [|discriminate].
  destruct (max_shifts_per_worker N S) as [hi|]; cbn [bind] in Hbuild; [|discriminate].
  destruct (requests_expr N S prefs) as [e|]; cbn [bind] in Hbuild; [|discriminate].
  injection Hbuild as <-.
  rewrite add_fairness_spec, add_exclusivity_spec, add_coverage_spec,
    create_variables_spec.
  cbn [Maximize variables new_model app]. split.
  - unfold all_variables.
    assert (Hlen : forall n, List.length
              (flat_map (fun d => flat_map (fun s => [shift_ n d s]) (range S)) all_days)
              = 7 * S).
    { intros n.
      rewrite (flat_map_pairs (fun d s => shift_ n d s)), length_map, length_prod.
      unfold all_days, range, num_days. now rewrite !length_seq. }
    assert (Hall : forall k len,
              List.length (flat_map (fun n => flat_map (fun d =>
                flat_map (fun s => [shift_ n d s]) (range S)) all_days) (seq k len))
              = len * (7 * S)).
    { intros k len. revert k. induction len as [|len IHl]; intros k; [reflexivity|].
      cbn [seq flat_map]. rewrite length_app, Hlen, IHl. lia. }
    change (range N) with (seq 0 N). rewrite Hall. lia.
  - intros n d s Hn Hd Hs. unfold all_variables, shifts.
    apply in_flat_map. exists n. split; [now apply in_range|].
    apply in_flat_map. exists d. split; [now apply in_range|].
    apply in_flat_map. exists s. split; [now apply in_range | now left].
Qed.

Lemma one_variable_per_triple_witness :
  List.length (variables two_workers_model) = 2 * 7 * 1
  /\ forall n d s, n < 2 -> d < num_days -> s < 1 ->
                   In (shifts n d s) (variables two_workers_model).
Proof.
  apply (one_variable_per_triple 2 1 two_workers two_workers_model).
  exact two_workers_built.
Defined.

(** Every slot is staffed once, so the weekly totals add up to the number
    of slots. *)
Lemma weekly_totals_sum (N S : nat) (a : Assignment) :
  coverage N S a ->
  list_sum (map (weekly_total S a) (range N)) = num_days * S.
Proof.
  intros Hcov. unfold weekly_total.
  rewrite <- (count_by_rows (fun n ds => a (shift_ n (fst ds) (snd ds)))).
  rewrite (count_by_columns (fun n ds => a (shift_ n (fst ds) (snd ds)))).
  rewrite list_sum_all_one.
  - unfold slots, all_days, range. now rewrite length_prod, !length_seq.
  - intros [d s] Hin. unfold slots in Hin. apply in_prod_iff in Hin.
    destruct Hin as [Hd Hs]. apply in_range in Hd, Hs.
    exact (Hcov d s Hd Hs).
Qed.

(** Lines 92-96, the open question of the specification: with more
    workers than slots in the week the band is [0, 1]. *)
Theorem more_workers_than_slots_band (N S : nat) :
  1 <= S -> S * 7 < N ->
  min_shifts_per_worker N S = Return 0 /\ max_shifts_per_worker N S = Return 1.
Proof.
  intros HS Hlt.
  destruct (fairness_bounds_spec N S) as [-> ->]; [lia|].
  unfold maxShiftsPerWorker, minShiftsPerWorker, totalSlots.
  rewrite Nat.div_small, Nat.mod_small by assumption.
  replace (S * 7 =? 0) with false by (symmetry; apply Nat.eqb_neq; lia).
  split; reflexivity.
Qed.

Lemma more_workers_than_slots_band_witness :
  min_shifts_per_worker 8 1 = Return 0 /\ max_shifts_per_worker 8 1 = Return 1.
Proof.
  apply (more_workers_than_slots_band 8 1); lia.
Defined.

(** Lines 147-150: the table of an optimal answer has the column Shift
    and one column per day, Monday first, and one row per shift, numbered
    from 1 in ascending order. *)
Theorem roster_table_shape
    (Solve : CpModel -> CpSolver) (N S : nat) (prefs : list (list (list bool)))
    (model : CpModel) :
  1 <= N -> shaped N S prefs = true ->
  build_model N S prefs = Return model ->
  sound model (Solve model) ->
  status (Solve model) = OPTIMAL ->
  exists out,
    run_schedule Solve N S prefs = Return out
    /\ pd.columns (returned out)
       = map pd.LStr ["Shift"; "Mon"; "Tue"; "Wed"; "Thu"; "Fri"; "Sat"; "Sun"]
    /\ List.length (pd.rows (returned out)) = S
    /\ map (fun r => hd pd.NaN r) (pd.rows (returned out))
       = map (fun s => pd.Int (s + 1)) (range S)
    /\ Forall (fun r => List.length r = 8) (pd.rows (returned out)).
Proof.
  intros HN Hshape Hbuild Hsound Hopt.
  apply (built_model N S prefs HN Hshape) in Hbuild. subst model.
  destruct (successful_feasible _ _ _ _ Hsound (or_introl Hopt)) as (Hcov & _).
  eexists. split; [apply (run_schedule_optimal Solve N S prefs HN Hshape Hopt Hcov)|].
  cbn [returned roster_frame pd.columns pd.rows]. repeat split.
  - unfold range. now rewrite length_map, length_seq.
  - rewrite map_map. reflexivity.
  - apply Forall_forall. intros r Hr. apply in_map_iff in Hr.
    destruct Hr as (s & <- & _). reflexivity.
Qed.

Lemma roster_table_shape_witness :
  exists out,
    run_schedule reference.brute_force_solve 2 1 two_workers = Return out
    /\ pd.columns (returned out)
       = map pd.LStr ["Shift"; "Mon"; "Tue"; "Wed"; "Thu"; "Fri"; "Sat"; "Sun"]
    /\ List.length (pd.rows (returned out)) = 1
    /\ map (fun r => hd pd.NaN r) (pd.rows (returned out))
       = map (fun s => pd.Int (s + 1)) (range 1)
    /\ Forall (fun r => List.length r = 8) (pd.rows (returned out)).
Proof.
  apply (roster_table_shape reference.brute_force_solve 2 1 two_workers two_workers_model).
  - lia.
  - reflexivity.
  - exact two_workers_built.
  - exact two_workers_sound.
  - exact two_workers_optimal.
Defined.

(** When as many requested triples are assigned as there are requested
    triples, each of them is assigned. *)
Lemma all_requests_met {A : Type} (p q : A -> bool) (l : list A) :
  List.length (filter (fun x => p x && q x) l) = List.length (filter q l) ->
  forall x, In x l -> q x = true -> p x = true.
Proof.
  induction l as [|y l IH]; intros Hlen x Hin Hq; [destruct Hin|].
  pose proof (length_filter_le (fun x => p x && q x) q l) as Hle.
  assert (Hle' : List.length (filter (fun x => p x && q x) l) <= List.length (filter q l)).
  { apply Hle. intros z Hz. now apply andb_prop in Hz. }
  cbn [filter] in Hlen.
  destruct (q y) eqn:Qy, (p y) eqn:Py; cbn [andb List.length] in Hlen; try lia.
  - destruct Hin as [<-|Hin]; [assumption | apply IH; auto; lia].
  - destruct Hin as [<-|Hin]; [congruence | apply IH; auto].
  - destruct Hin as [<-|Hin]; [congruence | apply IH; auto].
Qed.

Lemma own_day_answer_sound :
  sound (schedule_model distinct_days 7 1) (answer OPTIMAL own_day 7).
Proof.
  constructor; cbn [status Value ObjectiveValue answer]; try discriminate.
  - intros _. vm_compute. reflexivity.
  - intros _ a _. rewrite objective_schedule_model.
    transitivity (List.length (filter (fun t => match t with
                                                | (n, d, s) => requested distinct_days n d s
                                                end) (triples 7 1))).
    + unfold requests_met. apply length_filter_le. intros [[n d] s] H.
      now apply andb_prop in H.
    + vm_compute. reflexivity.
  - intros _. vm_compute. reflexivity.
Qed.

(** *** A matrix that is too short *)

Lemma forM_only_raises {A S : Type} (e : Exception) (body : A -> S -> Py S) (l : list A) :
  (forall x s, only_raises e (body x s)) ->
  forall s, only_raises e (forM l body s).
Proof.
  intros Hbody. induction l as [|x l IH]; intros s; cbn [forM].
  - right. now exists s.
  - destruct (Hbody x s) as [->|(s' & ->)]; cbn [bind]; [now left | apply IH].
Qed.

Lemma forM_raises {A S : Type} (e : Exception) (body : A -> S -> Py S) (l : list A) (x : A) :
  (forall y s, only_raises e (body y s)) ->
  In x l -> (forall s, body x s = Raise e) ->
  forall s, forM l body s = Raise e.
Proof.
  intros Hbody Hin Hx. induction l as [|y l IH]; intros s; [destruct Hin|].
  cbn [forM]. destruct Hin as [->|Hin].
  - now rewrite Hx.
  - destruct (Hbody y s) as [->|(s' & ->)]; cbn [bind]; [reflexivity | now apply IH].
Qed.

Lemma request_only_raises (prefs : list (list (list bool))) (n d s : nat) :
  only_raises IndexError (request prefs n d s).
Proof.
  unfold request, getitem.
  destruct (nth_error prefs n) as [by_day|]; cbn [bind]; [|now left].
  destruct (nth_error by_day d) as [by_shift|]; cbn [bind]; [|now left].
  destruct (nth_error by_shift s) as [b|]; [right; now exists b | now left].
Qed.

(** Lines 106-113: a preference matrix with fewer rows than workers makes
    the construction of the objective fail on the first missing row. *)
Theorem short_matrix_index_error
    (Solve : CpModel -> CpSolver) (N S : nat) (prefs : list (list (list bool))) :
  1 <= N -> 1 <= S -> List.length prefs < N ->
  run_schedule Solve N S prefs = Raise IndexError.
Proof.
  intros HN HS Hshort. unfold run_schedule, build_model.
  destruct (fairness_bounds_spec N S) as [-> ->]; [lia|]. cbn [bind].
  enough (H : requests_expr N S prefs = Raise IndexError) by now rewrite H.
  unfold requests_expr.
  assert (Hcell : forall n d s e,
            only_raises IndexError
              (r <- request prefs n d s ;; Return (add_term e (int_of_bool r) (shifts n d s)))).
  { intros n d s e. destruct (request_only_raises prefs n d s) as [->|(b & ->)];
      cbn [bind]; [now left | right; eauto]. }
  assert (Hday : forall n d e,
            only_raises IndexError
              (forM (range S) (fun s e =>
                 r <- request prefs n d s ;;
                 Return (add_term e (int_of_bool r) (shifts n d s))) e)).
  { intros n d e. apply forM_only_raises. intros s e'. apply Hcell. }
  apply (forM_raises IndexError _ _ (List.length prefs)).
  - intros n e. apply forM_only_raises. intros d e'. apply Hday.
  - apply in_range. assumption.
  - intros e. apply (forM_raises IndexError _ _ 0).
    + intros d e'. apply Hday.
    + apply in_range. unfold num_days. lia.
    + intros e'. apply (forM_raises IndexError _ _ 0).
      * intros s e''. apply Hcell.
      * apply in_range. lia.
      * intros e''. unfold request, getitem.
        replace (nth_error prefs (List.length prefs)) with (@None (list (list bool)));
          [reflexivity|].
        symmetry. apply nth_error_None. lia.
Qed.

Lemma short_matrix_index_error_witness :
  run_schedule reference.brute_force_solve 2 1
    [[[true]; [false]; [true]; [false]; [false]; [false]; [true]]]
  = Raise IndexError.
Proof.
  apply (short_matrix_index_error reference.brute_force_solve 2 1
           [[[true]; [false]; [true]; [false]; [false]; [false]; [true]]]).
  - lia.
  - lia.
  - cbn [List.length]. lia.
Defined.

(* ================================================================== *)
(** ** Whatever the engine answers *)

Lemma run_schedule_output
    (Solve : CpModel -> CpSolver) (N S : nat) (prefs : list (list (list bool)))
    (model : CpModel) :
  1 <= N -> shaped N S prefs = true ->
  build_model N S prefs = Return model ->
  exists out lines,
    run_schedule Solve N S prefs = Return out
    /\ stdout out = lines ++ statistics (Solve model)
    /\ (status (Solve model) <> OPTIMAL -> returned out = empty_frame)
    /\ (status (Solve model) = OPTIMAL ->
        returned out = to_frame (roster_dict (Value (Solve model)) N S)).
Proof.
  intros HN Hshape Hbuild.
  apply (built_model N S prefs HN Hshape) in Hbuild. subst model.
  set (r := Solve (schedule_model prefs N S)).
  assert (Hrun : forall st,
            extract N S r prefs (minShiftsPerWorker N S) = Return st ->
            run_schedule Solve N S prefs
            = Return (mkOutput (snd st ++ statistics r) (to_frame (fst st)))).
  { intros st Hst. unfold run_schedule.
    rewrite build_model_spec by (assumption || lia). cbn [bind].
    destruct (fairness_bounds_spec N S) as [-> _]; [lia|]. cbn [bind].
    fold r. now rewrite Hst. }
  destruct (status r) eqn:Hst.
  1-4: eexists; eexists; split;
    [apply Hrun; apply extract_not_optimal; congruence
    | cbn [stdout returned fst snd]; repeat split; congruence].
  eexists. eexists. split.
  - apply Hrun. now apply extract_optimal.
  - cbn [stdout returned fst snd]. repeat split; congruence.
Qed.

(** Lines 51-150: on a well-shaped matrix for at least one worker,
    [run_schedule] raises nothing, whatever the engine answers, sound or
    not; it always ends with the four lines of diagnostics, and without
    an optimal answer the table is the empty one. *)
Theorem run_schedule_returns
    (Solve : CpModel -> CpSolver) (N S : nat) (prefs : list (list (list bool)))
    (model : CpModel) :
  1 <= N -> shaped N S prefs = true ->
  build_model N S prefs = Return model ->
  exists out lines,
    run_schedule Solve N S prefs = Return out
    /\ stdout out = lines ++ statistics (Solve model)
    /\ (status (Solve model) <> OPTIMAL -> returned out = empty_frame)
    /\ (status (Solve model) = OPTIMAL ->
        returned out = to_frame (roster_dict (Value (Solve model)) N S)).
Proof. apply run_schedule_output. Qed.

Lemma run_schedule_returns_witness :
  exists out lines,
    run_schedule (fun _ => answer OPTIMAL (fun _ => true) 99) 2 1 two_workers = Return out
    /\ stdout out = lines ++ statistics (answer OPTIMAL (fun _ => true) 99)
    /\ (status (answer OPTIMAL (fun _ => true) 99) <> OPTIMAL -> returned out = empty_frame)
    /\ (status (answer OPTIMAL (fun _ => true) 99) = OPTIMAL ->
        returned out
        = to_frame (roster_dict (Value (answer OPTIMAL (fun _ => true) 99)) 2 1)).
Proof.
  apply (run_schedule_returns (fun _ => answer OPTIMAL (fun _ => true) 99) 2 1 two_workers
           two_workers_model).
  - lia.
  - reflexivity.
  - exact two_workers_built.
Defined.

(* ================================================================== *)
(** ** Counting assignments and requests *)

Lemma flat_map_map_prod {A B C : Type} (g : A -> B -> C) (l1 : list A) (l2 : list B) :
  flat_map (fun x => map (g x) l2) l1
  = map (fun xy => g (fst xy) (snd xy)) (list_prod l1 l2).
Proof.
  induction l1 as [|x l1 IH]; [reflexivity|].
  cbn [flat_map list_prod]. now rewrite IH, map_app, map_map.
Qed.

Lemma triples_prod (N S : nat) :
  triples N S
  = map (fun x => (fst x, fst (snd x), snd (snd x))) (list_prod (range N) (slots S)).
Proof.
  unfold triples, slots.
  rewrite <- (flat_map_map_prod (fun n ds => (n, fst ds, snd ds))).
  apply flat_map_ext. intros n.
  apply (flat_map_pairs (fun d s => (n, d, s))).
Qed.

Lemma number_assigned_weekly (N S : nat) (a : Assignment) :
  number_assigned N S a = list_sum (map (weekly_total S a) (range N)).
Proof.
  unfold number_assigned, weekly_total. rewrite triples_prod.
  rewrite <- (length_filter_map (fun x => (fst x, fst (snd x), snd (snd x)))
                (fun t => match t with (n, d, s) => a (shift_ n d s) end)).
  cbn beta iota.
  apply (count_by_rows (fun n ds => a (shift_ n (fst ds) (snd ds)))).
Qed.

(** A roster that covers every slot once has as many assignments as
    there are slots in the week. *)
Lemma number_assigned_slots (N S : nat) (a : Assignment) :
  coverage N S a -> number_assigned N S a = S * 7.
Proof.
  intros Hcov. rewrite number_assigned_weekly, weekly_totals_sum by assumption.
  unfold num_days. lia.
Qed.

Lemma requests_met_le_assigned (prefs : list (list (list bool))) (N S : nat) (a : Assignment) :
  requests_met prefs N S a <= number_assigned N S a.
Proof.
  unfold requests_met, number_assigned. apply length_filter_le.
  intros [[n d] s] H. now apply andb_prop in H.
Qed.

Lemma requests_met_le_requests (prefs : list (list (list bool))) (N S : nat) (a : Assignment) :
  requests_met prefs N S a <= number_of_requests prefs N S.
Proof.
  unfold requests_met, number_of_requests. apply length_filter_le.
  intros [[n d] s] H. now apply andb_prop in H.
Qed.

(** Lines 106-137: the objective value of an optimal answer is at most
    the number of slots of the week and at most the number of requests.
    The figure printed after "out of" is [N] times the minimum number of
    shifts per worker: it is at most the number of slots, and equal to it
    exactly when the slots divide evenly among the workers. *)
Theorem objective_at_most_slots
    (Solve : CpModel -> CpSolver) (N S : nat) (prefs : list (list (list bool)))
    (model : CpModel) :
  1 <= N -> shaped N S prefs = true ->
  build_model N S prefs = Return model ->
  sound model (Solve model) ->
  status (Solve model) = OPTIMAL ->
  ObjectiveValue (Solve model) <= S * 7
  /\ ObjectiveValue (Solve model) <= number_of_requests prefs N S
  /\ N * minShiftsPerWorker N S <= S * 7
  /\ (N * minShiftsPerWorker N S = S * 7 <-> (S * 7) mod N = 0).
Proof.
  intros HN Hshape Hbuild Hsound Hopt.
  apply (built_model N S prefs HN Hshape) in Hbuild. subst model.
  set (r := Solve (schedule_model prefs N S)) in *.
  destruct (successful_feasible _ _ _ _ Hsound (or_introl Hopt)) as (Hcov & _).
  assert (Hval : ObjectiveValue r = requests_met prefs N S (Value r)).
  { rewrite (optimal_value Hsound Hopt). apply objective_schedule_model. }
  pose proof (requests_met_le_assigned prefs N S (Value r)) as H1.
  rewrite (number_assigned_slots N S _ Hcov) in H1.
  pose proof (requests_met_le_requests prefs N S (Value r)) as H2.
  pose proof (Nat.div_mod_eq (S * 7) N) as Hdiv.
  unfold minShiftsPerWorker, totalSlots.
  repeat split; lia.
Qed.

Lemma objective_at_most_slots_witness :
  ObjectiveValue (reference.brute_force_solve two_workers_model) <= 1 * 7
  /\ ObjectiveValue (reference.brute_force_solve two_workers_model)
     <= number_of_requests two_workers 2 1
  /\ 2 * minShiftsPerWorker 2 1 <= 1 * 7
  /\ (2 * minShiftsPerWorker 2 1 = 1 * 7 <-> (1 * 7) mod 2 = 0).
Proof.
  apply (objective_at_most_slots reference.brute_force_solve 2 1 two_workers
           two_workers_model).
  - lia.
  - reflexivity.
  - exact two_workers_built.
  - exact two_workers_sound.
  - exact two_workers_optimal.
Defined.

(** Lines 106-137: when every cell of the matrix is a request, an optimal
    answer meets as many requests as the week has slots; when the slots do
    not divide evenly among the workers, this is more than the figure
    printed after "out of". *)
Theorem all_requested_exceeds_out_of
    (Solve : CpModel -> CpSolver) (N S : nat) (prefs : list (list (list bool)))
    (model : CpModel) :
  1 <= N -> shaped N S prefs = true ->
  (forall n d s, n < N -> d < num_days -> s < S -> requested prefs n d s = true) ->
  build_model N S prefs = Return model ->
  sound model (Solve model) ->
  status (Solve model) = OPTIMAL ->
  ObjectiveValue (Solve model) = S * 7
  /\ ((S * 7) mod N <> 0 -> N * minShiftsPerWorker N S < ObjectiveValue (Solve model))
  /\ exists out,
       run_schedule Solve N S prefs = Return out
       /\ In (RequestsMet (S * 7) (N * minShiftsPerWorker N S)) (stdout out).
Proof.
  intros HN Hshape Hall Hbuild Hsound Hopt.
  apply (built_model N S prefs HN Hshape) in Hbuild. subst model.
  set (r := Solve (schedule_model prefs N S)) in *.
  destruct (successful_feasible _ _ _ _ Hsound (or_introl Hopt)) as (Hcov & _).
  assert (Hval : ObjectiveValue r = S * 7).
  { rewrite (optimal_value Hsound Hopt), objective_schedule_model.
    rewrite <- (number_assigned_slots N S _ Hcov).
    unfold requests_met, number_assigned. f_equal.
    apply filter_ext_in. intros [[n d] s] Hin. apply In_triples in Hin.
    destruct Hin as (Hn & Hd & Hs). rewrite (Hall n d s Hn Hd Hs). apply andb_true_r. }
  split; [assumption|]. split.
  - intros Hrem. rewrite Hval.
    pose proof (Nat.div_mod_eq (S * 7) N) as Hdiv.
    unfold minShiftsPerWorker, totalSlots. lia.
  - eexists. split; [apply (run_schedule_optimal Solve N S prefs HN Hshape Hopt Hcov)|].
    cbn [stdout]. right. apply in_or_app. right. left. fold r. now rewrite Hval.
Qed.

Lemma every_request_two_workers_optimal :
  status (reference.brute_force_solve (schedule_model (every_request 2 1) 2 1)) = OPTIMAL.
Proof. vm_compute. reflexivity. Qed.

Lemma all_requested_exceeds_out_of_witness :
  ObjectiveValue (reference.brute_force_solve (schedule_model (every_request 2 1) 2 1))
  = 1 * 7
  /\ ((1 * 7) mod 2 <> 0 ->
      2 * minShiftsPerWorker 2 1
      < ObjectiveValue (reference.brute_force_solve
                          (schedule_model (every_request 2 1) 2 1)))
  /\ exists out,
       run_schedule reference.brute_force_solve 2 1 (every_request 2 1) = Return out
       /\ In (RequestsMet (1 * 7) (2 * minShiftsPerWorker 2 1)) (stdout out).
Proof.
  apply (all_requested_exceeds_out_of reference.brute_force_solve 2 1 (every_request 2 1)
           (schedule_model (every_request 2 1) 2 1)).
  - lia.
  - reflexivity.
  - intros n d s Hn Hd Hs. unfold num_days in Hd.
    destruct n as [|[|n]]; [| |lia];
      (do 7 (destruct d as [|d]; [destruct s; [reflexivity|lia]|])); lia.
  - now apply build_model_spec.
  - apply brute_force_sound.
  - exact every_request_two_workers_optimal.
Defined.

(* ================================================================== *)
(** ** How the shifts are shared *)

Lemma list_sum_two_values {A : Type} (f : A -> nat) (q : nat) (l : list A) :
  (forall x, In x l -> q <= f x <= q + 1) ->
  list_sum (map f l)
  = q * List.length l + List.length (filter (fun x => f x =? q + 1) l).
Proof.
  induction l as [|x l IH]; intros H; [cbn; lia|].
  cbn [map filter List.length]. rewrite list_sum_cons, IH
    by (intros; apply H; now right).
  pose proof (H x (or_introl eq_refl)) as Hx.
  destruct (f x =? q + 1) eqn:E.
  - apply Nat.eqb_eq in E. cbn [List.length]. lia.
  - apply Nat.eqb_neq in E. lia.
Qed.

(** Lines 79-103: in a successful answer the weekly totals of the workers
    add up to the number of slots of the week, every worker works the
    minimum number of shifts or one more, and the workers who work one
    more are exactly as many as the remainder of the slots divided by
    the workers. *)
Theorem shifts_shared_evenly
    (Solve : CpModel -> CpSolver) (N S : nat) (prefs : list (list (list bool)))
    (model : CpModel) :
  1 <= N -> shaped N S prefs = true ->
  build_model N S prefs = Return model ->
  sound model (Solve model) ->
  status (Solve model) = OPTIMAL \/ status (Solve model) = FEASIBLE ->
  list_sum (map (weekly_total S (Value (Solve model))) (range N)) = S * 7
  /\ (forall n, n < N ->
        weekly_total S (Value (Solve model)) n = (S * 7) / N
        \/ weekly_total S (Value (Solve model)) n = (S * 7) / N + 1)
  /\ List.length (filter (fun n => weekly_total S (Value (Solve model)) n
                                   =? (S * 7) / N + 1) (range N))
     = (S * 7) mod N.
Proof.
  intros HN Hshape Hbuild Hsound Hst.
  apply (built_model N S prefs HN Hshape) in Hbuild. subst model.
  set (a := Value (Solve (schedule_model prefs N S))).
  destruct (successful_feasible _ _ _ _ Hsound Hst) as (Hcov & _ & Hfair).
  fold a in Hcov, Hfair.
  assert (Hband : forall n, n < N -> (S * 7) / N <= weekly_total S a n <= (S * 7) / N + 1).
  { intros n Hn. specialize (Hfair n Hn).
    unfold maxShiftsPerWorker, minShiftsPerWorker, totalSlots in Hfair.
    destruct (_ =? 0); lia. }
  assert (Hsum : list_sum (map (weekly_total S a) (range N)) = S * 7).
  { rewrite weekly_totals_sum by assumption. unfold num_days. lia. }
  split; [assumption|]. split.
  - intros n Hn. specialize (Hband n Hn). lia.
  - rewrite (list_sum_two_values _ ((S * 7) / N)) in Hsum
      by (intros n Hn; apply Hband; now apply in_range).
    unfold range in Hsum at 1. rewrite length_seq in Hsum.
    pose proof (Nat.div_mod_eq (S * 7) N) as Hdiv. lia.
Qed.

Lemma shifts_shared_evenly_witness :
  list_sum (map (weekly_total 1 (Value (reference.brute_force_solve two_workers_model)))
                (range 2)) = 1 * 7
  /\ (forall n, n < 2 ->
        weekly_total 1 (Value (reference.brute_force_solve two_workers_model)) n
        = (1 * 7) / 2
        \/ weekly_total 1 (Value (reference.brute_force_solve two_workers_model)) n
           = (1 * 7) / 2 + 1)
  /\ List.length
       (filter (fun n => weekly_total 1 (Value (reference.brute_force_solve
                                                  two_workers_model)) n
                         =? (1 * 7) / 2 + 1) (range 2))
     = (1 * 7) mod 2.
Proof.
  apply (shifts_shared_evenly reference.brute_force_solve 2 1 two_workers
           two_workers_model).
  - lia.
  - reflexivity.
  - exact two_workers_built.
  - exact two_workers_sound.
  - left. exact two_workers_optimal.
Defined.

(* ================================================================== *)
(** ** Requests that can all be met *)

(** Lines 106-117: when some roster that satisfies the constraints
    fulfils every request of the matrix, an optimal answer fulfils every
    request too, and its objective value is the number of requests. *)
Theorem all_requests_fulfilled_when_possible
    (Solve : CpModel -> CpSolver) (N S : nat) (prefs : list (list (list bool)))
    (model : CpModel) (a0 : Assignment) :
  1 <= N -> shaped N S prefs = true ->
  build_model N S prefs = Return model ->
  sound model (Solve model) ->
  status (Solve model) = OPTIMAL ->
  satisfies a0 model = true ->
  (forall n d s, n < N -> d < num_days -> s < S ->
                 requested prefs n d s = true -> a0 (shift_ n d s) = true) ->
  ObjectiveValue (Solve model) = number_of_requests prefs N S
  /\ forall n d s, n < N -> d < num_days -> s < S ->
                   requested prefs n d s = true ->
                   Value (Solve model) (shifts n d s) = true.
Proof.
  intros HN Hshape Hbuild Hsound Hopt Ha0 Hfulfils.
  apply (built_model N S prefs HN Hshape) in Hbuild. subst model.
  set (r := Solve (schedule_model prefs N S)) in *.
  assert (Hval : ObjectiveValue r = requests_met prefs N S (Value r)).
  { rewrite (optimal_value Hsound Hopt). apply objective_schedule_model. }
  assert (Hmet0 : requests_met prefs N S a0 = number_of_requests prefs N S).
  { unfold requests_met, number_of_requests. f_equal.
    apply filter_ext_in. intros [[n d] s] Hin. apply In_triples in Hin.
    destruct Hin as (Hn & Hd & Hs).
    destruct (requested prefs n d s) eqn:Hr; [|apply andb_false_r].
    now rewrite (Hfulfils n d s Hn Hd Hs Hr). }
  pose proof (optimal_maximal Hsound Hopt a0 Ha0) as Hmax.
  rewrite objective_schedule_model, Hmet0 in Hmax.
  pose proof (requests_met_le_requests prefs N S (Value r)) as Hle.
  split; [lia|].
  intros n d s Hn Hd Hs Hr.
  apply (all_requests_met
           (fun t => match t with (n, d, s) => Value r (shift_ n d s) end)
           (fun t => match t with (n, d, s) => requested prefs n d s end)
           (triples N S)) with (x := (n, d, s)).
  - unfold requests_met, number_of_requests in *.
    rewrite (filter_ext _ (fun t => match t with
                                    | (n0, d0, s0) =>
                                        Value r (shift_ n0 d0 s0) && requested prefs n0 d0 s0
                                    end)) by (now intros [[? ?] ?]).
    lia.
  - now apply In_triples.
  - exact Hr.
Qed.

Lemma all_requests_fulfilled_when_possible_witness :
  ObjectiveValue (answer OPTIMAL own_day 7) = number_of_requests distinct_days 7 1
  /\ forall n d s, n < 7 -> d < num_days -> s < 1 ->
                   requested distinct_days n d s = true ->
                   Value (answer OPTIMAL own_day 7) (shifts n d s) = true.
Proof.
  apply (all_requests_fulfilled_when_possible (fun _ => answer OPTIMAL own_day 7) 7 1
           distinct_days (schedule_model distinct_days 7 1) own_day).
  - lia.
  - reflexivity.
  - now apply build_model_spec.
  - exact own_day_answer_sound.
  - reflexivity.
  - vm_compute. reflexivity.
  - intros n d s Hn Hd Hs Hr. unfold num_days in Hd.
    destruct s as [|s]; [|lia].
    do 7 (destruct n as [|n];
          [do 7 (destruct d as [|d]; [vm_compute in Hr |- *; congruence|]); lia|]).
    lia.
Defined.

(* ================================================================== *)
(** ** What is printed and what is reported *)

Lemma length_filter_flat_map {A B : Type} (p : B -> bool) (g : A -> list B) (l : list A) :
  List.length (filter p (flat_map g l))
  = list_sum (map (fun x => List.length (filter p (g x))) l).
Proof.
  induction l as [|x l IH]; [reflexivity|].
  cbn [flat_map map]. now rewrite list_sum_cons, filter_app, length_app, IH.
Qed.

Lemma list_sum_map_add {A : Type} (f g : A -> nat) (l : list A) :
  list_sum (map (fun x => f x + g x) l) = list_sum (map f l) + list_sum (map g l).
Proof.
  induction l as [|x l IH]; [reflexivity|].
  cbn [map]. rewrite !list_sum_cons, IH. lia.
Qed.

Lemma list_sum_swap {A B : Type} (c : A -> B -> nat) (l1 : list A) (l2 : list B) :
  list_sum (map (fun x => list_sum (map (c x) l2)) l1)
  = list_sum (map (fun y => list_sum (map (fun x => c x y) l1)) l2).
Proof.
  induction l1 as [|x l1 IH]; cbn [map].
  - induction l2 as [|y l2 IH2]; [reflexivity|].
    cbn [map]. now rewrite list_sum_cons, <- IH2.
  - rewrite list_sum_cons, IH, <- list_sum_map_add. reflexivity.
Qed.

Lemma length_filter_filter {A : Type} (p q : A -> bool) (l : list A) :
  List.length (filter p (filter q l)) = List.length (filter (fun x => q x && p x) l).
Proof.
  induction l as [|x l IH]; [reflexivity|].
  cbn [filter]. destruct (q x); cbn [andb filter]; [destruct (p x)|];
    cbn [List.length]; now rewrite IH.
Qed.

Section Printed.

Variable a : Assignment.
Variables N S : nat.
Variable q : nat -> nat -> nat -> bool.

(** The assignments with property [q], counted worker by worker and
    counted day by day. *)
Lemma count_by_day :
  List.length (filter (fun t => match t with
                                | (n, d, s) => a (shift_ n d s) && q n d s
                                end) (triples N S))
  = list_sum (map (fun d =>
                List.length (filter (fun ns => q (fst ns) d (snd ns)) (working a N S d)))
              all_days).
Proof.
  unfold triples, working.
  rewrite length_filter_flat_map.
  rewrite (map_ext _ (fun n => list_sum (map (fun d =>
             List.length (filter (fun s => a (shift_ n d s) && q n d s) (range S)))
             all_days))).
  - rewrite list_sum_swap. f_equal. apply map_ext. intros d.
    rewrite length_filter_filter.
    now rewrite (count_by_rows (fun n s => a (shift_ n d s) && q n d s)).
  - intros n. rewrite length_filter_flat_map. f_equal. apply map_ext. intros d.
    rewrite flat_map_single.
    now rewrite <- (length_filter_map (fun s => (n, d, s))
                      (fun t => match t with
                                | (n0, d0, s0) => a (shift_ n0 d0 s0) && q n0 d0 s0
                                end)).
Qed.

End Printed.

Lemma requested_lines_of_day (a : Assignment) (N S : nat)
      (prefs : list (list (list bool))) (d : nat) :
  List.length (filter is_requested (day_lines a N S prefs d))
  = List.length (filter (fun ns => requested prefs (fst ns) d (snd ns)) (working a N S d)).
Proof.
  unfold day_lines. cbn [filter is_requested].
  rewrite filter_app, length_app. cbn [filter is_requested List.length].
  rewrite Nat.add_0_r.
  now rewrite <- (length_filter_map
                    (fun ns => Works (fst ns) (snd ns) (requested prefs (fst ns) d (snd ns)))
                    is_requested).
Qed.

Lemma works_lines_of_day (a : Assignment) (N S : nat)
      (prefs : list (list (list bool))) (d : nat) :
  List.length (filter is_works (day_lines a N S prefs d))
  = List.length (filter (fun ns : nat * nat => true) (working a N S d)).
Proof.
  unfold day_lines. cbn [filter is_works].
  rewrite filter_app, length_app. cbn [filter is_works List.length].
  rewrite Nat.add_0_r.
  now rewrite <- (length_filter_map
                    (fun ns => Works (fst ns) (snd ns) (requested prefs (fst ns) d (snd ns)))
                    is_works).
Qed.

(** Lines 119-137: for an optimal answer, the lines printed with
    "(requested)" are as many as the number of requests met that is
    printed after them, and the lines printed for assignments, requested
    or not, are as many as the week has slots. *)
Theorem printed_lines_match_report
    (Solve : CpModel -> CpSolver) (N S : nat) (prefs : list (list (list bool)))
    (model : CpModel) :
  1 <= N -> shaped N S prefs = true ->
  build_model N S prefs = Return model ->
  sound model (Solve model) ->
  status (Solve model) = OPTIMAL ->
  exists out,
    run_schedule Solve N S prefs = Return out
    /\ In (RequestsMet (List.length (filter is_requested (stdout out)))
                       (N * minShiftsPerWorker N S)) (stdout out)
    /\ List.length (filter is_requested (stdout out)) = ObjectiveValue (Solve model)
    /\ List.length (filter is_works (stdout out)) = S * 7.
Proof.
  intros HN Hshape Hbuild Hsound Hopt.
  apply (built_model N S prefs HN Hshape) in Hbuild. subst model.
  set (r := Solve (schedule_model prefs N S)) in *.
  destruct (successful_feasible _ _ _ _ Hsound (or_introl Hopt)) as (Hcov & _).
  assert (Hval : ObjectiveValue r = requests_met prefs N S (Value r)).
  { rewrite (optimal_value Hsound Hopt). apply objective_schedule_model. }
  eexists. split; [apply (run_schedule_optimal Solve N S prefs HN Hshape Hopt Hcov)|].
  cbn [stdout]. fold r.
  assert (Hreq : List.length
                   (filter is_requested
                      (Solution :: flat_map (day_lines (Value r) N S prefs) all_days
                       ++ RequestsMet (ObjectiveValue r) (N * minShiftsPerWorker N S)
                       :: statistics r))
                 = ObjectiveValue r).
  { cbn [filter is_requested]. rewrite filter_app, length_app.
    cbn [filter is_requested statistics List.length]. rewrite Nat.add_0_r.
    rewrite length_filter_flat_map, Hval. unfold requests_met.
    rewrite (count_by_day (Value r) N S (requested prefs)).
    f_equal. apply map_ext. intros d. apply requested_lines_of_day. }
  split; [|split; [exact Hreq|]].
  - rewrite Hreq. right. apply in_or_app. right. now left.
  - cbn [filter is_works]. rewrite filter_app, length_app.
    cbn [filter is_works statistics List.length]. rewrite Nat.add_0_r.
    rewrite length_filter_flat_map.
    rewrite <- (number_assigned_slots N S _ Hcov). unfold number_assigned.
    rewrite (filter_ext _ (fun t => match t with
                                    | (n, d, s) => Value r (shift_ n d s) && true
                                    end))
      by (intros [[? ?] ?]; now rewrite andb_true_r).
    rewrite (count_by_day (Value r) N S (fun _ _ _ => true)).
    f_equal. apply map_ext. intros d. apply works_lines_of_day.
Qed.

Lemma printed_lines_match_report_witness :
  exists out,
    run_schedule reference.brute_force_solve 2 1 two_workers = Return out
    /\ In (RequestsMet (List.length (filter is_requested (stdout out)))
                       (2 * minShiftsPerWorker 2 1)) (stdout out)
    /\ List.length (filter is_requested (stdout out))
       = ObjectiveValue (reference.brute_force_solve two_workers_model)
    /\ List.length (filter is_works (stdout out)) = 1 * 7.
Proof.
  apply (printed_lines_match_report reference.brute_force_solve 2 1 two_workers
           two_workers_model).
  - lia.
  - reflexivity.
  - exact two_workers_built.
  - exact two_workers_sound.
  - exact two_workers_optimal.
Defined.

(* ================================================================== *)
(** ** Cells outside the matrix's range *)

Lemma forM_ext_in {A S : Type} (body body' : A -> S -> Py S) (l : list A) :
  (forall x s, In x l -> body x s = body' x s) ->
  forall s, forM l body s = forM l body' s.
Proof.
  induction l as [|x l IH]; intros H s; [reflexivity|].
  cbn [forM]. rewrite (H x s) by now left.
  destruct (body' x s); cbn [bind]; [|reflexivity].
  apply IH. intros; apply H; now right.
Qed.

(** Lines 106-131: [run_schedule] reads the cells [(n, d, s)] of the
    matrix with [n], [d], [s] in range and no other: two matrices that
    agree there, whatever their sizes, give the same result, be it an
    output or an exception. *)
Theorem only_cells_in_range_matter
    (Solve : CpModel -> CpSolver) (N S : nat) (prefs prefs' : list (list (list bool))) :
  (forall n d s, n < N -> d < num_days -> s < S ->
                 request prefs n d s = request prefs' n d s) ->
  run_schedule Solve N S prefs = run_schedule Solve N S prefs'.
Proof.
  intros Hsame.
  assert (Hexpr : requests_expr N S prefs = requests_expr N S prefs').
  { unfold requests_expr.
    apply forM_ext_in. intros n e Hn. apply in_range in Hn.
    apply forM_ext_in. intros d e' Hd. apply in_range in Hd.
    apply forM_ext_in. intros s e'' Hs. apply in_range in Hs.
    now rewrite (Hsame n d s Hn Hd Hs). }
  assert (Hextract : forall solver lo,
            extract N S solver prefs lo = extract N S solver prefs' lo).
  { intros solver lo. unfold extract.
    destruct (status_eqb (status solver) OPTIMAL); [|reflexivity].
    f_equal. apply forM_ext_in. intros d st Hd. apply in_range in Hd.
    unfold extract_day. f_equal.
    apply forM_ext_in. intros n st' Hn. apply in_range in Hn.
    apply forM_ext_in. intros s st'' Hs. apply in_range in Hs.
    now rewrite (Hsame n d s Hn Hd Hs). }
  unfold run_schedule, build_model. rewrite Hexpr.
  destruct (min_shifts_per_worker N S) as [lo|]; cbn [bind]; [|reflexivity].
  destruct (max_shifts_per_worker N S) as [hi|]; cbn [bind]; [|reflexivity].
  destruct (requests_expr N S prefs') as [e|]; cbn [bind]; [|reflexivity].
  now rewrite Hextract.
Qed.

Lemma only_cells_in_range_matter_witness :
  run_schedule reference.brute_force_solve 2 1 two_workers
  = run_schedule reference.brute_force_solve 2 1 two_workers_padded.
Proof.
  apply (only_cells_in_range_matter reference.brute_force_solve 2 1 two_workers
           two_workers_padded).
  intros n d s Hn Hd Hs. unfold num_days in Hd.
  destruct s as [|s]; [|lia].
  destruct n as [|[|n]]; [| |lia];
    (do 7 (destruct d as [|d]; [reflexivity|])); lia.
Defined.

(* ================================================================== *)
(** ** The constraints and the requests *)

(** Lines 68-103: the variables and the constraints of the model do not
    depend on the preference matrix; the same rosters satisfy the models
    of two matrices. *)
Theorem requests_do_not_constrain
    (N S : nat) (prefs prefs' : list (list (list bool))) (model model' : CpModel) :
  build_model N S prefs = Return model ->
  build_model N S prefs' = Return model' ->
  variables model = variables model'
  /\ constraints model = constraints model'
  /\ forall a, satisfies a model = satisfies a model'.
Proof.
  intros Hbuild Hbuild'.
  assert (HN : N <> 0).
  { intros ->. discriminate Hbuild. }
  assert (Hc : constraints model = constraints model').
  { rewrite (build_model_constraints prefs N S model HN Hbuild).
    now rewrite (build_model_constraints prefs' N S model' HN Hbuild'). }
  split; [|split; [exact Hc|]].
  - unfold build_model in Hbuild, Hbuild'.
    destruct (fairness_bounds_spec N S HN) as [Hlo Hhi].
    rewrite Hlo, Hhi in Hbuild, Hbuild'. cbn [bind] in Hbuild, Hbuild'.
    destruct (requests_expr N S prefs); [|discriminate].
    destruct (requests_expr N S prefs'); [|discriminate].
    cbn [bind] in Hbuild, Hbuild'.
    injection Hbuild as <-. injection Hbuild' as <-. reflexivity.
  - intros a. unfold satisfies. now rewrite Hc.
Qed.

Lemma requests_do_not_constrain_witness :
  variables two_workers_model = variables (schedule_model (no_requests 2 1) 2 1)
  /\ constraints two_workers_model = constraints (schedule_model (no_requests 2 1) 2 1)
  /\ forall a, satisfies a two_workers_model
               = satisfies a (schedule_model (no_requests 2 1) 2 1).
Proof.
  apply (requests_do_not_constrain 2 1 two_workers (no_requests 2 1)).
  - exact two_workers_built.
  - now apply build_model_spec.
Defined.

(* ================================================================== *)
(** ** Labels and keys *)

Lemma to_uint_not_Nil (n : nat) : Nat.to_uint n <> Decimal.Nil.
Proof.
  rewrite <- (DecimalNat.Unsigned.of_to n) at 1.
  rewrite DecimalNat.Unsigned.to_of. unfold Decimal.unorm.
  destruct (Decimal.nzhead (Nat.to_uint n)); discriminate.
Qed.

Lemma str_injective (n m : nat) : str n = str m -> n = m.
Proof.
  unfold str. intros H.
  apply DecimalNat.Unsigned.to_uint_inj.
  assert (Hn := NilZero.usu (Nat.to_uint n) (to_uint_not_Nil n)).
  assert (Hm := NilZero.usu (Nat.to_uint m) (to_uint_not_Nil m)).
  rewrite H in Hn. congruence.
Qed.

Lemma string_of_uint_digits (d : Decimal.uint) :
  all_digits (NilEmpty.string_of_uint d) = true.
Proof. induction d; cbn [NilEmpty.string_of_uint all_digits]; auto. Qed.

Lemma str_digits (n : nat) : all_digits (str n) = true.
Proof.
  unfold str, NilZero.string_of_uint.
  destruct (Nat.to_uint n) eqn:E; try (rewrite <- E; apply string_of_uint_digits).
  reflexivity.
Qed.

(** A number, an underscore, and the rest: the number and the rest are
    determined. *)
Lemma split_at_underscore (s1 s2 r1 r2 : string) :
  all_digits s1 = true -> all_digits s2 = true ->
  (s1 ++ String "_"%char r1)%string = (s2 ++ String "_"%char r2)%string ->
  s1 = s2 /\ r1 = r2.
Proof.
  revert s2. induction s1 as [|c s1 IH]; intros [|c' s2] H1 H2 E;
    cbn [String.append all_digits] in *.
  - injection E as ->. auto.
  - injection E as <- _. discriminate H2.
  - injection E as -> _. discriminate H1.
  - injection E as -> E. apply andb_prop in H1, H2.
    destruct (IH s2) as [-> ->]; tauto.
Qed.

(** Lines 33 and 131: the label of a worker names one worker only. *)
Theorem worker_label_injective (n m : nat) : worker_label n = worker_label m <-> n = m.
Proof.
  split; [|now intros ->].
  unfold worker_label. cbn [String.append]. intros H.
  injection H as H. apply str_injective in H. lia.
Qed.

Lemma checkbox_key_injective (i day shift i' day' shift' : nat) :
  checkbox_key i day shift = checkbox_key i' day' shift' ->
  i = i' /\ day = day' /\ shift = shift'.
Proof.
  unfold checkbox_key. cbn [String.append]. intros H.
  apply split_at_underscore in H; try apply str_digits.
  destruct H as [Hi H].
  apply split_at_underscore in H; try apply str_digits.
  destruct H as [Hd Hs].
  apply str_injective in Hi, Hd, Hs. lia.
Qed.

(* ================================================================== *)
(** ** The matrix that [main] fills *)

Lemma shaped_lengths (N S : nat) (m : list (list (list bool))) :
  shaped N S m = true ->
  List.length m = N
  /\ forall i, i < N ->
       List.length (nth i m []) = num_days
       /\ forall d, d < num_days -> List.length (nth d (nth i m []) []) = S.
Proof.
  unfold shaped. intros H. apply andb_prop in H. destruct H as [HN Hrows].
  apply Nat.eqb_eq in HN. rewrite forallb_forall in Hrows.
  split; [assumption|]. intros i Hi.
  assert (Hin : In (nth i m []) m) by (apply nth_In; lia).
  apply Hrows in Hin. apply andb_prop in Hin. destruct Hin as [H7 Hcells].
  apply Nat.eqb_eq in H7. rewrite forallb_forall in Hcells.
  split; [assumption|]. intros d Hd.
  assert (Hin : In (nth d (nth i m []) []) (nth i m [])) by (apply nth_In; lia).
  apply Hcells in Hin. now apply Nat.eqb_eq in Hin.
Qed.

Lemma write_cell_shaped (N S i d k : nat) (f : bool -> bool) (m : list (list (list bool))) :
  shaped N S m = true -> shaped N S (update i (update d (update k f)) m) = true.
Proof.
  unfold shaped. intros H. apply andb_prop in H. destruct H as [HN Hrows].
  apply andb_true_intro. split; [now rewrite length_update|].
  apply forallb_update; [|assumption].
  intros by_day H. apply andb_prop in H. destruct H as [H7 Hcells].
  apply andb_true_intro. split; [now rewrite length_update|].
  apply forallb_update; [|assumption].
  intros by_shift H. now rewrite length_update.
Qed.

(** Writing a cell changes this cell and no other. *)
Lemma write_cell_requested (N S i d k : nat) (v : bool) (m : list (list (list bool)))
      (i' d' k' : nat) :
  shaped N S m = true -> i < N -> d < num_days -> k < S ->
  requested (update i (update d (update k (fun _ => v))) m) i' d' k'
  = if (i' =? i) && (d' =? d) && (k' =? k) then v else requested m i' d' k'.
Proof.
  intros Hshape Hi Hd Hk.
  destruct (shaped_lengths N S m Hshape) as (HN & Hrows).
  destruct (Hrows i Hi) as (H7 & Hcells). specialize (Hcells d Hd).
  unfold requested. rewrite nth_update.
  destruct (i' =? i) eqn:Ei; cbn [andb]; [|reflexivity].
  apply Nat.eqb_eq in Ei. subst i'.
  replace (i <? List.length m) with true by (symmetry; apply Nat.ltb_lt; lia).
  rewrite nth_update.
  destruct (d' =? d) eqn:Ed; cbn [andb]; [|reflexivity].
  apply Nat.eqb_eq in Ed. subst d'.
  replace (d <? List.length (nth i m [])) with true by (symmetry; apply Nat.ltb_lt; lia).
  rewrite nth_update.
  destruct (k' =? k) eqn:Ek; cbn [andb]; [|reflexivity].
  replace (k <? List.length (nth d (nth i m []) [])) with true
    by (symmetry; apply Nat.ltb_lt; lia).
  reflexivity.
Qed.

Lemma setitem3_shaped (N S i d k : nat) (v : bool) (m : list (list (list bool))) :
  shaped N S m = true -> i < N -> d < num_days -> k < S ->
  setitem3 m i d k v = Return (update i (update d (update k (fun _ => v))) m).
Proof.
  intros Hshape Hi Hd Hk.
  destruct (shaped_lengths N S m Hshape) as (HN & Hrows).
  destruct (Hrows i Hi) as (H7 & Hcells). specialize (Hcells d Hd).
  unfold setitem3.
  rewrite (getitem_nth m i []) by lia. cbn [bind].
  rewrite (getitem_nth _ d []) by lia. cbn [bind].
  replace (k <? List.length (nth d (nth i m []) [])) with true
    by (symmetry; apply Nat.ltb_lt; lia).
  reflexivity.
Qed.

Lemma blank_requests_shaped (N S : nat) : shaped N S (blank_requests N S) = true.
Proof.
  unfold shaped, blank_requests. apply andb_true_intro. split.
  - apply Nat.eqb_eq. unfold range. now rewrite length_map, length_seq.
  - apply forallb_forall. intros by_day Hin. apply in_map_iff in Hin.
    destruct Hin as (i & <- & _). apply andb_true_intro. split.
    + apply Nat.eqb_eq. unfold range. now rewrite length_map, length_seq.
    + apply forallb_forall. intros by_shift Hin. apply in_map_iff in Hin.
      destruct Hin as (d & <- & _). apply Nat.eqb_eq. apply repeat_length.
Qed.

Lemma ticked_requests_shaped (s : st.Session) (N S : nat) :
  shaped N S (ticked_requests s N S) = true.
Proof.
  unfold shaped, ticked_requests. apply andb_true_intro. split.
  - apply Nat.eqb_eq. unfold range. now rewrite length_map, length_seq.
  - apply forallb_forall. intros by_day Hin. apply in_map_iff in Hin.
    destruct Hin as (i & <- & _). apply andb_true_intro. split.
    + apply Nat.eqb_eq. unfold range. now rewrite length_map, length_seq.
    + apply forallb_forall. intros by_shift Hin. apply in_map_iff in Hin.
      destruct Hin as (d & <- & _). apply Nat.eqb_eq.
      unfold range. now rewrite length_map, length_seq.
Qed.

Lemma nth_map_range {A : Type} (f : nat -> A) (n i : nat) (dflt : A) :
  i < n -> nth i (map f (range n)) dflt = f i.
Proof.
  intros Hi. unfold range.
  rewrite (nth_indep _ dflt (f 0)) by (now rewrite length_map, length_seq).
  rewrite map_nth, seq_nth by assumption. reflexivity.
Qed.

Lemma ticked_requests_cell (s : st.Session) (N S i d k : nat) :
  i < N -> d < num_days -> k < S ->
  requested (ticked_requests s N S) i d k = st.ticked s (checkbox_key i d (k + 1)).
Proof.
  intros Hi Hd Hk. unfold requested, ticked_requests.
  rewrite nth_map_range by assumption.
  rewrite nth_map_range by assumption.
  now rewrite nth_map_range by assumption.
Qed.

Lemma blank_requests_cell (N S i d k : nat) : requested (blank_requests N S) i d k = false.
Proof.
  unfold requested, blank_requests.
  destruct (Nat.lt_ge_cases i N) as [Hi|Hi].
  - rewrite nth_map_range by assumption.
    destruct (Nat.lt_ge_cases d 7) as [Hd|Hd].
    + rewrite nth_map_range by assumption.
      destruct (nth_in_or_default k (repeat false S) false) as [Hin|E]; [|assumption].
      now apply repeat_spec in Hin.
    + rewrite (nth_overflow (map (fun _ => repeat false S) (range 7)) []);
        [now destruct k|].
      unfold range. now rewrite length_map, length_seq.
  - rewrite (nth_overflow (map (fun _ => map (fun _ => repeat false S) (range 7))
                               (range N)) []);
      [now destruct d, k|].
    unfold range. now rewrite length_map, length_seq.
Qed.

(** Two well-shaped matrices with the same cells are the same matrix. *)
Lemma matrix_ext (N S : nat) (m m' : list (list (list bool))) :
  shaped N S m = true -> shaped N S m' = true ->
  (forall i d k, i < N -> d < num_days -> k < S ->
                 requested m i d k = requested m' i d k) ->
  m = m'.
Proof.
  intros Hm Hm' Hcells.
  destruct (shaped_lengths N S m Hm) as (HN & Hrows).
  destruct (shaped_lengths N S m' Hm') as (HN' & Hrows').
  apply (nth_ext _ _ [] []); [lia|]. intros i Hi. rewrite HN in Hi.
  destruct (Hrows i Hi) as (H7 & Hc). destruct (Hrows' i Hi) as (H7' & Hc').
  apply (nth_ext _ _ [] []); [lia|]. intros d Hd. rewrite H7 in Hd.
  apply (nth_ext _ _ false false); [rewrite Hc, Hc' by assumption; reflexivity|].
  intros k Hk. rewrite Hc in Hk by assumption.
  exact (Hcells i d k Hi Hd Hk).
Qed.

(* ================================================================== *)
(** ** The loops of [main] *)

Lemma for_map {A B S : Type} (f : A -> B) (l : list A) (body : B -> S -> S) (s : S) :
  for_ (map f l) body s = for_ l (fun x => body (f x)) s.
Proof.
  revert s. induction l as [|x l IH]; intros s; [reflexivity|].
  unfold for_ in *. cbn [map fold_left]. apply IH.
Qed.

Lemma for_prod {A B S : Type} (l1 : list A) (l2 : list B) (body : A -> B -> S -> S) (s : S) :
  for_ l1 (fun x => for_ l2 (body x)) s
  = for_ (list_prod l1 l2) (fun xy => body (fst xy) (snd xy)) s.
Proof.
  revert s. induction l1 as [|x l1 IH]; intros s; [reflexivity|].
  cbn [list_prod]. rewrite for_app, for_map. cbn [fst snd].
  rewrite <- IH. reflexivity.
Qed.

Lemma for_ext {A S : Type} (f g : A -> S -> S) (l : list A) :
  (forall x s, f x s = g x s) -> forall s, for_ l f s = for_ l g s.
Proof.
  intros H. induction l as [|x l IH]; intros s; [reflexivity|].
  unfold for_ in *. cbn [fold_left]. now rewrite H, IH.
Qed.

Lemma for_invariant {A S : Type} (I : S -> Prop) (body : A -> S -> S) (l : list A) :
  (forall x s, In x l -> I s -> I (body x s)) ->
  forall s, I s -> I (for_ l body s).
Proof.
  induction l as [|x l IH]; intros H s Hs; [assumption|].
  unfold for_ in *. cbn [fold_left].
  apply IH; [intros; apply H; auto; now right | apply H; auto; now left].
Qed.

Section MainLoops.

Variable s : st.Session.
Variables N S : nat.

Lemma tick_cell_shaped (i day shift : nat) (m : list (list (list bool))) :
  shaped N S m = true -> shaped N S (tick_cell s i day shift m) = true.
Proof. apply write_cell_shaped. Qed.

Lemma render_shifts (i day : nat) (shifts : list nat) :
  i < N -> day < num_days ->
  (forall shift, In shift shifts -> 1 <= shift <= S) ->
  forall (m : list (list (list bool))) (elements : list st.Element),
    shaped N S m = true ->
    forM shifts (fun shift state =>
      let v := st.ticked s (checkbox_key i day shift) in
      let page := snd state ++ [st.Checkbox ("Shift " ++ str shift)%string
                                            (checkbox_key i day shift)] in
      shift_requests <- setitem3 (fst state) i day (shift - 1) v ;;
      Return (shift_requests, page)) (m, elements)
    = Return (for_ shifts (tick_cell s i day) m,
              elements ++ map (checkbox_element i day) shifts).
Proof.
  intros Hi Hd. induction shifts as [|shift shifts IH]; intros Hin m elements Hm.
  - cbn [forM for_ fold_left map]. now rewrite app_nil_r.
  - cbn [forM fst snd].
    destruct (Hin shift (or_introl eq_refl)) as [H1 HS].
    rewrite (setitem3_shaped N S i day (shift - 1)) by (assumption || lia).
    cbn [bind].
    rewrite IH; [|intros; apply Hin; now right | now apply write_cell_shaped].
    cbn [map]. rewrite <- app_assoc. reflexivity.
Qed.

Lemma render_day_spec (i day : nat) (m : list (list (list bool)))
      (elements : list st.Element) :
  i < N -> day < num_days -> shaped N S m = true ->
  render_day s S i day (m, elements)
  = Return (for_ (seq 1 S) (tick_cell s i day) m,
            elements ++ map (checkbox_element i day) (seq 1 S)).
Proof.
  intros Hi Hd Hm. unfold render_day. apply render_shifts; try assumption.
  intros shift Hin. apply in_seq in Hin. lia.
Qed.

Lemma render_days (i : nat) (days : list nat) :
  i < N -> (forall day, In day days -> day < num_days) ->
  forall (m : list (list (list bool))) (elements : list st.Element),
    shaped N S m = true ->
    forM days (fun day state =>
      _ <- getitem (range 7) day ;;
      name <- getitem daily day ;;
      let page := snd state ++ [st.Column day; st.Write name] in
      render_day s S i day (fst state, page)) (m, elements)
    = Return (for_ days (fun day => for_ (seq 1 S) (tick_cell s i day)) m,
              elements ++ flat_map (day_elements S i) days).
Proof.
  intros Hi. induction days as [|day days IH]; intros Hin m elements Hm.
  - cbn [forM for_ fold_left flat_map]. now rewrite app_nil_r.
  - cbn [forM fst snd].
    pose proof (Hin day (or_introl eq_refl)) as Hd. unfold num_days in Hd.
    rewrite (getitem_nth (range 7) day 0) by (unfold range; rewrite length_seq; lia).
    cbn [bind].
    rewrite (getitem_nth daily day "") by (cbn [daily List.length]; lia).
    cbn [bind].
    rewrite render_day_spec by (assumption || (unfold num_days; lia)).
    cbn [bind].
    rewrite IH; [|intros; apply Hin; now right|].
    + cbn [flat_map]. unfold day_elements at 2. rewrite <- !app_assoc. reflexivity.
    + apply for_invariant; [|assumption]. intros. now apply tick_cell_shaped.
Qed.

Lemma render_worker_spec (i : nat) (m : list (list (list bool)))
      (elements : list st.Element) :
  i < N -> shaped N S m = true ->
  render_worker s S i (m, elements)
  = Return (for_ (range 7) (fun day => for_ (seq 1 S) (tick_cell s i day)) m,
            elements ++ worker_elements S i).
Proof.
  intros Hi Hm. unfold render_worker. cbn [fst snd].
  rewrite render_days; try assumption.
  - unfold worker_elements. now rewrite <- app_assoc.
  - intros day Hin. now apply in_range in Hin.
Qed.

Lemma render_workers (workers : list nat) :
  (forall i, In i workers -> i < N) ->
  forall (m : list (list (list bool))) (elements : list st.Element),
    shaped N S m = true ->
    forM workers (render_worker s S) (m, elements)
    = Return (for_ workers (fun i => for_ (range 7) (fun day =>
                for_ (seq 1 S) (tick_cell s i day))) m,
              elements ++ flat_map (worker_elements S) workers).
Proof.
  induction workers as [|i workers IH]; intros Hin m elements Hm.
  - cbn [forM for_ fold_left flat_map]. now rewrite app_nil_r.
  - cbn [forM]. rewrite render_worker_spec by (assumption || apply Hin; now left).
    cbn [bind].
    rewrite IH; [|intros; apply Hin; now right|].
    + cbn [flat_map]. rewrite <- app_assoc. reflexivity.
    + apply for_invariant; [|assumption]. intros.
      apply for_invariant; [|assumption]. intros. now apply tick_cell_shaped.
Qed.

(** The cells after a sequence of writes, each from its own checkbox. *)
Lemma writes_requested (writes : list (nat * (nat * nat))) :
  (forall w, In w writes ->
             fst w < N /\ fst (snd w) < num_days /\ 1 <= snd (snd w) <= S) ->
  forall (m : list (list (list bool))) (i d k : nat),
    shaped N S m = true ->
    requested (for_ writes (fun w => tick_cell s (fst w) (fst (snd w)) (snd (snd w))) m)
              i d k
    = if existsb (fun w => (i =? fst w) && (d =? fst (snd w)) && (k =? snd (snd w) - 1))
                 writes
      then st.ticked s (checkbox_key i d (k + 1))
      else requested m i d k.
Proof.
  induction writes as [|[wi [wd ws]] writes IH]; intros Hin m i d k Hm; [reflexivity|].
  destruct (Hin _ (or_introl eq_refl)) as (Hwi & Hwd & Hws). cbn [fst snd] in *.
  change (for_ ((wi, (wd, ws)) :: writes)
               (fun w => tick_cell s (fst w) (fst (snd w)) (snd (snd w))) m)
    with (for_ writes (fun w => tick_cell s (fst w) (fst (snd w)) (snd (snd w)))
               (tick_cell s wi wd ws m)).
  rewrite IH; [|intros; apply Hin; now right | now apply tick_cell_shaped].
  cbn [existsb fst snd]. unfold tick_cell at 1.
  rewrite (write_cell_requested N S wi wd (ws - 1)) by (assumption || lia).
  destruct ((i =? wi) && (d =? wd) && (k =? ws - 1)) eqn:E; cbn [orb].
  - apply andb_prop in E. destruct E as [E Ek]. apply andb_prop in E.
    destruct E as [Ei Ed]. apply Nat.eqb_eq in Ei, Ed, Ek. subst i d k.
    replace (ws - 1 + 1) with ws by lia. now destruct (existsb _ writes).
  - reflexivity.
Qed.

(** Lines 28-39: after the loops every cell holds what its checkbox
    returned. *)
Lemma filled_requests :
  for_ (range N) (fun i => for_ (range 7) (fun day => for_ (seq 1 S) (tick_cell s i day)))
       (blank_requests N S)
  = ticked_requests s N S.
Proof.
  set (writes := list_prod (range N) (list_prod (range 7) (seq 1 S))).
  assert (Hflat : forall m,
            for_ (range N) (fun i => for_ (range 7) (fun day =>
              for_ (seq 1 S) (tick_cell s i day))) m
            = for_ writes (fun w => tick_cell s (fst w) (fst (snd w)) (snd (snd w))) m).
  { intros m. unfold writes.
    rewrite <- (for_prod (range N) (list_prod (range 7) (seq 1 S))
                  (fun i ds => tick_cell s i (fst ds) (snd ds))).
    apply for_ext. intros i m'.
    apply (for_prod (range 7) (seq 1 S) (fun day shift => tick_cell s i day shift)). }
  assert (Hin : forall w, In w writes ->
                  fst w < N /\ fst (snd w) < num_days /\ 1 <= snd (snd w) <= S).
  { intros [i [d sh]] Hw. unfold writes in Hw.
    apply in_prod_iff in Hw. destruct Hw as [Hi Hw].
    apply in_prod_iff in Hw. destruct Hw as [Hd Hsh].
    apply in_range in Hi, Hd. apply in_seq in Hsh. cbn [fst snd].
    unfold num_days. lia. }
  rewrite Hflat.
  apply (matrix_ext N S).
  - apply for_invariant; [|apply blank_requests_shaped].
    intros. now apply tick_cell_shaped.
  - apply ticked_requests_shaped.
  - intros i d k Hi Hd Hk.
    rewrite (writes_requested writes Hin) by apply blank_requests_shaped.
    rewrite ticked_requests_cell by assumption.
    replace (existsb _ writes) with true; [reflexivity|].
    symmetry. apply existsb_exists. exists (i, (d, k + 1)). split.
    + unfold writes. apply in_prod_iff. split; [now apply in_range|].
      apply in_prod_iff. split; [now apply in_range|]. apply in_seq. lia.
    + cbn [fst snd]. rewrite !Nat.eqb_refl.
      replace (k + 1 - 1) with k by lia. now rewrite Nat.eqb_refl.
Qed.

End MainLoops.

(* ================================================================== *)
(** ** [main] as a whole *)

Lemma number_input_at_least (s : st.Session) (label : string) (min_value value : nat) :
  min_value <= value -> min_value <= st.number_input s label min_value value.
Proof.
  intros H. unfold st.number_input.
  destruct (min_value <=? st.entered s label) eqn:E; [|assumption].
  now apply Nat.leb_le in E.
Qed.

Lemma workers_entered_positive (s : st.Session) : 1 <= workers_entered s.
Proof. apply number_input_at_least. lia. Qed.

Lemma shifts_entered_positive (s : st.Session) : 1 <= shifts_entered s.
Proof. apply number_input_at_least. lia. Qed.

Lemma main_spec (release : st.Release) (Solve : CpModel -> CpSolver) (s : st.Session) :
  main release Solve s
  = (if st.clicked s "Run Module"
     then df <- run_schedule Solve (workers_entered s) (shifts_entered s)
                             (ticked_requests s (workers_entered s) (shifts_entered s)) ;;
          match release with
          | st.write_ignores_keywords =>
              Return (mkRun (page_elements (workers_entered s) (shifts_entered s)
                             ++ [st.Write "Module executed successfully!";
                                 st.WriteFrame (returned df)])
                            (stdout df))
          | st.write_rejects_keywords => Raise TypeError
          end
     else Return (mkRun (page_elements (workers_entered s) (shifts_entered s)) [])).
Proof.
  unfold main. fold (workers_entered s) (shifts_entered s).
  set (N := workers_entered s). set (S := shifts_entered s).
  rewrite (render_workers s N S (range N)).
  - cbn [bind fst snd]. rewrite filled_requests.
    destruct (st.clicked s "Run Module").
    + destruct (run_schedule Solve N S (ticked_requests s N S)) as [df|e];
        [|reflexivity].
      cbn [bind]. destruct release; cbn [st.write bind]; [|reflexivity].
      unfold page_elements. cbn [app]. rewrite <- !app_assoc. reflexivity.
    + unfold page_elements. reflexivity.
  - intros i Hi. now apply in_range in Hi.
  - apply blank_requests_shaped.
Qed.

(** Lines 5-45: [main] puts the same elements on the page whatever is
    ticked, takes at least one worker and one shift from the sidebar,
    fills the matrix with what the checkboxes return, cell
    [(i, day, shift - 1)] from the checkbox with key [i+1_day_shift], and,
    when the button is clicked, hands exactly this well-shaped matrix to
    [run_schedule]; the table that comes back is written on the page
    where [write] ignores the keyword [index], and the run ends in a
    [TypeError] where it does not. *)
Theorem main_hands_over_ticked_requests
    (release : st.Release) (Solve : CpModel -> CpSolver) (s : st.Session) :
  main release Solve s
  = (if st.clicked s "Run Module"
     then df <- run_schedule Solve (workers_entered s) (shifts_entered s)
                             (ticked_requests s (workers_entered s) (shifts_entered s)) ;;
          match release with
          | st.write_ignores_keywords =>
              Return (mkRun (page_elements (workers_entered s) (shifts_entered s)
                             ++ [st.Write "Module executed successfully!";
                                 st.WriteFrame (returned df)])
                            (stdout df))
          | st.write_rejects_keywords => Raise TypeError
          end
     else Return (mkRun (page_elements (workers_entered s) (shifts_entered s)) []))
  /\ 1 <= workers_entered s
  /\ 1 <= shifts_entered s
  /\ shaped (workers_entered s) (shifts_entered s)
            (ticked_requests s (workers_entered s) (shifts_entered s)) = true
  /\ forall i day shift,
       i < workers_entered s -> day < num_days -> 1 <= shift <= shifts_entered s ->
       requested (ticked_requests s (workers_entered s) (shifts_entered s))
                 i day (shift - 1)
       = st.ticked s (checkbox_key i day shift).
Proof.
  split; [apply main_spec|].
  split; [apply workers_entered_positive|].
  split; [apply shifts_entered_positive|].
  split; [apply ticked_requests_shaped|].
  intros i day shift Hi Hd Hs.
  rewrite ticked_requests_cell by (assumption || lia).
  now replace (shift - 1 + 1) with shift by lia.
Qed.

Lemma length_filter_map_const {A B : Type} (p : B -> bool) (f : A -> B) (l : list A) :
  (forall x, p (f x) = true) -> List.length (filter p (map f l)) = List.length l.
Proof.
  intros H. induction l as [|x l IH]; [reflexivity|].
  cbn [map filter]. rewrite H. cbn [List.length]. now rewrite IH.
Qed.

Lemma list_sum_const {A : Type} (c : nat) (l : list A) :
  list_sum (map (fun _ => c) l) = c * List.length l.
Proof.
  induction l as [|x l IH]; cbn [map List.length]; [cbn; lia|].
  rewrite list_sum_cons, IH. lia.
Qed.

Lemma checkboxes_of_worker (S i : nat) :
  List.length (filter is_checkbox (worker_elements S i)) = 7 * S.
Proof.
  unfold worker_elements. cbn [app filter is_checkbox].
  rewrite length_filter_flat_map.
  rewrite (map_ext _ (fun _ => S)).
  - rewrite list_sum_const. unfold range. now rewrite length_seq, Nat.mul_comm.
  - intros day. unfold day_elements. cbn [app filter is_checkbox].
    rewrite length_filter_map_const by reflexivity. apply length_seq.
Qed.

Lemma checkboxes_on_page (N S : nat) :
  List.length (filter is_checkbox (page_elements N S)) = N * 7 * S.
Proof.
  unfold page_elements. cbn [app filter is_checkbox].
  rewrite filter_app, length_app. cbn [filter is_checkbox List.length].
  rewrite Nat.add_0_r, length_filter_flat_map.
  rewrite (map_ext _ (fun _ => 7 * S)) by (intros; apply checkboxes_of_worker).
  rewrite list_sum_const. unfold range. rewrite length_seq. lia.
Qed.

(** Lines 25-45: [main] raises in one case only, a click on the button
    where [write] rejects the keyword [index], and then it is the
    [TypeError] of line 45, after [run_schedule] has returned; the
    division by zero of [run_schedule] is out of reach, since the sidebar
    delivers at least one worker.  In every other case [main] returns a
    page that holds one checkbox per (worker, day, shift), whatever the
    engine answers. *)
Theorem main_raises_only_at_write
    (release : st.Release) (Solve : CpModel -> CpSolver) (s : st.Session) :
  (st.clicked s "Run Module" = true
   /\ release = st.write_rejects_keywords
   /\ main release Solve s = Raise TypeError)
  \/ ((st.clicked s "Run Module" = false \/ release = st.write_ignores_keywords)
      /\ exists run,
           main release Solve s = Return run
           /\ List.length (filter is_checkbox (page run))
              = workers_entered s * 7 * shifts_entered s).
Proof.
  rewrite main_spec.
  set (N := workers_entered s). set (S := shifts_entered s).
  assert (HN : 1 <= N) by apply workers_entered_positive.
  destruct (st.clicked s "Run Module") eqn:Hclick.
  - destruct (run_schedule_output Solve N S (ticked_requests s N S)
                (schedule_model (ticked_requests s N S) N S))
      as (out & lines & -> & _);
      [assumption | apply ticked_requests_shaped
       | apply build_model_spec; [lia | apply ticked_requests_shaped] |].
    cbn [bind]. destruct release.
    + right. split; [now right|]. eexists. split; [reflexivity|]. cbn [page].
      rewrite filter_app, length_app, checkboxes_on_page.
      cbn [filter is_checkbox List.length]. lia.
    + left. auto.
  - right. split; [now left|]. eexists. split; [reflexivity|].
    cbn [page]. apply checkboxes_on_page.
Qed.

(** *** The keys of the checkboxes *)

Lemma NoDup_list_prod {A B : Type} (l1 : list A) (l2 : list B) :
  NoDup l1 -> NoDup l2 -> NoDup (list_prod l1 l2).
Proof.
  intros H1 H2. induction H1 as [|x l1 Hx H1 IH]; [constructor|].
  cbn [list_prod]. apply NoDup_app; [| assumption |].
  - apply NoDup_map_NoDup_ForallPairs; [|assumption].
    intros y y' _ _ E. now injection E.
  - intros [x' y] Hin Hin'. apply in_map_iff in Hin. destruct Hin as (y' & E & _).
    injection E as <- <-. apply in_prod_iff in Hin'. now destruct Hin'.
Qed.

Lemma checkbox_keys_app (l1 l2 : list st.Element) :
  checkbox_keys (l1 ++ l2) = checkbox_keys l1 ++ checkbox_keys l2.
Proof. apply flat_map_app. Qed.

Lemma checkbox_keys_flat_map {A : Type} (g : A -> list st.Element) (l : list A) :
  checkbox_keys (flat_map g l) = flat_map (fun x => checkbox_keys (g x)) l.
Proof.
  induction l as [|x l IH]; [reflexivity|].
  cbn [flat_map]. now rewrite checkbox_keys_app, IH.
Qed.

Lemma checkbox_keys_of_page (N S : nat) :
  checkbox_keys (page_elements N S)
  = map (fun w => checkbox_key (fst w) (fst (snd w)) (snd (snd w)))
        (list_prod (range N) (list_prod (range 7) (seq 1 S))).
Proof.
  unfold page_elements. cbn [app]. unfold checkbox_keys at 1. cbn [flat_map app].
  fold (checkbox_keys (flat_map (worker_elements S) (range N) ++ [st.Button "Run Module"])).
  rewrite checkbox_keys_app, checkbox_keys_flat_map.
  cbn [checkbox_keys flat_map]. rewrite app_nil_r.
  rewrite <- (flat_map_map_prod
                (fun i ds => checkbox_key i (fst ds) (snd ds))).
  apply flat_map_ext. intros i.
  unfold worker_elements. cbn [app]. unfold checkbox_keys at 1. cbn [flat_map app].
  fold (checkbox_keys (flat_map (day_elements S i) (range 7))).
  rewrite checkbox_keys_flat_map.
  rewrite <- (flat_map_map_prod (fun day shift => checkbox_key i day shift)).
  apply flat_map_ext. intros day.
  unfold day_elements. cbn [app]. unfold checkbox_keys. cbn [flat_map app].
  induction (seq 1 S) as [|shift l IH]; [reflexivity|].
  cbn [map flat_map checkbox_element app]. now rewrite IH.
Qed.

(** Lines 32-39: no two checkboxes of the page share a key, whatever the
    numbers of workers and shifts: the key [f'{i+1}_{day}_{shift}'] tells
    the worker, the day and the shift apart. *)
Theorem checkbox_keys_never_clash (N S : nat) :
  NoDup (checkbox_keys (page_elements N S))
  /\ forall i day shift i' day' shift',
       checkbox_key i day shift = checkbox_key i' day' shift' <->
       i = i' /\ day = day' /\ shift = shift'.
Proof.
  split.
  - rewrite checkbox_keys_of_page.
    apply NoDup_map_NoDup_ForallPairs.
    + intros [i [d sh]] [i' [d' sh']] _ _ E. cbn [fst snd] in E.
      apply checkbox_key_injective in E. destruct E as (-> & -> & ->). reflexivity.
    + apply NoDup_list_prod; [apply seq_NoDup|].
      apply NoDup_list_prod; apply seq_NoDup.
  - intros i day shift i' day' shift'. split.
    + apply checkbox_key_injective.
    + now intros (-> & -> & ->).
Qed.

(** *** From the checkboxes to the roster *)

Lemma requests_met_ticked (s : st.Session) (N S : nat) (a : Assignment) :
  requests_met (ticked_requests s N S) N S a = ticked_and_assigned s N S a.
Proof.
  unfold requests_met, ticked_and_assigned. f_equal.
  apply filter_ext_in. intros [[i d] k] Hin. apply In_triples in Hin.
  destruct Hin as (Hi & Hd & Hk). now rewrite ticked_requests_cell.
Qed.

(** Lines 41-45 with lines 106-137: after a click, when the engine is
    sound and answers optimal, [main] writes the roster table of the
    answer on the page where [write] ignores the keyword [index], and
    ends in a [TypeError] where it does not; the number of requests met
    that is printed is the number of assigned shifts whose checkbox is
    ticked, which no roster that satisfies the constraints exceeds. *)
Theorem main_shows_roster_of_ticked_requests
    (Solve : CpModel -> CpSolver) (s : st.Session) (model : CpModel) :
  st.clicked s "Run Module" = true ->
  build_model (workers_entered s) (shifts_entered s)
              (ticked_requests s (workers_entered s) (shifts_entered s))
  = Return model ->
  sound model (Solve model) ->
  status (Solve model) = OPTIMAL ->
  (exists run,
     main st.write_ignores_keywords Solve s = Return run
     /\ page run
        = page_elements (workers_entered s) (shifts_entered s)
          ++ [st.Write "Module executed successfully!";
              st.WriteFrame (roster_frame (Value (Solve model))
                                          (workers_entered s) (shifts_entered s))]
     /\ In (RequestsMet
              (ticked_and_assigned s (workers_entered s) (shifts_entered s)
                                   (Value (Solve model)))
              (workers_entered s
               * minShiftsPerWorker (workers_entered s) (shifts_entered s)))
           (console run))
  /\ main st.write_rejects_keywords Solve s = Raise TypeError
  /\ forall a,
       feasible (workers_entered s) (shifts_entered s) a
                (minShiftsPerWorker (workers_entered s) (shifts_entered s))
                (maxShiftsPerWorker (workers_entered s) (shifts_entered s)) ->
       ticked_and_assigned s (workers_entered s) (shifts_entered s) a
       <= ticked_and_assigned s (workers_entered s) (shifts_entered s)
                              (Value (Solve model)).
Proof.
  set (N := workers_entered s). set (S := shifts_entered s).
  intros Hclick Hbuild Hsound Hopt.
  assert (HN : 1 <= N) by apply workers_entered_positive.
  assert (Hshape := ticked_requests_shaped s N S).
  apply (built_model N S _ HN Hshape) in Hbuild. subst model.
  set (prefs := ticked_requests s N S) in *.
  set (r := Solve (schedule_model prefs N S)) in *.
  destruct (successful_feasible _ _ _ _ Hsound (or_introl Hopt)) as (Hcov & _).
  assert (Hval : ObjectiveValue r = ticked_and_assigned s N S (Value r)).
  { rewrite (optimal_value Hsound Hopt), objective_schedule_model.
    apply requests_met_ticked. }
  rewrite !main_spec. fold N S prefs. rewrite Hclick.
  rewrite (run_schedule_optimal Solve N S prefs HN Hshape Hopt Hcov). cbn [bind].
  split; [|split; [reflexivity|]].
  - eexists. split; [reflexivity|]. cbn [page console returned stdout]. fold r.
    split; [reflexivity|].
    right. apply in_or_app. right. left. now rewrite Hval.
  - intros a Ha. rewrite <- Hval, <- requests_met_ticked.
    fold prefs. rewrite <- (objective_schedule_model prefs).
    apply (optimal_maximal Hsound Hopt). now apply satisfies_feasible.
Qed.

Lemma sample_session_optimal :
  status (reference.brute_force_solve
            (schedule_model (ticked_requests sample_session 2 1) 2 1)) = OPTIMAL.
Proof. vm_compute. reflexivity. Qed.

Lemma main_shows_roster_of_ticked_requests_witness :
  (exists run,
     main st.write_ignores_keywords reference.brute_force_solve sample_session
     = Return run
     /\ page run
        = page_elements (workers_entered sample_session) (shifts_entered sample_session)
          ++ [st.Write "Module executed successfully!";
              st.WriteFrame
                (roster_frame
                   (Value (reference.brute_force_solve
                             (schedule_model (ticked_requests sample_session 2 1) 2 1)))
                   (workers_entered sample_session) (shifts_entered sample_session))]
     /\ In (RequestsMet
              (ticked_and_assigned sample_session
                 (workers_entered sample_session) (shifts_entered sample_session)
                 (Value (reference.brute_force_solve
                           (schedule_model (ticked_requests sample_session 2 1) 2 1))))
              (workers_entered sample_session
               * minShiftsPerWorker (workers_entered sample_session)
                                    (shifts_entered sample_session)))
           (console run))
  /\ main st.write_rejects_keywords reference.brute_force_solve sample_session
     = Raise TypeError
  /\ forall a,
       feasible (workers_entered sample_session) (shifts_entered sample_session) a
                (minShiftsPerWorker (workers_entered sample_session)
                                    (shifts_entered sample_session))
                (maxShiftsPerWorker (workers_entered sample_session)
                                    (shifts_entered sample_session)) ->
       ticked_and_assigned sample_session
                           (workers_entered sample_session)
                           (shifts_entered sample_session) a
       <= ticked_and_assigned sample_session
            (workers_entered sample_session) (shifts_entered sample_session)
            (Value (reference.brute_force_solve
                      (schedule_model (ticked_requests sample_session 2 1) 2 1))).
Proof.
  apply (main_shows_roster_of_ticked_requests reference.brute_force_solve sample_session
           (schedule_model (ticked_requests sample_session 2 1) 2 1)).
  - reflexivity.
  - apply (build_model_spec (ticked_requests sample_session 2 1) 2 1);
      [lia | reflexivity].
  - apply brute_force_sound.
  - exact sample_session_optimal.
Defined.
